(** * GoTogether: seat inventory and booking requests

    A shallow embedding of the parts of the GoTogether client that touch the
    seat inventory: the [rides] and [requests] tables with the constraints of
    the SQL migrations, the driver dashboard ([fetchData],
    [handleRequestDecision]), the offer form ([handleSubmit]) and the ride
    finder ([fetchRides], [handleBooking]); and, from the migrations, the
    alias triggers of [rides] and the functions that create a profile.

    Conventions.
    - A timestamp is the number of milliseconds since the epoch, the value of
      [Date.getTime()].
    - JavaScript numbers holding seat counts are integers ([Z]); the numbers of
      the cost estimate are exact rationals ([Q]).  A division whose result is
      not finite is serialised as [null] and is [None] here, and so is the
      [NaN] that [parseInt] makes of an emptied seats field of the booking
      dialog.  The seats field of the offer form is taken to hold an integer:
      a ride stored with NULL seat columns is not modelled.
    - An [async] function is a finite tree of [await]ed database writes
      ([Js.proc]); the event loop may switch between two such trees at every
      [await].
    - Row-level-security policies are not modelled: every caller is one the
      policies let through (the dashboard only loads the signed-in driver's own
      rides).  The replay of a posting or booking kept in [localStorage]
      ([Dashboard.tsx]) is outside the model as well. *)

From Stdlib Require Import ZArith QArith Qround Lqa List String Bool Lia.
From Stdlib Require Import Sorting.Sorted Sorting.Permutation.
Import ListNotations.

#[local] Open Scope string_scope.
#[local] Open Scope list_scope.
#[local] Open Scope Z_scope.

Definition uuid : Type := string.
Definition timestamp : Type := Z.

(** ** The database *)

Module Profiles.
Record row : Type := mk
  { id : uuid;
    full_name : string }.
End Profiles.

Module Rides.
(** [public.rides] after the guest-mode migration ([driver_id] nullable,
    contact columns added). *)
Record row : Type := mk
  { id : uuid;
    driver_id : option uuid;
    origin : string;
    destination : string;
    departure_time : timestamp;
    arrival_time : timestamp;
    total_seats : Z;
    available_seats : Z;
    cost_per_person : option Q;
    contact_email : option string;
    contact_name : option string }.

Definition with_available_seats (n : Z) (r : row) : row :=
  mk (id r) (driver_id r) (origin r) (destination r) (departure_time r)
     (arrival_time r) (total_seats r) n (cost_per_person r)
     (contact_email r) (contact_name r).

Definition with_cost_per_person (c : option Q) (r : row) : row :=
  mk (id r) (driver_id r) (origin r) (destination r) (departure_time r)
     (arrival_time r) (total_seats r) (available_seats r) c
     (contact_email r) (contact_name r).
End Rides.

Module Requests.
(** [CREATE TYPE request_status AS ENUM ('pending', 'approved', 'denied')] *)
Inductive request_status : Type := pending | approved | denied.

Definition status_eqb (a b : request_status) : bool :=
  match a, b with
  | pending, pending | approved, approved | denied, denied => true
  | _, _ => false
  end.

Record row : Type := mk
  { id : uuid;
    ride_id : uuid;
    passenger_id : option uuid;
    seats_requested : Z;
    status : request_status;
    contact_email : option string;
    contact_name : option string }.

Definition with_status (s : request_status) (q : row) : row :=
  mk (id q) (ride_id q) (passenger_id q) (seats_requested q) s
     (contact_email q) (contact_name q).
End Requests.

Module Pg.
Record db : Type := mk
  { profiles : list Profiles.row;
    rides : list Rides.row;
    requests : list Requests.row }.

(** The SQLSTATE classes the schema can raise, with the constraint name. *)
Inductive pg_error : Type :=
| check_violation (constraint : string)
| unique_violation (constraint : string)
| foreign_key_violation (constraint : string)
| not_null_violation (column : string)
| numeric_value_out_of_range.

(** The values an [INTEGER] column holds. *)
Definition int4 (n : Z) : bool :=
  (-2147483648 <=? n) && (n <? 2147483648).

(** [DECIMAL(10,2)]: round half away from zero to two decimals; ten digits
    of precision in all. *)
Definition round_half_away (q : Q) : Z :=
  if Qle_bool 0 q then Qfloor (q + (1 # 2))%Q
  else - Qfloor (- q + (1 # 2))%Q.

Definition cents (q : Q) : Z := round_half_away (q * 100)%Q.

Definition decimal_10_2 (q : Q) : option Q :=
  let c := cents q in
  if Z.abs c <? 10 ^ 10 then Some (c # 100)%Q else None.

Definition has_id (i : uuid) (ids : list uuid) : bool :=
  existsb (String.eqb i) ids.

Definition option_uuid_eqb (a b : option uuid) : bool :=
  match a, b with
  | Some x, Some y => String.eqb x y
  | _, _ => false   (* NULL is distinct from everything, NULL included *)
  end.

Definition fk_profile (p : option uuid) (d : db) : bool :=
  match p with
  | None => true
  | Some u => has_id u (map Profiles.id (profiles d))
  end.

(** The four CHECK constraints of [public.rides] on one row. *)
Definition rides_checks (r : Rides.row) : option pg_error :=
  if negb (0 <? Rides.total_seats r) then
    Some (check_violation "rides_total_seats_check")
  else if negb (0 <=? Rides.available_seats r) then
    Some (check_violation "rides_available_seats_check")
  else if match Rides.cost_per_person r with
          | Some c => negb (Qle_bool 0 c)
          | None => false
          end then
    Some (check_violation "rides_cost_per_person_check")
  else if negb (Rides.available_seats r <=? Rides.total_seats r) then
    Some (check_violation "available_seats_check")
  else None.

(** [INSERT INTO rides]: the row carries the [id] drawn by
    [gen_random_uuid()].  The values are first brought to the types of their
    columns, [INTEGER] for the seats and [DECIMAL(10,2)] for the cost. *)
Definition insert_ride (r : Rides.row) (d : db) : pg_error + db :=
  match (if int4 (Rides.total_seats r) && int4 (Rides.available_seats r)
         then match Rides.cost_per_person r with
              | Some c => option_map Some (decimal_10_2 c)
              | None => Some None
              end
         else None) with
  | None => inl numeric_value_out_of_range
  | Some c =>
    let r := Rides.with_cost_per_person c r in
    match rides_checks r with
    | Some e => inl e
    | None =>
      if has_id (Rides.id r) (map Rides.id (rides d)) then
        inl (unique_violation "rides_pkey")
      else if negb (fk_profile (Rides.driver_id r) d) then
        inl (foreign_key_violation "rides_driver_id_fkey")
      else inr (mk (profiles d) (rides d ++ [r]) (requests d))
    end
  end.

(** [INSERT INTO requests (ride_id, passenger_id, seats_requested,
    contact_email, contact_name)]: [status] takes its default, [pending].
    [seats_requested] is [None] when the client sends [null]; the column is
    [INTEGER NOT NULL]. *)
Definition insert_request (new_id ride_id : uuid) (passenger_id : option uuid)
    (seats_requested : option Z) (contact_email contact_name : option string)
    (d : db) : pg_error + db :=
  match seats_requested with
  | None => inl (not_null_violation "seats_requested")
  | Some seats_requested =>
  let q := Requests.mk new_id ride_id passenger_id seats_requested
             Requests.pending contact_email contact_name in
  if negb (int4 seats_requested) then inl numeric_value_out_of_range
  else if negb (0 <? seats_requested) then
    inl (check_violation "requests_seats_requested_check")
  else if has_id new_id (map Requests.id (requests d)) then
    inl (unique_violation "requests_pkey")
  else if existsb (fun q' =>
                     String.eqb (Requests.ride_id q') ride_id
                     && option_uuid_eqb (Requests.passenger_id q') passenger_id)
                  (requests d) then
    inl (unique_violation "requests_ride_id_passenger_id_key")
  else if negb (has_id ride_id (map Rides.id (rides d))) then
    inl (foreign_key_violation "requests_ride_id_fkey")
  else if negb (fk_profile passenger_id d) then
    inl (foreign_key_violation "requests_passenger_id_fkey")
  else inr (mk (profiles d) (rides d) (requests d ++ [q]))
  end.

(** [UPDATE requests SET status = s WHERE id = requestId] *)
Definition set_status (requestId : uuid) (s : Requests.request_status)
    (q : Requests.row) : Requests.row :=
  if String.eqb (Requests.id q) requestId then Requests.with_status s q else q.

Definition update_request_status (requestId : uuid)
    (s : Requests.request_status) (d : db) : pg_error + db :=
  inr (mk (profiles d) (rides d) (map (set_status requestId s) (requests d))).

(** [UPDATE rides SET available_seats = n WHERE id = rideId]: the CHECK
    constraints are evaluated on every row the statement rewrites; one
    violation aborts the whole statement. *)
Fixpoint first_violation (rs : list Rides.row) : option pg_error :=
  match rs with
  | [] => None
  | r :: rs' =>
    match rides_checks r with
    | Some e => Some e
    | None => first_violation rs'
    end
  end.

Definition set_available_seats (rideId : uuid) (n : Z) (r : Rides.row) : Rides.row :=
  if String.eqb (Rides.id r) rideId then Rides.with_available_seats n r else r.

Definition update_ride_seats (rideId : uuid) (n : Z) (d : db) : pg_error + db :=
  let hit := fun r => String.eqb (Rides.id r) rideId in
  match first_violation (map (Rides.with_available_seats n) (filter hit (rides d))) with
  | Some e => inl e
  | None =>
    inr (mk (profiles d) (map (set_available_seats rideId n) (rides d)) (requests d))
  end.

(** [.order("departure_time", { ascending: true })] *)
Fixpoint insert_by_departure (r : Rides.row) (l : list Rides.row) : list Rides.row :=
  match l with
  | [] => [r]
  | x :: l' =>
    if Rides.departure_time r <=? Rides.departure_time x then r :: l
    else x :: insert_by_departure r l'
  end.

Definition order_by_departure (l : list Rides.row) : list Rides.row :=
  fold_right insert_by_departure [] l.

Definition departs_before (a b : Rides.row) : Prop :=
  Rides.departure_time a <= Rides.departure_time b.

Inductive write : Type :=
| InsertRide (r : Rides.row)
| InsertRequest (new_id ride_id : uuid) (passenger_id : option uuid)
                (seats_requested : option Z)
                (contact_email contact_name : option string)
| UpdateRequestStatus (requestId : uuid) (s : Requests.request_status)
| UpdateRideSeats (rideId : uuid) (n : Z).

Definition apply_write (w : write) (d : db) : pg_error + db :=
  match w with
  | InsertRide r => insert_ride r d
  | InsertRequest i r p n e c => insert_request i r p n e c d
  | UpdateRequestStatus i s => update_request_status i s d
  | UpdateRideSeats i n => update_ride_seats i n d
  end.
End Pg.

(** ** Asynchronous functions *)

Module Js.
(** What a rejected or failed call hands back: a database error returned in
    [{ error }], a transport failure of the request, or an exception thrown by
    the JavaScript code itself. *)
Inductive error : Type :=
| PostgrestError (e : Pg.pg_error)
| FetchError
| TypeError
| RangeError.

(** The toasts of the three components, by title. *)
Inductive toast : Type :=
| ToastRequestApproved      (* "Request approved!" *)
| ToastNotEnoughSeats       (* "Not enough seats" *)
| ToastRequestDenied        (* "Request denied" *)
| ToastTripPosted           (* "Trip posted!" *)
| ToastRequestSent          (* "Request sent!" *)
| ToastEmailRequired        (* "Email required" *)
| ToastError (e : error).   (* "Error", with the error's message *)

(** An [async] function body: it returns (possibly after a toast), or awaits
    one database write and continues with the [error] field of its result. *)
Inductive proc : Type :=
| Return (t : option toast)
| Await (w : Pg.write) (k : option error -> proc).

(** One awaited write.  [lost] says that the request did not reach the
    database. *)
Definition exec (lost : bool) (w : Pg.write) (d : Pg.db) : Pg.db * option error :=
  if lost then (d, Some FetchError)
  else match Pg.apply_write w d with
       | inl e => (d, Some (PostgrestError e))
       | inr d' => (d', None)
       end.

(** Run one call to completion; [net] lists, write by write, whether the
    request is lost (every write after the end of the list arrives). *)
Fixpoint run (net : list bool) (p : proc) (d : Pg.db) : Pg.db * option toast :=
  match p with
  | Return t => (d, t)
  | Await w k =>
    let '(d', e) := exec (hd false net) w d in
    run (tl net) (k e) d'
  end.

(** Two calls in flight at once, no request lost.  The schedule picks, at
    each step, the call whose pending write is served next ([true] for the
    first); when the schedule ends the first call finishes, then the second. *)
Fixpoint run2 (sched : list bool) (p q : proc) (d : Pg.db)
  : Pg.db * option toast * option toast :=
  match sched with
  | [] =>
    let '(d1, t1) := run [] p d in
    let '(d2, t2) := run [] q d1 in
    (d2, t1, t2)
  | true :: sched' =>
    match p with
    | Return t1 => let '(d2, t2) := run [] q d in (d2, t1, t2)
    | Await w k => let '(d', e) := exec false w d in run2 sched' (k e) q d'
    end
  | false :: sched' =>
    match q with
    | Return t2 => let '(d1, t1) := run [] p d in (d1, t1, t2)
    | Await w k => let '(d', e) := exec false w d in run2 sched' p (k e) d'
    end
  end.
(** The writes a call may come to issue, whatever the results handed to its
    continuations. *)
Inductive issues : proc -> Pg.write -> Prop :=
| issues_now (w : Pg.write) (k : option error -> proc) : issues (Await w k) w
| issues_later (w : Pg.write) (k : option error -> proc) (e : option error)
    (w' : Pg.write) :
    issues (k e) w' -> issues (Await w k) w'.

(** Two writes commute when serving them in either order leaves the same
    database and hands each the same result. *)
Definition commute (w1 w2 : Pg.write) : Prop :=
  forall d : Pg.db,
    fst (exec false w2 (fst (exec false w1 d)))
    = fst (exec false w1 (fst (exec false w2 d)))
    /\ snd (exec false w1 (fst (exec false w2 d))) = snd (exec false w1 d)
    /\ snd (exec false w2 (fst (exec false w1 d))) = snd (exec false w2 d).
End Js.

(** ** DriverDashboard *)

Module DriverDashboard.
(** A request as the dashboard holds it: the row, and the [profiles] object
    joined through [passenger_id] ([null] for a guest's request). *)
Record Request : Type := mkRequest
  { row : Requests.row;
    profiles : option string }.

(** The component state: [rides] and [requestsByRide], an object whose keys
    keep their insertion order. *)
Record state : Type := mk
  { rides : list Rides.row;
    requestsByRide : list (uuid * list Request) }.

Inductive decision : Type := approve | deny.

Definition join_profile (d : Pg.db) (q : Requests.row) : Request :=
  mkRequest q
    match Requests.passenger_id q with
    | None => None
    | Some u =>
      option_map Profiles.full_name
        (find (fun p => String.eqb (Profiles.id p) u) (Pg.profiles d))
    end.

Definition lookup (k : uuid) (o : list (uuid * list Request)) : option (list Request) :=
  option_map snd (find (fun kv => String.eqb (fst kv) k) o).

(** [if (!grouped[k]) grouped[k] = []; grouped[k].push(req)] *)
Fixpoint push (k : uuid) (req : Request) (o : list (uuid * list Request))
  : list (uuid * list Request) :=
  match o with
  | [] => [(k, [req])]
  | (k', v) :: o' =>
    if String.eqb k' k then (k', v ++ [req]) :: o'
    else (k', v) :: push k req o'
  end.

Definition group (requestsData : list Request) : list (uuid * list Request) :=
  fold_left (fun grouped req => push (Requests.ride_id (row req)) req grouped)
            requestsData [].

(** [fetchData]: the signed-in driver's future rides in departure order, and
    the requests against them grouped by ride.  Either query may come back
    with an error; with no rides the requests are left as they were. *)
Definition fetchData (user : option uuid) (now : timestamp)
    (ridesError requestsError : option Js.error) (d : Pg.db) (st : state)
  : state * option Js.toast :=
  match user with
  | None => (st, None)
  | Some user_id =>
    match ridesError with
    | Some e => (st, Some (Js.ToastError e))
    | None =>
      let ridesData :=
        Pg.order_by_departure
          (filter (fun r => Pg.option_uuid_eqb (Rides.driver_id r) (Some user_id)
                            && (now <? Rides.departure_time r))
                  (Pg.rides d)) in
      match ridesData with
      | [] => (mk ridesData (requestsByRide st), None)
      | _ :: _ =>
        match requestsError with
        | Some e => (mk ridesData (requestsByRide st), Some (Js.ToastError e))
        | None =>
          let rideIds := map Rides.id ridesData in
          let requestsData :=
            map (join_profile d)
                (filter (fun q => Pg.has_id (Requests.ride_id q) rideIds)
                        (Pg.requests d)) in
          (mk ridesData (group requestsData), None)
        end
      end
    end
  end.

(** [Object.values(requestsByRide).flat().find((r) => r.id === requestId)] *)
Definition found_request (st : state) (requestId : uuid) : option Request :=
  find (fun r => String.eqb (Requests.id (row r)) requestId)
       (List.concat (map snd (requestsByRide st))).

(** [rides.find((r) => r.id === rideId)] *)
Definition found_ride (st : state) (rideId : uuid) : option Rides.row :=
  find (fun r => String.eqb (Rides.id r) rideId) (rides st).

(** [handleRequestDecision], up to the closing [fetchData()] call, which is
    the separate operation above. *)
Definition handleRequestDecision (st : state) (requestId rideId : uuid)
    (decision : decision) : Js.proc :=
  match found_request st requestId, found_ride st rideId with
  | Some request, Some ride =>
    let greet :=
      fun t => match profiles request with
               | Some _ => Js.Return (Some t)
               | None => Js.Return (Some (Js.ToastError Js.TypeError))
               end in
    match decision with
    | approve =>
      if Requests.seats_requested (row request) <=? Rides.available_seats ride then
        Js.Await (Pg.UpdateRequestStatus requestId Requests.approved)
          (fun requestError =>
             match requestError with
             | Some e => Js.Return (Some (Js.ToastError e))
             | None =>
               Js.Await
                 (Pg.UpdateRideSeats rideId
                    (Rides.available_seats ride
                     - Requests.seats_requested (row request)))
                 (fun rideError =>
                    match rideError with
                    | Some e => Js.Return (Some (Js.ToastError e))
                    | None => greet Js.ToastRequestApproved
                    end)
             end)
      else
        Js.Await (Pg.UpdateRequestStatus requestId Requests.denied)
          (fun _ => Js.Return (Some Js.ToastNotEnoughSeats))
    | deny =>
      Js.Await (Pg.UpdateRequestStatus requestId Requests.denied)
        (fun error =>
           match error with
           | Some e => Js.Return (Some (Js.ToastError e))
           | None => greet Js.ToastRequestDenied
           end)
    end
  | _, _ => Js.Return None
  end.

(** The Approve/Deny buttons of the ride cards, as the [(req.id, ride.id)]
    pair each one passes to [handleRequestDecision]: one pair for every
    pending request held under a listed ride.  They are what is on screen
    when the render runs to its end ([render] below). *)
Definition decision_buttons (user : option uuid) (st : state) : list (uuid * uuid) :=
  match user with
  | None => []
  | Some _ =>
    flat_map
      (fun ride =>
         let requests :=
           match lookup (Rides.id ride) (requestsByRide st) with
           | Some l => l
           | None => []
           end in
         let pendingRequests :=
           filter (fun r => Requests.status_eqb (Requests.status (row r))
                                                Requests.pending)
                  requests in
         map (fun req => (Requests.id (row req), Rides.id ride)) pendingRequests)
      (rides st)
  end.
(** [.map((r) => r.profiles.full_name)]: reading [full_name] off a [null]
    [profiles] throws. *)
Fixpoint full_names (l : list Request) : Js.error + list string :=
  match l with
  | [] => inr []
  | r :: l' =>
    match profiles r with
    | None => inl Js.TypeError
    | Some name =>
      match full_names l' with
      | inl e => inl e
      | inr names => inr (name :: names)
      end
    end
  end.

(** The "Passengers:" line of one ride card:
    [requests.filter((r) => r.status === "approved")
       .map((r) => r.profiles.full_name).join(", ")], shown as "None yet"
    when empty. *)
Definition approvedPassengers (requests : list Request) : Js.error + string :=
  match full_names
          (filter (fun r => Requests.status_eqb (Requests.status (row r))
                                                Requests.approved)
                  requests) with
  | inl e => inl e
  | inr names =>
    let joined := String.concat ", " names in
    inr (if String.eqb joined "" then "None yet" else joined)
  end.

(** One ride card.  The callback of [rides.map] computes the "Passengers:"
    line before it returns the card, and the card shows
    [ride.cost_per_person.toFixed(2)], which throws on a [null] cost; the
    card then carries the buttons of the ride's pending requests. *)
Definition card (st : state) (ride : Rides.row) : Js.error + list (uuid * uuid) :=
  let requests :=
    match lookup (Rides.id ride) (requestsByRide st) with
    | Some l => l
    | None => []
    end in
  let pendingRequests :=
    filter (fun r => Requests.status_eqb (Requests.status (row r))
                                         Requests.pending)
           requests in
  match approvedPassengers requests with
  | inl e => inl e
  | inr _ =>
    match Rides.cost_per_person ride with
    | None => inl Js.TypeError
    | Some _ =>
      inr (map (fun req => (Requests.id (row req), Rides.id ride)) pendingRequests)
    end
  end.

Fixpoint cards (st : state) (l : list Rides.row) : Js.error + list (uuid * uuid) :=
  match l with
  | [] => inr []
  | ride :: l' =>
    match card st ride with
    | inl e => inl e
    | inr buttons =>
      match cards st l' with
      | inl e => inl e
      | inr rest => inr (buttons ++ rest)
      end
    end
  end.

(** What the component returns once loading is over: the buttons on screen,
    or the exception thrown while a card was built, which leaves nothing of
    the dashboard on screen.  Without a user or without rides there is a
    message and no card. *)
Definition render (user : option uuid) (st : state) : Js.error + list (uuid * uuid) :=
  match user with
  | None => inr []
  | Some _ => cards st (rides st)
  end.
End DriverDashboard.

(** ** OfferRide *)

Module OfferRide.
Definition AVG_MPG : Q := 25.
Definition PRICE_PER_GALLON : Q := 385 # 100.

Definition length (s : string) : Z := Z.of_nat (String.length s).

(** [Math.round]: the nearest integer, a half rounding up. *)
Definition Math_round (q : Q) : Z := Qfloor (q + (1 # 2))%Q.

(** A JavaScript division; a zero divisor gives a value that is not finite
    and is sent as [null]. *)
Definition js_div (a b : Q) : option Q :=
  if Qeq_bool b 0 then None else Some (a / b)%Q.

Definition mockDistance (origin destination : string) : Z :=
  (length origin + length destination) * 12.

Definition mockDurationMinutes (origin destination : string) : Z :=
  Math_round ((inject_Z (mockDistance origin destination) / 55) * 60)%Q.

Definition totalFuelCost (origin destination : string) : Q :=
  ((inject_Z (mockDistance origin destination) / AVG_MPG) * PRICE_PER_GALLON)%Q.

(** The quotient is taken exactly.  The double the code computes can
    differ from it in the last bits, which shows only where a price that
    lies on a half cent is rounded by the column. *)
Definition costPerPerson (origin destination : string) (seatsNum : Z) : option Q :=
  js_div (totalFuelCost origin destination) (inject_Z (seatsNum + 1)).

(** The object handed to [.insert] (the [id] is the database's). *)
Definition posting (new_id : uuid) (driver_id : option uuid)
    (origin destination : string) (departure : timestamp) (seatsNum : Z)
    (contact_email contact_name : option string) : Rides.row :=
  Rides.mk new_id driver_id origin destination departure
    (departure + mockDurationMinutes origin destination * 60000)
    seatsNum seatsNum (costPerPerson origin destination seatsNum)
    contact_email contact_name.

Definition insert (r : Rides.row) : Js.proc :=
  Js.Await (Pg.InsertRide r)
    (fun error =>
       match error with
       | Some e => Js.Return (Some (Js.ToastError e))
       | None => Js.Return (Some Js.ToastTripPosted)
       end).

(** [handleSubmit].  [datetime] is [new Date(datetime).getTime()], [None] for
    an invalid date (whose [toISOString()] throws); [seatsNum] is
    [parseInt(seats)] for a seats field that holds an integer, as the
    [required] number input of the form has it.  ([parseInt] of an empty
    field is [NaN], sent as [null]; a ride whose seat columns are NULL is
    not a [Rides.row], and that case is not covered.) *)
Definition handleSubmit (user : option uuid) (guestEmail guestName : string)
    (origin destination : string) (datetime : option timestamp) (seatsNum : Z)
    (new_id : uuid) : Js.proc :=
  match user with
  | None =>
    if String.eqb guestEmail "" then Js.Return (Some Js.ToastEmailRequired)
    else
      match datetime with
      | None => Js.Return (Some (Js.ToastError Js.RangeError))
      | Some departure =>
        insert (posting new_id None origin destination departure seatsNum
                  (Some guestEmail)
                  (if String.eqb guestName "" then None else Some guestName))
      end
  | Some user_id =>
    match datetime with
    | None => Js.Return (Some (Js.ToastError Js.RangeError))
    | Some departure =>
      insert (posting new_id (Some user_id) origin destination departure seatsNum
                None None)
    end
  end.
End OfferRide.

(** ** FindRide *)

Module FindRide.
(** [fetchRides]: the rides still to depart that have a seat left, in
    departure order; on an error the list is left as it was. *)
Definition fetchRides (now : timestamp) (error : option Js.error) (d : Pg.db)
    (rides : list Rides.row) : list Rides.row * option Js.toast :=
  match error with
  | Some e => (rides, Some (Js.ToastError e))
  | None =>
    (Pg.order_by_departure
       (filter (fun r => (now <? Rides.departure_time r)
                         && (0 <? Rides.available_seats r))
               (Pg.rides d)),
     None)
  end.

(** The rides the component lists under the two filters. *)
Definition shown (originFilter destinationFilter : string)
    (rides : list Rides.row) : list Rides.row :=
  filter (fun ride =>
            (String.eqb originFilter "All Locations"
             || String.eqb (Rides.origin ride) originFilter)
            && (String.eqb destinationFilter "All Locations"
                || String.eqb (Rides.destination ride) destinationFilter))
         rides.

Definition insert (ride_id : uuid) (passenger_id : option uuid)
    (seats : option Z) (contact_email contact_name : option string)
    (new_id : uuid) : Js.proc :=
  Js.Await (Pg.InsertRequest new_id ride_id passenger_id seats
              contact_email contact_name)
    (fun error =>
       match error with
       | Some e => Js.Return (Some (Js.ToastError e))
       | None => Js.Return (Some Js.ToastRequestSent)
       end).

(** [handleBooking].  [seatsToBook] is the state kept by
    [setSeatsToBook(parseInt(e.target.value))]: an integer, or [None] for the
    [NaN] of an emptied field, which is sent as [null]. *)
Definition handleBooking (selectedRide : option Rides.row) (user : option uuid)
    (guestEmail guestName : string) (seatsToBook : option Z) (new_id : uuid)
  : Js.proc :=
  match selectedRide with
  | None => Js.Return None
  | Some selectedRide =>
    match user with
    | None =>
      if String.eqb guestEmail "" then Js.Return (Some Js.ToastEmailRequired)
      else insert (Rides.id selectedRide) None seatsToBook (Some guestEmail)
                  (if String.eqb guestName "" then None else Some guestName)
                  new_id
    | Some user_id =>
      insert (Rides.id selectedRide) (Some user_id) seatsToBook None None new_id
    end
  end.
(** [Set.prototype.add]: a new value goes last, a value already there is
    left where it is. *)
Definition set_add (x : string) (s : list string) : list string :=
  if existsb (String.eqb x) s then s else s ++ [x].

(** The values offered by the two [Select]s: "All Locations", then the
    distinct non-empty origins (destinations) of the loaded rides in the
    order they first occur. *)
Definition locations (field : Rides.row -> string) (data : list Rides.row)
  : list string :=
  "All Locations"
  :: fold_left (fun s r => if String.eqb (field r) "" then s
                           else set_add (field r) s)
               data [].

Definition origins (data : list Rides.row) : list string :=
  locations Rides.origin data.

Definition destinations (data : list Rides.row) : list string :=
  locations Rides.destination data.
End FindRide.

(** ** The seat-inventory invariant *)

Module Inventory.
(** The seats of the approved requests against one ride. *)
Definition seats_if_approved (rideId : uuid) (q : Requests.row) : Z :=
  if String.eqb (Requests.ride_id q) rideId
     && Requests.status_eqb (Requests.status q) Requests.approved
  then Requests.seats_requested q else 0.

Definition approved_in (l : list Requests.row) (rideId : uuid) : Z :=
  fold_right (fun q acc => seats_if_approved rideId q + acc) 0 l.

Definition approved_seats (d : Pg.db) (rideId : uuid) : Z :=
  approved_in (Pg.requests d) rideId.

Definition balanced (d : Pg.db) (r : Rides.row) : Prop :=
  Rides.available_seats r = Rides.total_seats r - approved_seats d (Rides.id r).

Definition seats_invariant (d : Pg.db) : Prop :=
  forall r, In r (Pg.rides d) -> balanced d r.

Definition seats_invariantb (d : Pg.db) : bool :=
  forallb (fun r => Rides.available_seats r
                    =? Rides.total_seats r - approved_seats d (Rides.id r))
          (Pg.rides d).

(** What the schema guarantees of the stored rides and requests: the
    primary keys, the foreign keys, the CHECK constraints and
    [UNIQUE(ride_id, passenger_id)], under which NULLs are distinct. *)
Record consistent (d : Pg.db) : Prop := mk_consistent
  { rides_pkey : NoDup (map Rides.id (Pg.rides d));
    requests_pkey : NoDup (map Requests.id (Pg.requests d));
    requests_ride_id_fkey :
      forall q, In q (Pg.requests d) ->
                In (Requests.ride_id q) (map Rides.id (Pg.rides d));
    requests_seats_requested_check :
      forall q, In q (Pg.requests d) -> 0 < Requests.seats_requested q;
    rides_check :
      forall r, In r (Pg.rides d) -> Pg.rides_checks r = None;
    rides_driver_id_fkey :
      forall r u, In r (Pg.rides d) -> Rides.driver_id r = Some u ->
                  In u (map Profiles.id (Pg.profiles d));
    requests_passenger_id_fkey :
      forall q u, In q (Pg.requests d) -> Requests.passenger_id q = Some u ->
                  In u (map Profiles.id (Pg.profiles d));
    requests_ride_id_passenger_id_key :
      forall q1 q2 u, In q1 (Pg.requests d) -> In q2 (Pg.requests d) ->
                      Requests.ride_id q1 = Requests.ride_id q2 ->
                      Requests.passenger_id q1 = Some u ->
                      Requests.passenger_id q2 = Some u ->
                      Requests.id q1 = Requests.id q2 }.

(** [d'] is [d] with the status of request [requestId] set to [s] and every
    other request as it was. *)
Definition sets_status (requestId : uuid) (s : Requests.request_status)
    (d d' : Pg.db) : Prop :=
  (forall q, In q (Pg.requests d) -> Requests.id q = requestId ->
             In (Requests.with_status s q) (Pg.requests d'))
  /\ (forall q, In q (Pg.requests d') -> Requests.id q = requestId ->
                Requests.status q = s)
  /\ (forall q, Requests.id q <> requestId ->
                (In q (Pg.requests d') <-> In q (Pg.requests d))).

(** A stored ride is as [handleSubmit] estimated it. *)
Definition well_posted (origin destination : string) (seatsNum : Z)
    (ride : Rides.row) : Prop :=
  Rides.arrival_time ride
  = Rides.departure_time ride
    + OfferRide.mockDurationMinutes origin destination * 60000
  /\ Rides.departure_time ride <= Rides.arrival_time ride
  /\ Rides.total_seats ride = seatsNum
  /\ Rides.available_seats ride = seatsNum
  /\ exists c, Rides.cost_per_person ride = Some c /\ (0 <= c)%Q.

(** A posting never trips a CHECK constraint, and either stores nothing or
    shows "Trip posted!" and stores one ride, well posted. *)
Definition posts_well (origin destination : string) (seatsNum : Z)
    (d : Pg.db) (out : Pg.db * option Js.toast) : Prop :=
  (forall name,
      snd out <> Some (Js.ToastError (Js.PostgrestError (Pg.check_violation name))))
  /\ ((snd out = Some Js.ToastTripPosted
       /\ exists ride, Pg.rides (fst out) = Pg.rides d ++ [ride]
                       /\ well_posted origin destination seatsNum ride)
      \/ (snd out <> Some Js.ToastTripPosted /\ fst out = d)).

(** The databases the application arrives at when every decision is taken
    from a button of a dashboard that [fetchData] has just loaded, and the
    seat write of an approval, once issued, is not lost. *)
Inductive reachable : Pg.db -> Prop :=
| reach_start (ps : list Profiles.row) : reachable (Pg.mk ps [] [])
| reach_signup (d : Pg.db) (p : Profiles.row) :
    reachable d ->
    reachable (Pg.mk (Pg.profiles d ++ [p]) (Pg.rides d) (Pg.requests d))
| reach_handleSubmit (d : Pg.db) (user : option uuid)
    (guestEmail guestName origin destination : string)
    (datetime : option timestamp) (seatsNum : Z) (new_id : uuid) (net : list bool) :
    reachable d ->
    reachable
      (fst (Js.run net
              (OfferRide.handleSubmit user guestEmail guestName origin
                 destination datetime seatsNum new_id) d))
| reach_handleBooking (d : Pg.db) (selectedRide : option Rides.row)
    (user : option uuid) (guestEmail guestName : string)
    (seatsToBook : option Z) (new_id : uuid) (net : list bool) :
    reachable d ->
    reachable
      (fst (Js.run net
              (FindRide.handleBooking selectedRide user guestEmail guestName
                 seatsToBook new_id) d))
| reach_handleRequestDecision (d : Pg.db) (user : option uuid) (now : timestamp)
    (st0 : DriverDashboard.state) (requestId rideId : uuid)
    (decision : DriverDashboard.decision) (net : list bool) :
    reachable d ->
    In (requestId, rideId)
       (DriverDashboard.decision_buttons user
          (fst (DriverDashboard.fetchData user now None None d st0))) ->
    hd false (tl net) = false ->
    reachable
      (fst (Js.run net
              (DriverDashboard.handleRequestDecision
                 (fst (DriverDashboard.fetchData user now None None d st0))
                 requestId rideId decision) d)).

(** The calls the three components make, from any component state, current
    or stale. *)
Inductive call : Js.proc -> Prop :=
| call_handleSubmit (user : option uuid)
    (guestEmail guestName origin destination : string)
    (datetime : option timestamp) (seatsNum : Z) (new_id : uuid) :
    call (OfferRide.handleSubmit user guestEmail guestName origin destination
            datetime seatsNum new_id)
| call_handleBooking (selectedRide : option Rides.row) (user : option uuid)
    (guestEmail guestName : string) (seatsToBook : option Z) (new_id : uuid) :
    call (FindRide.handleBooking selectedRide user guestEmail guestName
            seatsToBook new_id)
| call_handleRequestDecision (st : DriverDashboard.state)
    (requestId rideId : uuid) (decision : DriverDashboard.decision) :
    call (DriverDashboard.handleRequestDecision st requestId rideId decision).

(** One more thing happening to the database: a sign-up, or one write of
    one call.  The calls may be in flight together, and the write may be
    lost. *)
Inductive step : Pg.db -> Pg.db -> Prop :=
| step_signup (d : Pg.db) (p : Profiles.row) :
    step d (Pg.mk (Pg.profiles d ++ [p]) (Pg.rides d) (Pg.requests d))
| step_write (d : Pg.db) (p : Js.proc) (w : Pg.write) (lost : bool) :
    call p -> Js.issues p w -> step d (fst (Js.exec lost w d)).

(** Any number of such steps, one after the other. *)
Inductive afterwards (d : Pg.db) : Pg.db -> Prop :=
| afterwards_now : afterwards d d
| afterwards_step (d1 d2 : Pg.db) :
    afterwards d d1 -> step d1 d2 -> afterwards d d2.

(** Request [requestId] is in the table, and no row with that id is
    pending. *)
Definition decided (requestId : uuid) (d : Pg.db) : Prop :=
  In requestId (map Requests.id (Pg.requests d))
  /\ forall q, In q (Pg.requests d) -> Requests.id q = requestId ->
               Requests.status q <> Requests.pending.
End Inventory.

(** ** A small database used in the examples *)

Module Scenario.
Definition dana : Profiles.row := Profiles.mk "d1" "Dana".
Definition paul : Profiles.row := Profiles.mk "p1" "Paul".
Definition pia : Profiles.row := Profiles.mk "p2" "Pia".

Definition nobody : Pg.db := Pg.mk [dana; paul; pia] [] [].

(** Dana's ride of three seats from Ithaca to Boston, as [handleSubmit]
    stores it: 157 minutes on the road, 5.54 a seat. *)
Definition ride1 : Rides.row :=
  Rides.mk "r1" (Some "d1") "Ithaca" "Boston" 1000 9421000 3 3
           (Some (554 # 100)%Q) None None.

Definition request (i p : uuid) (n : Z) (s : Requests.request_status) : Requests.row :=
  Requests.mk i "r1" (Some p) n s None None.

(** Paul and Pia have each asked for two seats. *)
Definition db0 : Pg.db :=
  Pg.mk [dana; paul; pia] [ride1]
        [request "q1" "p1" 2 Requests.pending;
         request "q2" "p2" 2 Requests.pending].

(** Dana's dashboard as loaded from [db0]. *)
Definition loaded1 : DriverDashboard.Request :=
  DriverDashboard.mkRequest (request "q1" "p1" 2 Requests.pending) (Some "Paul").
Definition loaded2 : DriverDashboard.Request :=
  DriverDashboard.mkRequest (request "q2" "p2" 2 Requests.pending) (Some "Pia").

Definition loaded : DriverDashboard.state :=
  DriverDashboard.mk [ride1] [("r1", [loaded1; loaded2])].

Definition approve1 : Js.proc :=
  DriverDashboard.handleRequestDecision loaded "q1" "r1" DriverDashboard.approve.
Definition approve2 : Js.proc :=
  DriverDashboard.handleRequestDecision loaded "q2" "r1" DriverDashboard.approve.
Definition deny1 : Js.proc :=
  DriverDashboard.handleRequestDecision loaded "q1" "r1" DriverDashboard.deny.

(** Paul's request approved, and the dashboard loaded again. *)
Definition db1 : Pg.db :=
  Pg.mk [dana; paul; pia] [Rides.with_available_seats 1 ride1]
        [request "q1" "p1" 2 Requests.approved;
         request "q2" "p2" 2 Requests.pending].

Definition reloaded : DriverDashboard.state :=
  DriverDashboard.mk [Rides.with_available_seats 1 ride1]
    [("r1", [DriverDashboard.mkRequest (request "q1" "p1" 2 Requests.approved)
               (Some "Paul");
             loaded2])].
(** A guest has asked for one seat on Dana's ride; a guest's request has no
    profile to join. *)
Definition guest_request : Requests.row :=
  Requests.mk "g1" "r1" None 1 Requests.pending (Some "g@x.org") None.

Definition db_guest : Pg.db := Pg.mk [dana; paul; pia] [ride1] [guest_request].

Definition loaded_guest : DriverDashboard.state :=
  DriverDashboard.mk [ride1]
    [("r1", [DriverDashboard.mkRequest guest_request None])].
(** Dana posts a second ride, and Paul asks for a seat on it. *)
Definition ride2 : Rides.row :=
  Rides.mk "r2" (Some "d1") "Ithaca" "Albany" 3000 9000000 2 2
           (Some (500 # 100)%Q) None None.

Definition db_two : Pg.db :=
  Pg.mk [dana; paul; pia] [ride1; ride2]
        [request "q1" "p1" 2 Requests.pending;
         Requests.mk "q9" "r2" (Some "p2") 1 Requests.pending None None].

Definition loaded_two : DriverDashboard.state :=
  DriverDashboard.mk [ride1; ride2]
    [("r1", [loaded1]);
     ("r2", [DriverDashboard.mkRequest
               (Requests.mk "q9" "r2" (Some "p2") 1 Requests.pending None None)
               (Some "Pia")])].
End Scenario.

(** ** The alias triggers of the guest-mode migration *)

Module Triggers.
(** The three seat columns of a [rides] row as the trigger sees them in
    [NEW]; [None] is NULL. *)
Record seats : Type := mk_seats
  { available_seats : option Z;
    seats_available : option Z;
    total_seats : option Z }.

Definition is_null {A : Type} (x : option A) : bool :=
  match x with None => true | Some _ => false end.

(** [rides_sync_seats_aliases], statement by statement. *)
Definition rides_sync_seats_aliases (NEW : seats) : seats :=
  let NEW :=
    if is_null (available_seats NEW) && negb (is_null (seats_available NEW))
    then mk_seats (seats_available NEW) (seats_available NEW) (total_seats NEW)
    else NEW in
  let NEW :=
    if is_null (seats_available NEW) && negb (is_null (available_seats NEW))
    then mk_seats (available_seats NEW) (available_seats NEW) (total_seats NEW)
    else NEW in
  let NEW :=
    if is_null (total_seats NEW) then
      if negb (is_null (available_seats NEW))
      then mk_seats (available_seats NEW) (seats_available NEW) (available_seats NEW)
      else if negb (is_null (seats_available NEW))
      then mk_seats (available_seats NEW) (seats_available NEW) (seats_available NEW)
      else NEW
    else NEW in
  let NEW :=
    if is_null (available_seats NEW) && negb (is_null (total_seats NEW))
    then mk_seats (total_seats NEW) (seats_available NEW) (total_seats NEW)
    else NEW in
  if is_null (seats_available NEW) && negb (is_null (total_seats NEW))
  then mk_seats (available_seats NEW) (total_seats NEW) (total_seats NEW)
  else NEW.

(** The four location columns. *)
Record locations : Type := mk_locations
  { origin : option string;
    destination : option string;
    start_location : option string;
    end_location : option string }.

(** [rides_sync_location_aliases], statement by statement. *)
Definition rides_sync_location_aliases (NEW : locations) : locations :=
  let NEW :=
    if is_null (origin NEW) && negb (is_null (start_location NEW))
    then mk_locations (start_location NEW) (destination NEW)
                      (start_location NEW) (end_location NEW)
    else NEW in
  let NEW :=
    if is_null (destination NEW) && negb (is_null (end_location NEW))
    then mk_locations (origin NEW) (end_location NEW)
                      (start_location NEW) (end_location NEW)
    else NEW in
  let NEW :=
    if is_null (start_location NEW) && negb (is_null (origin NEW))
    then mk_locations (origin NEW) (destination NEW)
                      (origin NEW) (end_location NEW)
    else NEW in
  if is_null (end_location NEW) && negb (is_null (destination NEW))
  then mk_locations (origin NEW) (destination NEW)
                    (start_location NEW) (destination NEW)
  else NEW.

(** A column is kept when it had a value. *)
Definition kept {A : Type} (old new : option A) : Prop :=
  old <> None -> new = old.
End Triggers.

(** ** Profile creation *)

Module Signup.
(** [CREATE TYPE user_role AS ENUM ('passenger', 'driver')] *)
Inductive user_role : Type := passenger | driver.

Record profile : Type := mk
  { id : uuid;
    full_name : string;
    role : user_role;
    phone : option string }.

Definition COALESCE {A : Type} (x : option A) (y : A) : A :=
  match x with Some v => v | None => y end.

(** [text::user_role]: a label of the enum, or an error. *)
Definition cast_role (t : string) : option user_role :=
  if String.eqb t "passenger" then Some passenger
  else if String.eqb t "driver" then Some driver
  else None.

Definition has_profile (i : uuid) (profiles : list profile) : bool :=
  existsb (fun p => String.eqb (id p) i) profiles.

(** [handle_new_user] of the first migration, run after the insert of user
    [new_id] whose metadata carries [role_text] and [name_text]: [None] when
    the trigger raises (the cast of an unknown role, or the primary key). *)
Definition handle_new_user_v1 (new_id : uuid) (role_text name_text : option string)
    (profiles : list profile) : option (list profile) :=
  match match role_text with
        | None => Some passenger
        | Some t => cast_role t
        end with
  | None => None
  | Some r =>
    if has_profile new_id profiles then None
    else Some (profiles ++ [mk new_id (COALESCE name_text "User") r None])
  end.

(** [handle_new_user] as replaced by the profile fix: the role is checked
    before the cast, a conflict is skipped, and [EXCEPTION WHEN OTHERS]
    turns any error into a warning, the profiles being left as they were.
    The trigger runs after the insert into [auth.users], so the foreign key
    of [profiles.id] holds for [new_id]. *)
Definition handle_new_user (new_id : uuid) (role_text name_text : option string)
    (profiles : list profile) : list profile :=
  match match role_text with
        | None => Some passenger
        | Some t =>
          if negb (String.eqb t "passenger" || String.eqb t "driver")
          then Some passenger
          else cast_role t
        end with
  | None => profiles
  | Some safe_role =>
    if has_profile new_id profiles then profiles
    else profiles ++ [mk new_id (COALESCE name_text "User") safe_role None]
  end.

(** [create_user_profile(user_id, full_name, user_role, phone_number)] called
    by [auth_uid] ([None] without a session) with arguments that are not
    NULL; [users] are the ids of [auth.users], which [profiles.id]
    references.  [None] when it raises.  The guard [auth.uid() != user_id] is
    NULL, hence not taken, when [auth.uid()] is NULL. *)
Definition create_user_profile (users : list uuid) (auth_uid : option uuid)
    (user_id : uuid) (name : string) (r : user_role)
    (phone_number : option string) (profiles : list profile)
  : option (list profile) :=
  if match auth_uid with
     | Some u => negb (String.eqb u user_id)
     | None => false
     end
  then None
  else if has_profile user_id profiles then
    Some (map (fun p => if String.eqb (id p) user_id
                        then mk (id p) name r
                               match phone_number with
                               | Some n => Some n
                               | None => phone p
                               end
                        else p)
              profiles)
  else if Pg.has_id user_id users
  then Some (profiles ++ [mk user_id name r phone_number])
  else None.
End Signup.

(** * Properties *)

(** ** The example database is one the application produces *)

Section ScenarioFacts.
Import Scenario.

Lemma db0_built :
  let posted :=
    fst (Js.run [] (OfferRide.handleSubmit (Some "d1") "" "" "Ithaca" "Boston"
                      (Some 1000) 3 "r1") nobody) in
  let booked :=
    fst (Js.run [] (FindRide.handleBooking (Some ride1) (Some "p1") "" ""
                      (Some 2) "q1")
           posted) in
  fst (Js.run [] (FindRide.handleBooking (Some ride1) (Some "p2") "" ""
                    (Some 2) "q2")
         booked) = db0.
Proof. vm_compute. reflexivity. Qed.



Lemma reloaded_fetched :
  DriverDashboard.fetchData (Some "d1") 0 None None db1 loaded = (reloaded, None).
Proof. vm_compute. reflexivity. Qed.
End ScenarioFacts.

(** ** Writes, one at a time *)

Section Writes.
Import Pg.

Lemma status_eqb_eq (a b : Requests.request_status) :
  Requests.status_eqb a b = true <-> a = b.
Proof. destruct a, b; simpl; split; congruence. Qed.

Lemma has_id_In (i : uuid) (ids : list uuid) : has_id i ids = true <-> In i ids.
Proof.
  unfold has_id. rewrite existsb_exists. split.
  - intros [x [Hx Heq]]. apply String.eqb_eq in Heq. now subst.
  - intros H. exists i. split; [assumption | apply String.eqb_refl].
Qed.

Lemma update_request_status_hit (i : uuid) (s : Requests.request_status) (d d' : db) :
  update_request_status i s d = inr d' ->
  forall q, In q (requests d) -> Requests.id q = i ->
            In (Requests.with_status s q) (requests d').
Proof.
  unfold update_request_status. intros H q Hq Hi. inversion H; subst; simpl.
  apply in_map_iff. exists q. unfold set_status. now rewrite String.eqb_refl.
Qed.

Lemma update_request_status_all (i : uuid) (s : Requests.request_status) (d d' : db) :
  update_request_status i s d = inr d' ->
  forall q, In q (requests d') -> Requests.id q = i -> Requests.status q = s.
Proof.
  unfold update_request_status. intros H q Hq Hi. inversion H; subst; simpl in *.
  apply in_map_iff in Hq. destruct Hq as [q0 [Hq0 _]]. unfold set_status in Hq0.
  destruct (String.eqb (Requests.id q0) (Requests.id q)) eqn:E; subst; simpl.
  - reflexivity.
  - now rewrite String.eqb_refl in E.
Qed.

Lemma update_request_status_miss (i : uuid) (s : Requests.request_status) (d d' : db) :
  update_request_status i s d = inr d' ->
  forall q, Requests.id q <> i -> (In q (requests d') <-> In q (requests d)).
Proof.
  unfold update_request_status. intros H q Hi. inversion H; subst; simpl.
  rewrite in_map_iff. unfold set_status. split.
  - intros [q0 [Hq0 Hin]].
    destruct (String.eqb (Requests.id q0) i) eqn:E; subst; [|assumption].
    apply String.eqb_eq in E. now destruct Hi.
  - intros Hin. exists q. apply String.eqb_neq in Hi. now rewrite Hi.
Qed.

End Writes.

(** ** Running a decision *)

Section Decisions.
Import DriverDashboard.

Lemma exec_status (lost : bool) (i : uuid) (s : Requests.request_status) (d : Pg.db) :
  Js.exec lost (Pg.UpdateRequestStatus i s) d
  = if lost then (d, Some Js.FetchError)
    else (Pg.mk (Pg.profiles d) (Pg.rides d)
            (map (Pg.set_status i s) (Pg.requests d)), None).
Proof. now destruct lost. Qed.

(** The deny path and the not-enough-seats path never write to [rides]. *)
Lemma deny_rides_unchanged (st : state) (requestId rideId : uuid)
    (net : list bool) (d : Pg.db) :
  Pg.rides (fst (Js.run net (handleRequestDecision st requestId rideId deny) d))
  = Pg.rides d.
Proof.
  unfold handleRequestDecision.
  destruct (found_request st requestId) as [request|]; [|reflexivity].
  destruct (found_ride st rideId) as [ride|]; [|reflexivity].
  cbn [Js.run]. rewrite exec_status.
  destruct (hd false net); simpl; [reflexivity|].
  now destruct (profiles request).
Qed.
End Decisions.

Section DecisionClaims.
Import DriverDashboard Inventory.

Lemma update_sets_status (i : uuid) (s : Requests.request_status) (d d' : Pg.db) :
  Pg.update_request_status i s d = inr d' -> sets_status i s d d'.
Proof.
  intros H. split; [|split].
  - eapply update_request_status_hit; eassumption.
  - eapply update_request_status_all; eassumption.
  - eapply update_request_status_miss; eassumption.
Qed.

(** C6. A deny decision on a request of the loaded dashboard, whose write
    reaches the database, leaves that request denied and touches no ride: the
    [rides] table (every field of every ride) and the [profiles] table are
    exactly as before, and so is every other request. *)
Theorem deny_sets_denied_and_keeps_rides
    (st : state) (requestId rideId : uuid) (net : list bool) (d : Pg.db)
    (request : Request) (ride : Rides.row) :
  found_request st requestId = Some request ->
  found_ride st rideId = Some ride ->
  hd false net = false ->
  let d' := fst (Js.run net (handleRequestDecision st requestId rideId deny) d) in
  Pg.rides d' = Pg.rides d
  /\ Pg.profiles d' = Pg.profiles d
  /\ sets_status requestId Requests.denied d d'.
Proof.
  intros Hreq Hride Hnet d'. subst d'.
  unfold handleRequestDecision. rewrite Hreq, Hride.
  cbn [Js.run]. rewrite exec_status, Hnet.
  set (d1 := Pg.mk _ _ _).
  assert (Hup : Pg.update_request_status requestId Requests.denied d = inr d1)
    by reflexivity.
  assert (Hrun : fst (Js.run (tl net)
                   (match profiles request with
                    | Some _ => Js.Return (Some Js.ToastRequestDenied)
                    | None => Js.Return (Some (Js.ToastError Js.TypeError))
                    end) d1) = d1) by now destruct (profiles request).
  cbn beta iota. rewrite Hrun.
  split; [reflexivity|]. split; [reflexivity|].
  now apply update_sets_status.
Qed.

Lemma deny_sets_denied_and_keeps_rides_witness :
  found_request Scenario.loaded "q1" = Some Scenario.loaded1
  /\ found_ride Scenario.loaded "r1" = Some Scenario.ride1
  /\ hd false [] = false
  /\ (let d' := fst (Js.run [] Scenario.deny1 Scenario.db0) in
      Pg.rides d' = Pg.rides Scenario.db0
      /\ Pg.profiles d' = Pg.profiles Scenario.db0
      /\ sets_status "q1" Requests.denied Scenario.db0 d').
Proof.
  refine (conj eq_refl (conj eq_refl (conj eq_refl _))).
  exact (deny_sets_denied_and_keeps_rides Scenario.loaded "q1" "r1" []
           Scenario.db0 Scenario.loaded1 Scenario.ride1 eq_refl eq_refl eq_refl).
Defined.

Lemma not_enough_seats_run (st : state) (requestId rideId : uuid)
    (net : list bool) (d : Pg.db) (request : Request) (ride : Rides.row) :
  found_request st requestId = Some request ->
  found_ride st rideId = Some ride ->
  Rides.available_seats ride < Requests.seats_requested (row request) ->
  Js.run net (handleRequestDecision st requestId rideId approve) d
  = (fst (Js.exec (hd false net) (Pg.UpdateRequestStatus requestId Requests.denied) d),
     Some Js.ToastNotEnoughSeats).
Proof.
  intros Hreq Hride Hlt. unfold handleRequestDecision. rewrite Hreq, Hride.
  apply Z.leb_gt in Hlt. rewrite Hlt. cbn [Js.run].
  now destruct (Js.exec _ _ d).
Qed.

(** *** The two writes of an approval *)

Lemma exec_seats_requests (lost : bool) (i : uuid) (n : Z) (d : Pg.db) :
  Pg.requests (fst (Js.exec lost (Pg.UpdateRideSeats i n) d)) = Pg.requests d.
Proof.
  unfold Js.exec. destruct lost; [reflexivity|]. simpl.
  unfold Pg.update_ride_seats. now destruct (Pg.first_violation _).
Qed.



(** The run of an approval with seats to spare, write by write. *)
Lemma enough_seats_run (st : state) (requestId rideId : uuid)
    (net : list bool) (d : Pg.db) (request : Request) (ride : Rides.row) :
  found_request st requestId = Some request ->
  found_ride st rideId = Some ride ->
  Requests.seats_requested (row request) <= Rides.available_seats ride ->
  let n := Rides.available_seats ride - Requests.seats_requested (row request) in
  let w1 := Js.exec (hd false net) (Pg.UpdateRequestStatus requestId Requests.approved) d in
  let w2 := Js.exec (hd false (tl net)) (Pg.UpdateRideSeats rideId n) (fst w1) in
  Js.run net (handleRequestDecision st requestId rideId approve) d
  = match snd w1 with
    | Some e => (fst w1, Some (Js.ToastError e))
    | None =>
      match snd w2 with
      | Some e => (fst w2, Some (Js.ToastError e))
      | None => (fst w2, Some match profiles request with
                              | Some _ => Js.ToastRequestApproved
                              | None => Js.ToastError Js.TypeError
                              end)
      end
    end.
Proof.
  intros Hreq Hride Hle n w1 w2. subst n w1 w2.
  unfold handleRequestDecision. rewrite Hreq, Hride.
  apply Z.leb_le in Hle. rewrite Hle. cbn [Js.run].
  destruct (Js.exec (hd false net) _ d) as [d1 [e1|]]; [reflexivity|].
  cbn [Js.run fst snd].
  destruct (Js.exec (hd false (tl net)) _ d1) as [d2 [e2|]]; [reflexivity|].
  cbn [fst snd]. now destruct (profiles request).
Qed.

Lemma enough_seats_sets_approved (st : state) (requestId rideId : uuid)
    (net : list bool) (d : Pg.db) (request : Request) (ride : Rides.row) :
  found_request st requestId = Some request ->
  found_ride st rideId = Some ride ->
  Requests.seats_requested (row request) <= Rides.available_seats ride ->
  hd false net = false ->
  sets_status requestId Requests.approved d
    (fst (Js.run net (handleRequestDecision st requestId rideId approve) d)).
Proof.
  intros Hreq Hride Hle Hnet.
  rewrite (enough_seats_run _ _ _ net d _ _ Hreq Hride Hle).
  rewrite exec_status, Hnet. cbn [fst snd].
  set (d1 := Pg.mk _ _ _).
  assert (Hup : Pg.update_request_status requestId Requests.approved d = inr d1)
    by reflexivity.
  pose proof (update_sets_status _ _ _ _ Hup) as Hs.
  match goal with
  | |- context [Js.exec ?l ?w d1] =>
    assert (Hr : Pg.requests (fst (Js.exec l w d1)) = Pg.requests d1)
      by apply exec_seats_requests;
    destruct (snd (Js.exec l w d1))
  end; cbn [fst]; unfold sets_status in *; now rewrite Hr.
Qed.

Lemma not_enough_seats_sets_denied (st : state) (requestId rideId : uuid)
    (net : list bool) (d : Pg.db) (request : Request) (ride : Rides.row) :
  found_request st requestId = Some request ->
  found_ride st rideId = Some ride ->
  Rides.available_seats ride < Requests.seats_requested (row request) ->
  hd false net = false ->
  sets_status requestId Requests.denied d
    (fst (Js.run net (handleRequestDecision st requestId rideId approve) d)).
Proof.
  intros Hreq Hride Hlt Hnet.
  rewrite (not_enough_seats_run _ _ _ _ _ _ _ Hreq Hride Hlt), Hnet.
  now apply update_sets_status.
Qed.



End DecisionClaims.

(** ** Status transitions *)

Section Transitions.
Import DriverDashboard Inventory.

(** Every button is for a request the dashboard holds as pending, under the
    ride the button names. *)
Lemma decision_buttons_pending (user : option uuid) (st : state)
    (requestId rideId : uuid) :
  In (requestId, rideId) (decision_buttons user st) ->
  exists ride requests request,
    In ride (rides st) /\ Rides.id ride = rideId
    /\ lookup rideId (requestsByRide st) = Some requests
    /\ In request requests
    /\ Requests.id (row request) = requestId
    /\ Requests.status (row request) = Requests.pending.
Proof.
  unfold decision_buttons. destruct user as [u|]; [|intros []].
  rewrite in_flat_map. intros [ride [Hride Hin]].
  apply in_map_iff in Hin. destruct Hin as [request [Heq Hin]].
  inversion Heq; subst. apply filter_In in Hin. destruct Hin as [Hin Hst].
  apply status_eqb_eq in Hst.
  destruct (lookup (Rides.id ride) (requestsByRide st)) as [requests|] eqn:E;
    [|destruct Hin].
  exists ride, requests, request. repeat split; assumption.
Qed.

Lemma with_status_same (q : Requests.row) :
  Requests.with_status (Requests.status q) q = q.
Proof. now destruct q. Qed.

Lemma update_status_same (i : uuid) (s : Requests.request_status)
    (l : list Requests.row) :
  (forall q, In q l -> Requests.id q = i -> Requests.status q = s) ->
  map (Pg.set_status i s) l = l.
Proof.
  induction l as [|q l IH]; intros H; [reflexivity|]. simpl.
  rewrite IH by (intros; apply H; [now right | assumption]).
  unfold Pg.set_status.
  destruct (String.eqb (Requests.id q) i) eqn:E; [|reflexivity].
  apply String.eqb_eq in E.
  rewrite <- (H q (or_introl eq_refl) E). now rewrite with_status_same.
Qed.

Lemma rides_checks_error (r : Rides.row) (e : Pg.pg_error) :
  Pg.rides_checks r = Some e -> exists name, e = Pg.check_violation name.
Proof.
  unfold Pg.rides_checks.
  repeat match goal with
         | |- (if ?b then _ else _) = _ -> _ =>
           destruct b; [intros [= <-]; eexists; reflexivity|]
         end.
  discriminate.
Qed.

Lemma first_violation_error (l : list Rides.row) (e : Pg.pg_error) :
  Pg.first_violation l = Some e -> exists name, e = Pg.check_violation name.
Proof.
  induction l as [|r l IH]; simpl; [discriminate|].
  destruct (Pg.rides_checks r) as [e'|] eqn:E; [|exact IH].
  intros [= <-]. exact (rides_checks_error _ _ E).
Qed.

Lemma exec_seats_postgrest (lost : bool) (i : uuid) (n : Z) (d : Pg.db)
    (e : Pg.pg_error) :
  snd (Js.exec lost (Pg.UpdateRideSeats i n) d) = Some (Js.PostgrestError e) ->
  exists name, e = Pg.check_violation name.
Proof.
  unfold Js.exec. destruct lost; [discriminate|]. cbn [Pg.apply_write].
  unfold Pg.update_ride_seats.
  destruct (Pg.first_violation _) as [e'|] eqn:E; [|discriminate].
  intros [= <-]. exact (first_violation_error _ _ E).
Qed.

Lemma deny_run (st : state) (requestId rideId : uuid) (net : list bool)
    (d : Pg.db) (request : Request) (ride : Rides.row) :
  found_request st requestId = Some request ->
  found_ride st rideId = Some ride ->
  Js.run net (handleRequestDecision st requestId rideId deny) d
  = if hd false net then (d, Some (Js.ToastError Js.FetchError))
    else (Pg.mk (Pg.profiles d) (Pg.rides d)
            (map (Pg.set_status requestId Requests.denied) (Pg.requests d)),
          Some match profiles request with
               | Some _ => Js.ToastRequestDenied
               | None => Js.ToastError Js.TypeError
               end).
Proof.
  intros Hreq Hride. unfold handleRequestDecision. rewrite Hreq, Hride.
  cbn [Js.run]. rewrite exec_status.
  destruct (hd false net); [reflexivity|]. cbn beta iota.
  now destruct (profiles request).
Qed.

(** C4 (as the code has it).  The status is guarded by the buttons alone:
    the dashboard renders Approve and Deny only for requests whose loaded
    status is pending.  [handleRequestDecision] itself never looks at the
    status.  Called for a request in any status, in the state or in the
    database, a decision whose status write arrives overwrites the status:
    approved when the loaded ride has the seats, denied otherwise and on a
    deny.  There is no invalid-transition failure: a deny ends in "Request
    denied" (or in the [TypeError] of a guest's request), an approve without
    seats in "Not enough seats", and the only database error a decision can
    report is a CHECK violation of the seat write of an approval.  A deny
    decision on a request that is already denied goes through a second time:
    the "Request denied" toast is shown again and the database is left
    exactly as it was. *)
Theorem status_guarded_by_buttons_only :
  (forall (user : option uuid) (st : state) (requestId rideId : uuid),
      In (requestId, rideId) (decision_buttons user st) ->
      exists ride requests request,
        In ride (rides st) /\ Rides.id ride = rideId
        /\ lookup rideId (requestsByRide st) = Some requests
        /\ In request requests
        /\ Requests.id (row request) = requestId
        /\ Requests.status (row request) = Requests.pending)
  /\ (forall (st : state) (requestId rideId : uuid) (decision : decision)
             (net : list bool) (d : Pg.db) (request : Request) (ride : Rides.row),
         found_request st requestId = Some request ->
         found_ride st rideId = Some ride ->
         hd false net = false ->
         let r := Js.run net (handleRequestDecision st requestId rideId decision) d in
         let enough :=
           Requests.seats_requested (row request) <=? Rides.available_seats ride in
         sets_status requestId
           (match decision with
            | approve => if enough then Requests.approved else Requests.denied
            | deny => Requests.denied
            end) d (fst r)
         /\ (decision = deny ->
             snd r = Some Js.ToastRequestDenied
             \/ snd r = Some (Js.ToastError Js.TypeError))
         /\ (decision = approve -> enough = false ->
             snd r = Some Js.ToastNotEnoughSeats))
  /\ (forall (st : state) (requestId rideId : uuid) (decision : decision)
             (net : list bool) (d : Pg.db) (e : Pg.pg_error),
         snd (Js.run net (handleRequestDecision st requestId rideId decision) d)
         = Some (Js.ToastError (Js.PostgrestError e)) ->
         decision = approve /\ exists name, e = Pg.check_violation name)
  /\ (forall (st : state) (requestId rideId : uuid) (net : list bool) (d : Pg.db)
             (request : Request) (ride : Rides.row) (name : string),
         found_request st requestId = Some request ->
         found_ride st rideId = Some ride ->
         profiles request = Some name ->
         hd false net = false ->
         (forall q, In q (Pg.requests d) -> Requests.id q = requestId ->
                    Requests.status q = Requests.denied) ->
         Js.run net (handleRequestDecision st requestId rideId deny) d
         = (d, Some Js.ToastRequestDenied)).
Proof.
  split; [exact decision_buttons_pending|]. split; [|split].
  - intros st requestId rideId decision net d request ride Hreq Hride Hnet r enough.
    subst r enough. destruct decision.
    + destruct (Requests.seats_requested (row request)
                <=? Rides.available_seats ride) eqn:E.
      * apply Z.leb_le in E. split; [|split; [discriminate | discriminate]].
        exact (enough_seats_sets_approved st requestId rideId net d request ride
                 Hreq Hride E Hnet).
      * apply Z.leb_gt in E. split; [|split; [discriminate|]].
        -- exact (not_enough_seats_sets_denied st requestId rideId net d request
                    ride Hreq Hride E Hnet).
        -- intros _ _.
           now rewrite (not_enough_seats_run st _ _ net d _ ride Hreq Hride E).
    + rewrite (deny_run st requestId rideId net d request ride Hreq Hride), Hnet.
      cbn [fst snd]. split; [|split; [|discriminate]].
      * now apply update_sets_status.
      * intros _. destruct (profiles request); [now left | now right].
  - intros st requestId rideId decision net d e.
    destruct (found_request st requestId) as [request|] eqn:Hreq;
      [|unfold handleRequestDecision; rewrite Hreq; discriminate].
    destruct (found_ride st rideId) as [ride|] eqn:Hride;
      [|unfold handleRequestDecision; rewrite Hreq, Hride; discriminate].
    destruct decision.
    + destruct (Z.le_gt_cases (Requests.seats_requested (row request))
                              (Rides.available_seats ride)) as [Hle|Hgt].
      * rewrite (enough_seats_run st _ _ net d _ ride Hreq Hride Hle).
        rewrite exec_status. destruct (hd false net); cbn [fst snd]; [discriminate|].
        match goal with
        | |- context [Js.exec ?l ?w ?d1] =>
          pose proof (exec_seats_postgrest l rideId
                        (Rides.available_seats ride
                         - Requests.seats_requested (row request)) d1) as Hx;
          destruct (snd (Js.exec l w d1)) as [x|]
        end; cbn [snd].
        -- intros [= ->]. split; [reflexivity|]. now apply Hx.
        -- destruct (profiles request); discriminate.
      * rewrite (not_enough_seats_run st _ _ net d _ ride Hreq Hride Hgt).
        discriminate.
    + rewrite (deny_run st requestId rideId net d request ride Hreq Hride).
      destruct (hd false net); cbn [snd]; [discriminate|].
      destruct (profiles request); discriminate.
  - intros st requestId rideId net d request ride name Hreq Hride Hname Hnet Hden.
    rewrite (deny_run st requestId rideId net d request ride Hreq Hride).
    rewrite Hnet, Hname, (update_status_same _ _ _ Hden). now destruct d.
Qed.

Lemma status_guarded_by_buttons_only_witness :
  In ("q1", "r1") (decision_buttons (Some "d1") Scenario.loaded)
  /\ Requests.status (row Scenario.loaded1) = Requests.pending
  /\ (let d := fst (Js.run [] Scenario.deny1 Scenario.db0) in
      map Requests.status (Pg.requests d) = [Requests.denied; Requests.pending]
      /\ Js.run [] Scenario.deny1 d = (d, Some Js.ToastRequestDenied)).
Proof.
  split; [vm_compute; left; reflexivity|].
  split; [reflexivity|]. split; [reflexivity|].
  apply (proj2 (proj2 (proj2 status_guarded_by_buttons_only)) Scenario.loaded
           "q1" "r1" [] _ Scenario.loaded1 Scenario.ride1 "Paul");
    try reflexivity.
  vm_compute. intros q [H|[H|[]]] Hid; subst q; [reflexivity | discriminate Hid].
Defined.

(** C4 does not hold as stated.  A second deny of Paul's request does not
    fail: it shows "Request denied" again.  And a decided request is not
    final: a deny issued from the dashboard as it was loaded before Paul's
    request had been approved turns that approved request into a denied one,
    the ride keeping the one seat the approval left; an approve issued from
    that dashboard after Paul's request had been denied turns the denied
    request into an approved one and takes its two seats. *)
Lemma decided_request_decided_again :
  (let d := fst (Js.run [] Scenario.deny1 Scenario.db0) in
   map Requests.status (Pg.requests d) = [Requests.denied; Requests.pending]
   /\ snd (Js.run [] Scenario.deny1 d) = Some Js.ToastRequestDenied)
  /\ (map Requests.status (Pg.requests Scenario.db1)
      = [Requests.approved; Requests.pending]
      /\ map Rides.available_seats (Pg.rides Scenario.db1) = [1]
      /\ let r := Js.run [] Scenario.deny1 Scenario.db1 in
         snd r = Some Js.ToastRequestDenied
         /\ map Requests.status (Pg.requests (fst r))
            = [Requests.denied; Requests.pending]
         /\ map Rides.available_seats (Pg.rides (fst r)) = [1])
  /\ (let d := fst (Js.run [] Scenario.deny1 Scenario.db0) in
      let r := Js.run [] Scenario.approve1 d in
      snd r = Some Js.ToastRequestApproved
      /\ map Requests.status (Pg.requests (fst r))
         = [Requests.approved; Requests.pending]
      /\ map Rides.available_seats (Pg.rides (fst r)) = [1]).
Proof. repeat split. Qed.
End Transitions.

(** ** The seat check *)

Section SeatCheck.
Import DriverDashboard Inventory.

Lemma In_insert_by_departure (r x : Rides.row) (l : list Rides.row) :
  In x (Pg.insert_by_departure r l) <-> x = r \/ In x l.
Proof.
  induction l as [|y l IH]; simpl.
  - intuition congruence.
  - destruct (Rides.departure_time r <=? Rides.departure_time y); simpl.
    + intuition congruence.
    + rewrite IH. intuition congruence.
Qed.

Lemma In_order_by_departure (x : Rides.row) (l : list Rides.row) :
  In x (Pg.order_by_departure l) <-> In x l.
Proof.
  unfold Pg.order_by_departure. induction l as [|y l IH]; simpl.
  - reflexivity.
  - rewrite In_insert_by_departure, IH. intuition congruence.
Qed.

(** The rides [fetchData] loads are rows of the database it read. *)
Lemma fetchData_rides (u : uuid) (now : timestamp) (re : option Js.error)
    (d : Pg.db) (st0 : state) (ride : Rides.row) :
  In ride (rides (fst (fetchData (Some u) now None re d st0))) ->
  In ride (Pg.rides d)
  /\ Rides.driver_id ride = Some u
  /\ now < Rides.departure_time ride.
Proof.
  unfold fetchData.
  set (l := Pg.order_by_departure _).
  assert (Hl : In ride l ->
               In ride (Pg.rides d) /\ Rides.driver_id ride = Some u
               /\ now < Rides.departure_time ride).
  { subst l. rewrite In_order_by_departure, filter_In.
    intros [Hin Hb]. apply andb_true_iff in Hb. destruct Hb as [Hd Ht].
    split; [assumption|]. split.
    - destruct (Rides.driver_id ride) as [v|]; simpl in Hd; [|discriminate].
      apply String.eqb_eq in Hd. now subst.
    - now apply Z.ltb_lt. }
  destruct l as [|x l']; [intros []|].
  destruct re; simpl; exact Hl.
Qed.

(** C7 (as the code has it).  The seat check of an approval reads the ride
    out of the dashboard's loaded data.  That ride is a row of the database
    as [fetchData] last read it, so its [available_seats] is the value at the
    last load and not one kept from the time the request was created; the
    decision then taken against any database, the one loaded from or a later
    one, is approved exactly when the request's seats fit into that loaded
    value. *)
Theorem seat_check_reads_loaded_ride
    (u : uuid) (now : timestamp) (d : Pg.db) (st0 : state)
    (requestId rideId : uuid) (request : Request) (ride : Rides.row)
    (net : list bool) (later : Pg.db) :
  let st := fst (fetchData (Some u) now None None d st0) in
  found_request st requestId = Some request ->
  found_ride st rideId = Some ride ->
  hd false net = false ->
  In ride (Pg.rides d)
  /\ Rides.id ride = rideId
  /\ sets_status requestId
       (if Requests.seats_requested (row request) <=? Rides.available_seats ride
        then Requests.approved else Requests.denied)
       later
       (fst (Js.run net (handleRequestDecision st requestId rideId approve) later)).
Proof.
  intros st Hreq Hride Hnet.
  pose proof (find_some _ _ Hride) as [Hin Hid].
  apply String.eqb_eq in Hid.
  split; [exact (proj1 (fetchData_rides _ _ _ _ _ _ Hin))|].
  split; [assumption|].
  destruct (Requests.seats_requested (row request) <=? Rides.available_seats ride)
    eqn:E.
  - apply Z.leb_le in E.
    now apply (enough_seats_sets_approved st requestId rideId net later request ride).
  - apply Z.leb_gt in E.
    now apply (not_enough_seats_sets_denied st requestId rideId net later request ride).
Qed.
Lemma seat_check_reads_loaded_ride_witness :
  found_request Scenario.loaded "q2" = Some Scenario.loaded2
  /\ found_ride Scenario.loaded "r1" = Some Scenario.ride1
  /\ hd false [] = false
  /\ In Scenario.ride1 (Pg.rides Scenario.db0)
  /\ sets_status "q2" Requests.approved Scenario.db1
       (fst (Js.run [] Scenario.approve2 Scenario.db1)).
Proof.
  refine (conj eq_refl (conj eq_refl (conj eq_refl _))).
  pose proof (seat_check_reads_loaded_ride "d1" 0 Scenario.db0
                (DriverDashboard.mk [] []) "q2" "r1" Scenario.loaded2
                Scenario.ride1 [] Scenario.db1 eq_refl eq_refl eq_refl) as H.
  exact (conj (proj1 H) (proj2 (proj2 H))).
Defined.

(** C7 does not hold as stated.  After Paul's two seats were approved the
    ride has one seat left in the database; the dashboard loaded before that
    still holds three, and an approval of Pia's two seats issued from it goes
    through. *)
Lemma seat_check_misses_later_approval :
  map Rides.available_seats (Pg.rides Scenario.db1) = [1]
  /\ map Rides.available_seats (rides Scenario.loaded) = [3]
  /\ Requests.seats_requested (row Scenario.loaded2) = 2
  /\ (let r := Js.run [] Scenario.approve2 Scenario.db1 in
      snd r = Some Js.ToastRequestApproved
      /\ map Requests.status (Pg.requests (fst r))
         = [Requests.approved; Requests.approved]).
Proof. repeat split. Qed.

(** *** Two approvals in flight *)

(** C3, on the code.  Three seats, two pending requests of two seats each,
    both approvals clicked on the same loaded dashboard: whatever the order
    in which the four writes are served, both requests end approved, both
    calls show "Request approved!", and the ride is left with one seat, four
    seats being approved out of three. *)
Theorem concurrent_approvals_both_succeed (sched : list bool) :
  let r := Js.run2 sched Scenario.approve1 Scenario.approve2 Scenario.db0 in
  map Rides.available_seats (Pg.rides Scenario.db0) = [3]
  /\ snd (fst r) = Some Js.ToastRequestApproved
  /\ snd r = Some Js.ToastRequestApproved
  /\ map Requests.status (Pg.requests (fst (fst r)))
     = [Requests.approved; Requests.approved]
  /\ map Rides.available_seats (Pg.rides (fst (fst r))) = [1]
  /\ approved_seats (fst (fst r)) "r1" = 4.
Proof.
  destruct sched as [|[|] [|[|] [|[|] [|[|] [|[|] sched]]]]];
    vm_compute; intuition reflexivity.
Qed.
End SeatCheck.

(** ** Listing the open rides *)

Section Listing.
Import FindRide.

Lemma insert_by_departure_perm (r : Rides.row) (l : list Rides.row) :
  Permutation (Pg.insert_by_departure r l) (r :: l).
Proof.
  induction l as [|x l IH]; simpl.
  - apply Permutation_refl.
  - destruct (Rides.departure_time r <=? Rides.departure_time x).
    + apply Permutation_refl.
    + apply perm_trans with (x :: r :: l).
      * now apply perm_skip.
      * apply perm_swap.
Qed.

Lemma order_by_departure_perm (l : list Rides.row) :
  Permutation (Pg.order_by_departure l) l.
Proof.
  unfold Pg.order_by_departure. induction l as [|x l IH]; simpl.
  - apply perm_nil.
  - apply perm_trans with (x :: fold_right Pg.insert_by_departure [] l).
    + apply insert_by_departure_perm.
    + now apply perm_skip.
Qed.

Lemma insert_by_departure_sorted (r : Rides.row) (l : list Rides.row) :
  StronglySorted Pg.departs_before l ->
  StronglySorted Pg.departs_before (Pg.insert_by_departure r l).
Proof.
  induction 1 as [|x l Hl IH Hx]; simpl.
  - constructor; constructor.
  - destruct (Rides.departure_time r <=? Rides.departure_time x) eqn:E.
    + apply Z.leb_le in E. constructor.
      * now constructor.
      * constructor; [exact E|].
        eapply Forall_impl; [|exact Hx].
        unfold Pg.departs_before. intros y Hy. lia.
    + apply Z.leb_gt in E. constructor; [exact IH|].
      apply Forall_forall. intros y Hy.
      apply In_insert_by_departure in Hy. destruct Hy as [->|Hy].
      * unfold Pg.departs_before. lia.
      * rewrite Forall_forall in Hx. now apply Hx.
Qed.

Lemma order_by_departure_sorted (l : list Rides.row) :
  StronglySorted Pg.departs_before (Pg.order_by_departure l).
Proof.
  unfold Pg.order_by_departure. induction l as [|x l IH]; simpl.
  - constructor.
  - now apply insert_by_departure_sorted.
Qed.

Lemma filter_sorted (f : Rides.row -> bool) (l : list Rides.row) :
  StronglySorted Pg.departs_before l ->
  StronglySorted Pg.departs_before (filter f l).
Proof.
  induction 1 as [|x l Hl IH Hx]; simpl; [constructor|].
  destruct (f x); [|exact IH].
  constructor; [exact IH|].
  rewrite Forall_forall in *. intros y Hy.
  apply filter_In in Hy. apply Hx. tauto.
Qed.

(** C9. [fetchRides] loads exactly the rides of the table that have a seat
    left and depart after now, each once, earliest departure first.  Under
    an origin or destination filter other than "All Locations" the list
    shown keeps exactly the loaded rides whose origin or destination equals
    the filter, still in departure order. *)
Theorem open_rides_listed_in_departure_order
    (now : timestamp) (d : Pg.db) (old : list Rides.row)
    (originFilter destinationFilter : string) :
  let open := fun r => (now <? Rides.departure_time r)
                       && (0 <? Rides.available_seats r) in
  let rides := fst (fetchRides now None d old) in
  (forall r, In r rides <->
             In r (Pg.rides d) /\ 0 < Rides.available_seats r
             /\ now < Rides.departure_time r)
  /\ Permutation rides (filter open (Pg.rides d))
  /\ StronglySorted Pg.departs_before rides
  /\ (forall r, In r (shown originFilter destinationFilter rides) <->
                In r rides
                /\ (originFilter = "All Locations" \/ Rides.origin r = originFilter)
                /\ (destinationFilter = "All Locations"
                    \/ Rides.destination r = destinationFilter))
  /\ StronglySorted Pg.departs_before (shown originFilter destinationFilter rides).
Proof.
  intros open rides. subst rides. simpl.
  split; [|split; [|split; [|split]]].
  - intros r. rewrite In_order_by_departure, filter_In, andb_true_iff.
    rewrite Z.ltb_lt, Z.ltb_lt. tauto.
  - apply order_by_departure_perm.
  - apply order_by_departure_sorted.
  - intros r. unfold shown.
    rewrite filter_In, andb_true_iff, !orb_true_iff, !String.eqb_eq. tauto.
  - apply filter_sorted, order_by_departure_sorted.
Qed.
End Listing.

(** ** Posting a ride *)

Section Posting.
Import OfferRide.
#[local] Open Scope Q_scope.

Lemma length_nonneg (s : string) : (0 <= length s)%Z.
Proof. unfold length. lia. Qed.

Lemma mockDistance_nonneg (origin destination : string) :
  (0 <= mockDistance origin destination)%Z.
Proof.
  unfold mockDistance.
  pose proof (length_nonneg origin). pose proof (length_nonneg destination). lia.
Qed.

Lemma inject_Z_nonneg (z : Z) : (0 <= z)%Z -> 0 <= inject_Z z.
Proof. intros H. unfold Qle. simpl. lia. Qed.

Lemma Qdiv_nonneg (a b : Q) : 0 <= a -> 0 <= b -> 0 <= a / b.
Proof.
  intros Ha Hb. unfold Qdiv. apply Qmult_le_0_compat; [assumption|].
  now apply Qinv_le_0_compat.
Qed.

Lemma Math_round_nonneg (q : Q) : 0 <= q -> (0 <= Math_round q)%Z.
Proof.
  intros H. unfold Math_round.
  change 0%Z with (Qfloor 0). apply Qfloor_resp_le.
  apply Qle_trans with q; [assumption|].
  rewrite <- (Qplus_0_r q) at 1. apply Qplus_le_compat; [apply Qle_refl|].
  discriminate.
Qed.

Lemma mockDurationMinutes_nonneg (origin destination : string) :
  (0 <= mockDurationMinutes origin destination)%Z.
Proof.
  unfold mockDurationMinutes. apply Math_round_nonneg.
  apply Qmult_le_0_compat; [|discriminate].
  apply Qdiv_nonneg; [|discriminate].
  apply inject_Z_nonneg, mockDistance_nonneg.
Qed.

Lemma totalFuelCost_nonneg (origin destination : string) :
  0 <= totalFuelCost origin destination.
Proof.
  unfold totalFuelCost. apply Qmult_le_0_compat; [|discriminate].
  apply Qdiv_nonneg; [|discriminate].
  apply inject_Z_nonneg, mockDistance_nonneg.
Qed.

Lemma costPerPerson_quotient (origin destination : string) (seatsNum : Z) :
  (1 <= seatsNum)%Z ->
  costPerPerson origin destination seatsNum
  = Some (totalFuelCost origin destination / inject_Z (seatsNum + 1))
  /\ 0 < inject_Z (seatsNum + 1)
  /\ 0 <= totalFuelCost origin destination / inject_Z (seatsNum + 1).
Proof.
  intros H.
  assert (Hpos : 0 < inject_Z (seatsNum + 1)) by (unfold Qlt; simpl; lia).
  split; [|split; [assumption|]].
  - unfold costPerPerson, js_div.
    destruct (Qeq_bool (inject_Z (seatsNum + 1)) 0) eqn:E; [|reflexivity].
    apply Qeq_bool_iff in E. rewrite E in Hpos. now apply Qlt_irrefl in Hpos.
  - apply Qdiv_nonneg; [apply totalFuelCost_nonneg | now apply Qlt_le_weak].
Qed.

Lemma cents_nonneg (c : Q) : 0 <= c -> (0 <= Pg.cents c)%Z.
Proof.
  intros Hc. unfold Pg.cents, Pg.round_half_away.
  assert (H100 : 0 <= c * 100) by (apply Qmult_le_0_compat; [assumption | discriminate]).
  apply Qle_bool_iff in H100 as Hb. rewrite Hb.
  exact (Math_round_nonneg (c * 100) H100).
Qed.

Lemma decimal_10_2_nonneg (c c' : Q) :
  0 <= c -> Pg.decimal_10_2 c = Some c' -> 0 <= c'.
Proof.
  intros Hc. pose proof (cents_nonneg c Hc) as Hz. revert Hz.
  unfold Pg.decimal_10_2. generalize (Pg.cents c). intros z Hz.
  destruct (Z.abs z <? 10 ^ 10)%Z; [|discriminate].
  intros H. assert (Hc' : c' = z # 100) by congruence. subst c'.
  unfold Qle. simpl. lia.
Qed.

(** What [INSERT INTO rides] makes of a posting: no CHECK constraint can
    reject it, and the row stored has the seats asked for and a cost that is
    present and not negative. *)
Lemma insert_posting (r : Rides.row) (c : Q) (d : Pg.db) :
  (1 <= Rides.total_seats r)%Z ->
  Rides.available_seats r = Rides.total_seats r ->
  Rides.cost_per_person r = Some c ->
  0 <= c ->
  match Pg.insert_ride r d with
  | inl (Pg.check_violation _) => False
  | inl _ => True
  | inr d' =>
    exists c', 0 <= c'
               /\ Pg.rides d' = Pg.rides d ++ [Rides.with_cost_per_person (Some c') r]
  end.
Proof.
  intros Hseats Havail Hcost Hc. unfold Pg.insert_ride. rewrite Hcost.
  destruct (Pg.int4 (Rides.total_seats r) && Pg.int4 (Rides.available_seats r));
    [|exact I].
  destruct (Pg.decimal_10_2 c) as [c'|] eqn:E; simpl; [|exact I].
  pose proof (decimal_10_2_nonneg _ _ Hc E) as Hc'.
  unfold Pg.rides_checks. simpl. rewrite Havail.
  replace (0 <? Rides.total_seats r)%Z with true by (symmetry; apply Z.ltb_lt; lia).
  replace (0 <=? Rides.total_seats r)%Z with true by (symmetry; apply Z.leb_le; lia).
  apply Qle_bool_iff in Hc' as Hb. rewrite Hb, Z.leb_refl. simpl.
  destruct (Pg.has_id _ _); [exact I|].
  destruct (Pg.fk_profile _ _); simpl; [|exact I].
  exists c'. split; [assumption | reflexivity].
Qed.
Lemma insert_run (r : Rides.row) (c : Q) (net : list bool) (d : Pg.db) :
  (1 <= Rides.total_seats r)%Z ->
  Rides.available_seats r = Rides.total_seats r ->
  Rides.cost_per_person r = Some c ->
  0 <= c ->
  let out := Js.run net (insert r) d in
  (forall name,
      snd out <> Some (Js.ToastError (Js.PostgrestError (Pg.check_violation name))))
  /\ ((snd out = Some Js.ToastTripPosted
       /\ exists c', 0 <= c'
            /\ Pg.rides (fst out)
               = Pg.rides d ++ [Rides.with_cost_per_person (Some c') r])
      \/ (snd out <> Some Js.ToastTripPosted /\ fst out = d)).
Proof.
  intros Hseats Havail Hcost Hc out. subst out.
  pose proof (insert_posting r c d Hseats Havail Hcost Hc) as Hins.
  unfold insert. cbn [Js.run]. unfold Js.exec.
  destruct (hd false net).
  - simpl. split; [discriminate|]. right. split; [discriminate | reflexivity].
  - cbn [Pg.apply_write]. destruct (Pg.insert_ride r d) as [e|d'].
    + simpl. split.
      * intros name H. injection H as H. now rewrite H in Hins.
      * right. split; [discriminate | reflexivity].
    + simpl. split; [discriminate|]. left. split; [reflexivity | exact Hins].
Qed.

(** C10. Whoever posts, signed in or as a guest, with a seat count of at
    least one: the estimated duration is not negative and the cost per
    person is the quotient of a fuel cost that is not negative by a positive
    head count; no CHECK constraint of [rides] can reject the insert; and the
    call either stores nothing, or shows "Trip posted!" and stores one new
    ride whose arrival is its departure plus the duration (so not before the
    departure), whose total and available seats are the count asked for, and
    whose cost is present and not negative. *)
Theorem posted_ride_passes_every_check
    (user : option uuid) (guestEmail guestName origin destination : string)
    (datetime : option timestamp) (seatsNum : Z) (new_id : uuid)
    (net : list bool) (d : Pg.db) :
  (1 <= seatsNum)%Z ->
  (0 <= mockDurationMinutes origin destination)%Z
  /\ costPerPerson origin destination seatsNum
     = Some (totalFuelCost origin destination / inject_Z (seatsNum + 1))
  /\ 0 <= totalFuelCost origin destination
  /\ 0 < inject_Z (seatsNum + 1)
  /\ Inventory.posts_well origin destination seatsNum d
       (Js.run net (handleSubmit user guestEmail guestName origin destination
                      datetime seatsNum new_id) d).
Proof.
  intros Hseats.
  pose proof (mockDurationMinutes_nonneg origin destination) as Hdur.
  destruct (costPerPerson_quotient origin destination seatsNum Hseats)
    as [Hcost [Hpos Hnonneg]].
  split; [assumption|]. split; [assumption|].
  split; [apply totalFuelCost_nonneg|]. split; [assumption|].
  assert (Hins : forall driver departure email name,
             Inventory.posts_well origin destination seatsNum d
               (Js.run net
                  (insert (posting new_id driver origin destination departure
                             seatsNum email name)) d)).
  { intros driver departure email name.
    destruct (insert_run (posting new_id driver origin destination departure
                            seatsNum email name) _ net d Hseats eq_refl Hcost Hnonneg)
      as [Hcheck [[Hposted [c' [Hc' Hrides]]] | Hnot]].
    - split; [exact Hcheck|]. left. split; [exact Hposted|].
      eexists. split; [exact Hrides|].
      unfold Inventory.well_posted. simpl.
      repeat split; try lia. exists c'. now split.
    - split; [exact Hcheck|]. now right. }
  assert (Hnone : forall t,
             t <> Some Js.ToastTripPosted ->
             (forall name, t <> Some (Js.ToastError
                                        (Js.PostgrestError (Pg.check_violation name)))) ->
             Inventory.posts_well origin destination seatsNum d
               (Js.run net (Js.Return t) d)).
  { intros t Ht Hchk. split; [exact Hchk|]. right. now split. }
  unfold handleSubmit.
  destruct user as [user_id|].
  - destruct datetime as [departure|]; [apply Hins|].
    apply Hnone; [discriminate | intros; discriminate].
  - destruct (String.eqb guestEmail "")%string.
    + apply Hnone; [discriminate | intros; discriminate].
    + destruct datetime as [departure|]; [apply Hins|].
      apply Hnone; [discriminate | intros; discriminate].
Qed.

Lemma posted_ride_passes_every_check_witness :
  (1 <= 3)%Z
  /\ (let out :=
        Js.run [] (handleSubmit (Some "d1"%string) "" "" "Ithaca" "Boston"
                     (Some 1000%Z) 3 "r1"%string) Scenario.nobody in
      snd out = Some Js.ToastTripPosted
      /\ Pg.rides (fst out) = [Scenario.ride1]
      /\ Inventory.posts_well "Ithaca" "Boston" 3 Scenario.nobody out).
Proof.
  assert (H13 : (1 <= 3)%Z) by (intro H; discriminate H).
  split; [exact H13|].
  split; [vm_compute; reflexivity|]. split; [vm_compute; reflexivity|].
  exact (proj2 (proj2 (proj2 (proj2
           (posted_ride_passes_every_check (Some "d1"%string) "" "" "Ithaca"
              "Boston" (Some 1000%Z) 3 "r1"%string [] Scenario.nobody H13))))).
Defined.
End Posting.

(** ** Booking *)

Section Booking.
Import FindRide.

Lemma has_id_false (i : uuid) (ids : list uuid) : ~ In i ids -> Pg.has_id i ids = false.
Proof.
  intros H. destruct (Pg.has_id i ids) eqn:E; [|reflexivity].
  apply has_id_In in E. contradiction.
Qed.

(** [UNIQUE (ride_id, passenger_id)] never matches a row against a NULL
    [passenger_id]. *)
Lemma guest_never_duplicate (ride_id : uuid) (l : list Requests.row) :
  existsb (fun q' => String.eqb (Requests.ride_id q') ride_id
                     && Pg.option_uuid_eqb (Requests.passenger_id q') None) l
  = false.
Proof.
  induction l as [|q l IH]; [reflexivity|]. simpl. rewrite IH.
  destruct (Requests.passenger_id q); simpl; now rewrite andb_false_r.
Qed.

Lemma registered_duplicate (ride_id u : uuid) (l : list Requests.row) (q : Requests.row) :
  In q l -> Requests.ride_id q = ride_id -> Requests.passenger_id q = Some u ->
  existsb (fun q' => String.eqb (Requests.ride_id q') ride_id
                     && Pg.option_uuid_eqb (Requests.passenger_id q') (Some u)) l
  = true.
Proof.
  intros Hin Hride Hpass. apply existsb_exists. exists q.
  split; [assumption|]. rewrite Hride, Hpass. simpl.
  now rewrite !String.eqb_refl.
Qed.

Lemma int4_true (n : Z) : 0 < n < 2147483648 -> Pg.int4 n = true.
Proof.
  intros H. unfold Pg.int4. apply andb_true_iff.
  split; [apply Z.leb_le | apply Z.ltb_lt]; lia.
Qed.

(** C8. A signed-in passenger who already has a request against the ride
    gets the insert refused by the [(ride_id, passenger_id)] uniqueness
    constraint: the error toast is shown and no table changes.  A guest's
    request carries no [passenger_id] and is never refused on that ground:
    against an existing ride it is stored as a new pending request whatever
    requests, of guests or of anyone else, the ride already has.  The seat
    count is one the [INTEGER] column takes, and positive. *)
Theorem one_request_per_registered_passenger :
  (forall (selectedRide : Rides.row) (u : uuid) (guestEmail guestName : string)
          (seats : Z) (new_id : uuid) (net : list bool) (d : Pg.db)
          (q : Requests.row),
      0 < seats < 2147483648 ->
      ~ In new_id (map Requests.id (Pg.requests d)) ->
      hd false net = false ->
      In q (Pg.requests d) ->
      Requests.ride_id q = Rides.id selectedRide ->
      Requests.passenger_id q = Some u ->
      Js.run net (handleBooking (Some selectedRide) (Some u) guestEmail guestName
                    (Some seats) new_id) d
      = (d, Some (Js.ToastError
                    (Js.PostgrestError
                       (Pg.unique_violation "requests_ride_id_passenger_id_key")))))
  /\ (forall (selectedRide : Rides.row) (guestEmail guestName : string)
             (seats : Z) (new_id : uuid) (net : list bool) (d : Pg.db),
         guestEmail <> "" ->
         0 < seats < 2147483648 ->
         ~ In new_id (map Requests.id (Pg.requests d)) ->
         In (Rides.id selectedRide) (map Rides.id (Pg.rides d)) ->
         hd false net = false ->
         Js.run net (handleBooking (Some selectedRide) None guestEmail guestName
                       (Some seats) new_id) d
         = (Pg.mk (Pg.profiles d) (Pg.rides d)
              (Pg.requests d
               ++ [Requests.mk new_id (Rides.id selectedRide) None seats
                     Requests.pending (Some guestEmail)
                     (if String.eqb guestName "" then None else Some guestName)]),
            Some Js.ToastRequestSent)).
Proof.
  split.
  - intros selectedRide u guestEmail guestName seats new_id net d q
           Hseats Hnew Hnet Hin Hride Hpass.
    unfold handleBooking, insert. cbn [Js.run]. unfold Js.exec. rewrite Hnet.
    cbn [Pg.apply_write]. unfold Pg.insert_request.
    rewrite (int4_true _ Hseats).
    destruct Hseats as [Hseats _].
    apply Z.ltb_lt in Hseats. rewrite Hseats. cbn [negb].
    rewrite (has_id_false _ _ Hnew).
    now rewrite (registered_duplicate _ _ _ _ Hin Hride Hpass).
  - intros selectedRide guestEmail guestName seats new_id net d
           Hemail Hseats Hnew Hride Hnet.
    unfold handleBooking, insert.
    apply String.eqb_neq in Hemail. rewrite Hemail.
    cbn [Js.run]. unfold Js.exec. rewrite Hnet.
    cbn [Pg.apply_write]. unfold Pg.insert_request.
    rewrite (int4_true _ Hseats).
    destruct Hseats as [Hseats _].
    apply Z.ltb_lt in Hseats. rewrite Hseats. cbn [negb].
    rewrite (has_id_false _ _ Hnew), guest_never_duplicate.
    apply has_id_In in Hride. rewrite Hride. reflexivity.
Qed.

Lemma one_request_per_registered_passenger_witness :
  (let again :=
     Js.run [] (handleBooking (Some Scenario.ride1) (Some "p1") "" "" (Some 1) "q3")
       Scenario.db0 in
   In (Scenario.request "q1" "p1" 2 Requests.pending) (Pg.requests Scenario.db0)
   /\ again
      = (Scenario.db0,
         Some (Js.ToastError
                 (Js.PostgrestError
                    (Pg.unique_violation "requests_ride_id_passenger_id_key")))))
  /\ (let guest := fun i => handleBooking (Some Scenario.ride1) None "g@x.org" ""
                             (Some 1) i in
      let once := Js.run [] (guest "g1") Scenario.db0 in
      let twice := Js.run [] (guest "g2") (fst once) in
      snd once = Some Js.ToastRequestSent
      /\ snd twice = Some Js.ToastRequestSent
      /\ map Requests.id (Pg.requests (fst twice)) = ["q1"; "q2"; "g1"; "g2"]).
Proof.
  assert (H01 : 0 < 1 < 2147483648) by (split; reflexivity).
  split.
  - split; [left; reflexivity|].
    apply (proj1 one_request_per_registered_passenger Scenario.ride1 "p1" "" "" 1
             "q3" [] Scenario.db0 (Scenario.request "q1" "p1" 2 Requests.pending));
      try reflexivity.
    + exact H01.
    + vm_compute. intuition discriminate.
    + left; reflexivity.
  - assert (Hemail : "g@x.org" <> "") by discriminate.
    assert (Hride0 : In "r1" (map Rides.id (Pg.rides Scenario.db0)))
      by (left; reflexivity).
    pose proof (proj2 one_request_per_registered_passenger Scenario.ride1
                  "g@x.org" "" 1 "g1" [] Scenario.db0 Hemail H01) as H1.
    cbv beta zeta. rewrite H1; [|vm_compute; intuition discriminate | exact Hride0 | reflexivity].
    cbn [fst snd].
    rewrite (proj2 one_request_per_registered_passenger Scenario.ride1
               "g@x.org" "" 1 "g2" [] _ Hemail H01);
      [|vm_compute; intuition discriminate | exact Hride0 | reflexivity].
    repeat split.
Defined.
End Booking.

(** ** The seat-inventory invariant *)

Section Sums.
Import Inventory.

Lemma NoDup_map_inj {A B : Type} (f : A -> B) (l : list A) (a b : A) :
  NoDup (map f l) -> In a l -> In b l -> f a = f b -> a = b.
Proof.
  induction l as [|x l IH]; simpl; intros Hnd Ha Hb Hf; [destruct Ha|].
  inversion Hnd as [|y l' Hx Hl]; subst.
  destruct Ha as [->|Ha], Hb as [->|Hb].
  - reflexivity.
  - destruct Hx. rewrite Hf. now apply in_map.
  - destruct Hx. rewrite <- Hf. now apply in_map.
  - now apply IH.
Qed.

Lemma approved_in_app (k : uuid) (l1 l2 : list Requests.row) :
  approved_in (l1 ++ l2) k = approved_in l1 k + approved_in l2 k.
Proof.
  unfold approved_in. induction l1 as [|q l1 IH]; simpl; [reflexivity|].
  rewrite IH. lia.
Qed.

Lemma approved_in_other_rides (k : uuid) (l : list Requests.row) :
  (forall q, In q l -> Requests.ride_id q <> k) -> approved_in l k = 0.
Proof.
  unfold approved_in. induction l as [|q l IH]; simpl; intros H; [reflexivity|].
  rewrite IH by (intros; apply H; now right).
  unfold seats_if_approved.
  assert (Hq : Requests.ride_id q <> k) by (apply H; now left).
  apply String.eqb_neq in Hq. now rewrite Hq.
Qed.

Lemma set_status_absent (i : uuid) (s : Requests.request_status)
    (l : list Requests.row) :
  ~ In i (map Requests.id l) -> map (Pg.set_status i s) l = l.
Proof.
  induction l as [|q l IH]; simpl; intros H; [reflexivity|].
  rewrite IH by tauto. unfold Pg.set_status.
  assert (Hq : Requests.id q <> i) by tauto.
  apply String.eqb_neq in Hq. now rewrite Hq.
Qed.

(** Setting the status of the one request with a given id moves the sum by
    that request's share. *)
Lemma approved_in_set_status (k i : uuid) (s : Requests.request_status)
    (l : list Requests.row) (q : Requests.row) :
  NoDup (map Requests.id l) -> In q l -> Requests.id q = i ->
  approved_in (map (Pg.set_status i s) l) k
  = approved_in l k - seats_if_approved k q
    + seats_if_approved k (Requests.with_status s q).
Proof.
  induction l as [|x l IH]; intros Hnd Hin Hid; [destruct Hin|].
  inversion Hnd as [|y l' Hx Hl]; subst y l'.
  destruct Hin as [->|Hin].
  - cbn [map]. rewrite set_status_absent by now rewrite <- Hid in *.
    unfold Pg.set_status. subst i. rewrite String.eqb_refl.
    unfold approved_in. simpl. lia.
  - assert (Hxi : Requests.id x <> i).
    { intros E. apply Hx. rewrite E, <- Hid. now apply in_map. }
    cbn [map]. unfold Pg.set_status at 1.
    apply String.eqb_neq in Hxi. rewrite Hxi.
    change (approved_in (x :: ?t) k) with (seats_if_approved k x + approved_in t k).
    rewrite (IH Hl Hin Hid).
    change (approved_in (x :: l) k) with (seats_if_approved k x + approved_in l k).
    lia.
Qed.

Lemma map_id_set_status (i : uuid) (s : Requests.request_status)
    (l : list Requests.row) :
  map Requests.id (map (Pg.set_status i s) l) = map Requests.id l.
Proof.
  rewrite map_map. apply map_ext. intros q. unfold Pg.set_status.
  now destruct (String.eqb (Requests.id q) i).
Qed.

Lemma In_set_status (i : uuid) (s : Requests.request_status)
    (l : list Requests.row) (q' : Requests.row) :
  In q' (map (Pg.set_status i s) l) ->
  exists q, In q l /\ Requests.ride_id q' = Requests.ride_id q
            /\ Requests.seats_requested q' = Requests.seats_requested q.
Proof.
  rewrite in_map_iff. intros [q [Hq Hin]]. exists q.
  split; [assumption|]. unfold Pg.set_status in Hq.
  destruct (String.eqb (Requests.id q) i); subst q'; now split.
Qed.

(** *** The writes keep the schema's guarantees *)

Lemma In_set_status_keys (i : uuid) (s : Requests.request_status)
    (l : list Requests.row) (q' : Requests.row) :
  In q' (map (Pg.set_status i s) l) ->
  exists q, In q l /\ Requests.id q' = Requests.id q
            /\ Requests.ride_id q' = Requests.ride_id q
            /\ Requests.passenger_id q' = Requests.passenger_id q.
Proof.
  rewrite in_map_iff. intros [q [Hq Hin]]. exists q.
  split; [assumption|]. unfold Pg.set_status in Hq.
  destruct (String.eqb (Requests.id q) i); subst q'; now repeat split.
Qed.

Lemma update_request_status_consistent (i : uuid) (s : Requests.request_status)
    (d d' : Pg.db) :
  Pg.update_request_status i s d = inr d' -> consistent d -> consistent d'.
Proof.
  unfold Pg.update_request_status.
  intros [= <-] [Hr Hq Hfk Hseats Hchk Hdrv Hpas Huniq].
  constructor; simpl; try assumption.
  - now rewrite map_id_set_status.
  - intros q' Hq'. apply In_set_status in Hq'.
    destruct Hq' as [q [Hin [-> _]]]. now apply Hfk.
  - intros q' Hq'. apply In_set_status in Hq'.
    destruct Hq' as [q [Hin [_ ->]]]. now apply Hseats.
  - intros q' u Hq'. apply In_set_status_keys in Hq'.
    destruct Hq' as [q [Hin [_ [_ ->]]]]. now apply Hpas.
  - intros q1' q2' u H1 H2. apply In_set_status_keys in H1, H2.
    destruct H1 as [q1 [Hin1 [-> [-> ->]]]].
    destruct H2 as [q2 [Hin2 [-> [-> ->]]]]. now apply Huniq.
Qed.

Lemma first_violation_None (l : list Rides.row) :
  (forall r, In r l -> Pg.rides_checks r = None) -> Pg.first_violation l = None.
Proof.
  induction l as [|r l IH]; simpl; intros H; [reflexivity|].
  rewrite (H r (or_introl eq_refl)). apply IH. intros; apply H; now right.
Qed.

Lemma first_violation_In (l : list Rides.row) :
  Pg.first_violation l = None -> forall r, In r l -> Pg.rides_checks r = None.
Proof.
  induction l as [|x l IH]; simpl; intros H r Hr; [destruct Hr|].
  destruct (Pg.rides_checks x) eqn:E; [discriminate|].
  destruct Hr as [<-|Hr]; [assumption | now apply IH].
Qed.

Lemma rides_checks_bounds (r : Rides.row) :
  Pg.rides_checks r = None ->
  0 < Rides.total_seats r
  /\ 0 <= Rides.available_seats r <= Rides.total_seats r.
Proof.
  unfold Pg.rides_checks.
  destruct (0 <? Rides.total_seats r) eqn:E1; [|discriminate].
  destruct (0 <=? Rides.available_seats r) eqn:E2; [|discriminate].
  cbn [negb]. destruct (match Rides.cost_per_person r with
                        | Some c => negb (Qle_bool 0 c) | None => false end);
    [discriminate|].
  destruct (Rides.available_seats r <=? Rides.total_seats r) eqn:E3; [|discriminate].
  intros _. apply Z.ltb_lt in E1. apply Z.leb_le in E2, E3. lia.
Qed.

Lemma rides_checks_with_available_seats (r : Rides.row) (n : Z) :
  Pg.rides_checks r = None -> 0 <= n <= Rides.total_seats r ->
  Pg.rides_checks (Rides.with_available_seats n r) = None.
Proof.
  unfold Pg.rides_checks. cbn [Rides.total_seats Rides.available_seats
                                 Rides.cost_per_person Rides.with_available_seats].
  destruct (0 <? Rides.total_seats r); [|discriminate].
  destruct (0 <=? Rides.available_seats r); [|discriminate].
  cbn [negb]. destruct (match Rides.cost_per_person r with
                        | Some c => negb (Qle_bool 0 c) | None => false end);
    [discriminate|].
  intros _ [H1 H2]. apply Z.leb_le in H1, H2. now rewrite H1, H2.
Qed.

Lemma map_id_set_available_seats (i : uuid) (n : Z) (l : list Rides.row) :
  map Rides.id (map (Pg.set_available_seats i n) l) = map Rides.id l.
Proof.
  rewrite map_map. apply map_ext. intros r. unfold Pg.set_available_seats.
  now destruct (String.eqb (Rides.id r) i).
Qed.

Lemma update_ride_seats_consistent (i : uuid) (n : Z) (d d' : Pg.db) :
  Pg.update_ride_seats i n d = inr d' -> consistent d -> consistent d'.
Proof.
  unfold Pg.update_ride_seats.
  destruct (Pg.first_violation _) eqn:E; [discriminate|].
  intros [= <-] [Hr Hq Hfk Hseats Hchk Hdrv Hpas Huniq].
  constructor; simpl; try assumption.
  - now rewrite map_id_set_available_seats.
  - rewrite map_id_set_available_seats. exact Hfk.
  - intros r' Hr'. apply in_map_iff in Hr'. destruct Hr' as [r [<- Hin]].
    unfold Pg.set_available_seats.
    destruct (String.eqb (Rides.id r) i) eqn:Ei; [|now apply Hchk].
    apply (first_violation_In _ E). apply in_map. apply filter_In. now split.
  - intros r' u Hr'. apply in_map_iff in Hr'. destruct Hr' as [r [<- Hin]].
    unfold Pg.set_available_seats.
    destruct (String.eqb (Rides.id r) i); cbn; intros Hu; now apply (Hdrv r).
Qed.

Lemma insert_ride_consistent (r : Rides.row) (d d' : Pg.db) :
  Pg.insert_ride r d = inr d' -> consistent d ->
  consistent d'
  /\ exists c, Pg.rides d' = Pg.rides d ++ [Rides.with_cost_per_person c r]
               /\ Pg.requests d' = Pg.requests d
               /\ ~ In (Rides.id r) (map Rides.id (Pg.rides d)).
Proof.
  unfold Pg.insert_ride.
  destruct (if Pg.int4 (Rides.total_seats r) && Pg.int4 (Rides.available_seats r)
            then match Rides.cost_per_person r with
                 | Some c => option_map Some (Pg.decimal_10_2 c)
                 | None => Some None
                 end
            else None) as [c|]; [|discriminate].
  destruct (Pg.rides_checks _) eqn:Echk; [discriminate|].
  destruct (Pg.has_id _ _) eqn:Eid; [discriminate|].
  destruct (Pg.fk_profile _ d) eqn:Edrv; cbn [negb]; [|discriminate].
  intros [= <-] [Hr Hq Hfk Hseats Hchk Hdrv Hpas Huniq].
  assert (Hnew : ~ In (Rides.id r) (map Rides.id (Pg.rides d))).
  { intros H. apply has_id_In in H. simpl in Eid. congruence. }
  split; [|exists c; now repeat split].
  constructor; simpl; try assumption.
  - rewrite map_app. simpl. apply NoDup_app; [assumption | repeat constructor; intros [] |].
    intros x Hx [<-|[]]. now apply Hnew.
  - intros q Hq'. rewrite map_app. apply in_or_app. left. now apply Hfk.
  - intros x Hx. apply in_app_or in Hx. destruct Hx as [Hx|[<-|[]]];
      [now apply Hchk | assumption].
  - intros x u Hx Hu. apply in_app_or in Hx. destruct Hx as [Hx|[<-|[]]];
      [now apply (Hdrv x)|].
    simpl in Hu, Edrv. rewrite Hu in Edrv. now apply has_id_In.
Qed.

Lemma option_uuid_eqb_Some (a : option uuid) (u : uuid) :
  Pg.option_uuid_eqb a (Some u) = true <-> a = Some u.
Proof.
  destruct a as [v|]; simpl.
  - rewrite String.eqb_eq. split; congruence.
  - split; discriminate.
Qed.

Lemma insert_request_consistent (new_id ride_id : uuid) (p : option uuid) (n : Z)
    (e c : option string) (d d' : Pg.db) :
  Pg.insert_request new_id ride_id p (Some n) e c d = inr d' -> consistent d ->
  consistent d'
  /\ Pg.rides d' = Pg.rides d
  /\ Pg.requests d'
     = Pg.requests d ++ [Requests.mk new_id ride_id p n Requests.pending e c].
Proof.
  unfold Pg.insert_request.
  destruct (Pg.int4 n); cbn [negb]; [|discriminate].
  destruct (0 <? n) eqn:En; [|discriminate]. cbn [negb].
  destruct (Pg.has_id new_id _) eqn:Eid; [discriminate|].
  destruct (existsb _ _) eqn:Edup; [discriminate|].
  destruct (Pg.has_id ride_id _) eqn:Efk; [|discriminate]. cbn [negb].
  destruct (Pg.fk_profile p d) eqn:Epas; cbn [negb]; [|discriminate].
  intros [= <-] [Hr Hq Hfk Hseats Hchk Hdrv Hpas Huniq].
  assert (Hnew : ~ In new_id (map Requests.id (Pg.requests d))).
  { intros H. apply has_id_In in H. congruence. }
  assert (Hfresh : forall q u, In q (Pg.requests d) ->
                               Requests.ride_id q = ride_id ->
                               Requests.passenger_id q = Some u -> p <> Some u).
  { intros q u Hin Hride Hpass ->.
    assert (E : existsb (fun q' => String.eqb (Requests.ride_id q') ride_id
                          && Pg.option_uuid_eqb (Requests.passenger_id q') (Some u))
                        (Pg.requests d) = true); [|congruence].
    apply existsb_exists. exists q. split; [assumption|].
    rewrite Hride, Hpass. simpl. now rewrite !String.eqb_refl. }
  split; [|now split].
  constructor; simpl; try assumption.
  - rewrite map_app. simpl. apply NoDup_app; [assumption | repeat constructor; intros [] |].
    intros x Hx [<-|[]]. contradiction.
  - intros q Hq'. apply in_app_or in Hq'. destruct Hq' as [Hq'|[<-|[]]];
      [now apply Hfk|]. simpl. now apply has_id_In.
  - intros q Hq'. apply in_app_or in Hq'. destruct Hq' as [Hq'|[<-|[]]];
      [now apply Hseats|]. simpl. now apply Z.ltb_lt.
  - intros q u Hq' Hu. apply in_app_or in Hq'. destruct Hq' as [Hq'|[<-|[]]];
      [now apply (Hpas q)|].
    simpl in Hu. rewrite Hu in Epas. now apply has_id_In.
  - intros q1 q2 u H1 H2 Hride Hp1 Hp2.
    apply in_app_or in H1, H2.
    destruct H1 as [H1|[<-|[]]], H2 as [H2|[<-|[]]].
    + now apply (Huniq q1 q2 u).
    + simpl in Hride, Hp2. now destruct (Hfresh q1 u H1 Hride Hp1).
    + simpl in Hride, Hp1. now destruct (Hfresh q2 u H2 (eq_sym Hride) Hp2).
    + reflexivity.
Qed.
End Sums.

(** *** A freshly loaded dashboard agrees with the database *)

Section FreshLoad.
Import DriverDashboard Inventory.

Lemma find_complete {A : Type} (f : A -> bool) (l : list A) (x : A) :
  In x l -> f x = true -> exists y, find f l = Some y.
Proof.
  induction l as [|a l IH]; simpl; intros Hin Hf; [destruct Hin|].
  destruct (f a) eqn:E; [now exists a|].
  destruct Hin as [->|Hin]; [congruence | now apply IH].
Qed.

Lemma lookup_In (k : uuid) (o : list (uuid * list Request)) (v : list Request) :
  lookup k o = Some v -> In (k, v) o.
Proof.
  unfold lookup.
  destruct (find (fun kv => String.eqb (fst kv) k) o) as [[k' v']|] eqn:E;
    [|discriminate].
  simpl. intros [= <-]. apply find_some in E. destruct E as [Hin Hk].
  apply String.eqb_eq in Hk. simpl in Hk. now subst.
Qed.

Lemma push_In (k : uuid) (req : Request) (o : list (uuid * list Request))
    (k' : uuid) (v' : list Request) :
  In (k', v') (push k req o) ->
  In (k', v') o
  \/ (k' = k /\ exists v0, v' = v0 ++ [req] /\ (v0 = [] \/ In (k, v0) o)).
Proof.
  induction o as [|[k0 v0] o IH]; simpl.
  - intros [[= <- <-]|[]]. right. split; [reflexivity|]. exists []. now split; [|left].
  - destruct (String.eqb k0 k) eqn:E.
    + apply String.eqb_eq in E. subst k0. intros [[= <- <-]|Hin].
      * right. split; [reflexivity|]. exists v0. split; [reflexivity|]. right. now left.
      * left. now right.
    + intros [[= <- <-]|Hin]; [left; now left|].
      destruct (IH Hin) as [H|[-> [v1 [-> [->|H]]]]].
      * left. now right.
      * right. split; [reflexivity|]. exists []. now split; [|left].
      * right. split; [reflexivity|]. exists v1. split; [reflexivity|]. right. now right.
Qed.

(** Every request held under a key of [group l] is a request of [l] against
    the ride of that key. *)
Lemma group_members (l : list Request) (k : uuid) (v : list Request) (x : Request) :
  In (k, v) (group l) -> In x v ->
  In x l /\ Requests.ride_id (row x) = k.
Proof.
  unfold group.
  assert (H : forall l' o,
             (forall k v x, In (k, v) o -> In x v ->
                            In x l /\ Requests.ride_id (row x) = k) ->
             (forall x, In x l' -> In x l) ->
             forall k v x,
               In (k, v) (fold_left
                            (fun grouped req =>
                               push (Requests.ride_id (row req)) req grouped) l' o) ->
               In x v -> In x l /\ Requests.ride_id (row x) = k).
  { induction l' as [|req l' IH]; intros o Ho Hl' k0 v0 x0; simpl; [apply Ho|].
    apply IH; [|intros; apply Hl'; now right].
    intros k1 v1 x1 Hin Hx.
    destruct (push_In _ _ _ _ _ Hin) as [H|[-> [v2 [-> Hv2]]]];
      [now apply (Ho k1 v1)|].
    apply in_app_or in Hx. destruct Hx as [Hx|[<-|[]]].
    - destruct Hv2 as [->|Hv2]; [destruct Hx | now apply (Ho _ v2)].
    - split; [apply Hl'; now left | reflexivity]. }
  apply (H l []); [intros ? ? ? [] | auto].
Qed.

Lemma buttons_need_rides (user : option uuid) (st : state) (b : uuid * uuid) :
  In b (decision_buttons user st) -> rides st <> [] /\ user <> None.
Proof.
  unfold decision_buttons. destruct user; [|intros []].
  destruct (rides st); [intros [] | split; discriminate].
Qed.

(** With rides to show, [fetchData] replaces both halves of the state by
    what the database holds. *)
Lemma fetchData_loaded (u : uuid) (now : timestamp) (d : Pg.db) (st0 : state) :
  let st := fst (fetchData (Some u) now None None d st0) in
  rides st <> [] ->
  requestsByRide st
  = group (map (join_profile d)
             (filter (fun q => Pg.has_id (Requests.ride_id q)
                                 (map Rides.id (rides st)))
                     (Pg.requests d))).
Proof.
  unfold fetchData.
  destruct (Pg.order_by_departure _) as [|x l]; simpl; [congruence | reflexivity].
Qed.

(** A button of a freshly loaded dashboard names a ride and a pending
    request of the database, and [handleRequestDecision] finds exactly
    those two rows. *)
Lemma fresh_button (user : option uuid) (now : timestamp) (d : Pg.db) (st0 : state)
    (requestId rideId : uuid) :
  consistent d ->
  let st := fst (fetchData user now None None d st0) in
  In (requestId, rideId) (decision_buttons user st) ->
  exists ride q,
    In ride (Pg.rides d) /\ Rides.id ride = rideId
    /\ In q (Pg.requests d) /\ Requests.id q = requestId
    /\ Requests.ride_id q = rideId
    /\ Requests.status q = Requests.pending
    /\ found_ride st rideId = Some ride
    /\ found_request st requestId = Some (join_profile d q).
Proof.
  intros Hc st Hb.
  destruct (buttons_need_rides _ _ _ Hb) as [Hne Hu].
  destruct user as [u|]; [clear Hu | congruence].
  pose proof (fetchData_loaded u now d st0 Hne) as Hreqs. fold st in Hreqs.
  destruct (decision_buttons_pending _ _ _ _ Hb)
    as [ride [requests [request [Hride [Hid [Hlook [Hin [Hrid Hst]]]]]]]].
  apply lookup_In in Hlook as Hkv. rewrite Hreqs in Hkv.
  destruct (group_members _ _ _ _ Hkv Hin) as [Hmem Hk].
  apply in_map_iff in Hmem. destruct Hmem as [q [Hq Hqin]].
  apply filter_In in Hqin. destruct Hqin as [Hqin _].
  assert (Hrow : row request = q) by now subst request.
  rewrite Hrow in *.
  apply (fetchData_rides u now None d st0) in Hride as Hdb.
  destruct Hdb as [Hdb _].
  exists ride, q. repeat split; try assumption.
  - unfold found_ride.
    destruct (find_complete (fun r => String.eqb (Rides.id r) rideId) _ ride Hride)
      as [y Hy]; [now apply String.eqb_eq|].
    rewrite Hy. f_equal. apply find_some in Hy. destruct Hy as [Hy Hyid].
    apply String.eqb_eq in Hyid.
    apply (fetchData_rides u now None d st0) in Hy. destruct Hy as [Hy _].
    apply (NoDup_map_inj Rides.id (Pg.rides d)); try assumption;
      [apply Hc | congruence].
  - unfold found_request.
    assert (Hcat : In request (List.concat (map snd (requestsByRide st)))).
    { apply in_concat. exists requests. split; [|assumption].
      apply in_map_iff. exists (rideId, requests). split; [reflexivity|].
      now apply lookup_In. }
    destruct (find_complete
                (fun r => String.eqb (Requests.id (row r)) requestId) _ request Hcat)
      as [y Hy]; [rewrite Hrow; now apply String.eqb_eq|].
    rewrite Hy. f_equal. apply find_some in Hy. destruct Hy as [Hy Hyid].
    apply String.eqb_eq in Hyid.
    apply in_concat in Hy. destruct Hy as [v [Hv Hyv]].
    apply in_map_iff in Hv. destruct Hv as [[k v'] [Hv' Hkv']]. simpl in Hv'. subst v'.
    rewrite Hreqs in Hkv'.
    destruct (group_members _ _ _ _ Hkv' Hyv) as [Hymem _].
    apply in_map_iff in Hymem. destruct Hymem as [q' [Hq' Hq'in]].
    apply filter_In in Hq'in. destruct Hq'in as [Hq'in _].
    subst y. f_equal.
    apply (NoDup_map_inj Requests.id (Pg.requests d)); try assumption;
      [apply Hc | simpl in Hyid; congruence].
Qed.
End FreshLoad.

(** *** Each operation keeps the invariant *)

Section Preservation.
Import DriverDashboard Inventory.

Lemma pending_share (k : uuid) (q : Requests.row) :
  Requests.status q = Requests.pending -> seats_if_approved k q = 0.
Proof.
  intros H. unfold seats_if_approved. rewrite H. simpl. now rewrite andb_false_r.
Qed.

Lemma denied_share (k : uuid) (q : Requests.row) :
  seats_if_approved k (Requests.with_status Requests.denied q) = 0.
Proof. unfold seats_if_approved. simpl. now rewrite andb_false_r. Qed.

Lemma approved_share (k : uuid) (q : Requests.row) :
  seats_if_approved k (Requests.with_status Requests.approved q)
  = if String.eqb (Requests.ride_id q) k then Requests.seats_requested q else 0.
Proof. unfold seats_if_approved. simpl. now rewrite andb_true_r. Qed.

(** The status write on a pending request. *)
Lemma status_step (d : Pg.db) (q : Requests.row) (s : Requests.request_status) :
  consistent d -> In q (Pg.requests d) -> Requests.status q = Requests.pending ->
  let d1 := Pg.mk (Pg.profiles d) (Pg.rides d)
              (map (Pg.set_status (Requests.id q) s) (Pg.requests d)) in
  consistent d1
  /\ forall k, approved_seats d1 k
               = approved_seats d k + seats_if_approved k (Requests.with_status s q).
Proof.
  intros Hc Hin Hst d1. split.
  - now apply (update_request_status_consistent (Requests.id q) s d).
  - intros k. unfold approved_seats. subst d1. simpl.
    rewrite (approved_in_set_status k _ s _ q (requests_pkey d Hc) Hin eq_refl).
    rewrite (pending_share k q Hst). lia.
Qed.

Lemma denial_keeps_invariant (d : Pg.db) (q : Requests.row) :
  consistent d -> seats_invariant d ->
  In q (Pg.requests d) -> Requests.status q = Requests.pending ->
  let d1 := Pg.mk (Pg.profiles d) (Pg.rides d)
              (map (Pg.set_status (Requests.id q) Requests.denied) (Pg.requests d)) in
  consistent d1 /\ seats_invariant d1.
Proof.
  intros Hc Hinv Hin Hst d1.
  destruct (status_step d q Requests.denied Hc Hin Hst) as [Hc1 Hsum].
  split; [exact Hc1|].
  intros r Hr. unfold balanced. fold d1 in Hsum. rewrite Hsum, denied_share.
  rewrite Z.add_0_r. now apply Hinv.
Qed.

(** The seat write that follows the status write of an approval. *)
Lemma approval_keeps_invariant (d : Pg.db) (ride : Rides.row) (q : Requests.row) :
  consistent d -> seats_invariant d ->
  In ride (Pg.rides d) -> In q (Pg.requests d) ->
  Requests.ride_id q = Rides.id ride ->
  Requests.status q = Requests.pending ->
  Requests.seats_requested q <= Rides.available_seats ride ->
  let n := Rides.available_seats ride - Requests.seats_requested q in
  let d1 := Pg.mk (Pg.profiles d) (Pg.rides d)
              (map (Pg.set_status (Requests.id q) Requests.approved)
                   (Pg.requests d)) in
  exists d2, Pg.update_ride_seats (Rides.id ride) n d1 = inr d2
             /\ consistent d2 /\ seats_invariant d2.
Proof.
  intros Hc Hinv Hride Hq Hrid Hst Hle n d1.
  destruct (status_step d q Requests.approved Hc Hq Hst) as [Hc1 Hsum].
  fold d1 in Hc1, Hsum.
  pose proof (rides_check d Hc ride Hride) as Hchk.
  pose proof (rides_checks_bounds ride Hchk) as Hb.
  pose proof (requests_seats_requested_check d Hc q Hq) as Hpos.
  assert (Hn : 0 <= n <= Rides.total_seats ride) by (subst n; lia).
  assert (Hsame : forall r, In r (Pg.rides d) -> Rides.id r = Rides.id ride -> r = ride).
  { intros r Hr Hid.
    now apply (NoDup_map_inj Rides.id (Pg.rides d) r ride (rides_pkey d Hc)). }
  assert (Hup : Pg.update_ride_seats (Rides.id ride) n d1
                = inr (Pg.mk (Pg.profiles d)
                         (map (Pg.set_available_seats (Rides.id ride) n) (Pg.rides d))
                         (Pg.requests d1))).
  { unfold Pg.update_ride_seats. rewrite first_violation_None; [reflexivity|].
    intros r' Hr'. apply in_map_iff in Hr'. destruct Hr' as [r [<- Hr]].
    apply filter_In in Hr. destruct Hr as [Hr Hid]. apply String.eqb_eq in Hid.
    simpl in Hr. rewrite (Hsame r Hr Hid).
    now apply rides_checks_with_available_seats. }
  eexists. split; [exact Hup|].
  split; [exact (update_ride_seats_consistent _ _ _ _ Hup Hc1)|].
  intros r' Hr'. simpl in Hr'. apply in_map_iff in Hr'. destruct Hr' as [r [<- Hr]].
  unfold balanced, approved_seats. cbn [Pg.requests].
  change (approved_in (Pg.requests d1) ?k) with (approved_seats d1 k).
  unfold Pg.set_available_seats.
  destruct (String.eqb (Rides.id r) (Rides.id ride)) eqn:E.
  - apply String.eqb_eq in E. rewrite (Hsame r Hr E).
    cbn [Rides.id Rides.available_seats Rides.total_seats Rides.with_available_seats].
    rewrite Hsum, approved_share, Hrid, String.eqb_refl.
    pose proof (Hinv ride Hride) as Hbal. unfold balanced in Hbal. lia.
  - rewrite Hsum, approved_share, Hrid.
    rewrite String.eqb_sym in E. rewrite E, Z.add_0_r. now apply Hinv.
Qed.

(** A decision taken on the rows the database holds. *)
Lemma decision_keeps_invariant (st : state) (requestId rideId : uuid)
    (decision : decision) (net : list bool) (d : Pg.db)
    (ride : Rides.row) (q : Requests.row) :
  consistent d -> seats_invariant d ->
  In ride (Pg.rides d) -> Rides.id ride = rideId ->
  In q (Pg.requests d) -> Requests.id q = requestId ->
  Requests.ride_id q = rideId ->
  Requests.status q = Requests.pending ->
  found_ride st rideId = Some ride ->
  found_request st requestId = Some (join_profile d q) ->
  hd false (tl net) = false ->
  let d' := fst (Js.run net (handleRequestDecision st requestId rideId decision) d) in
  consistent d' /\ seats_invariant d'.
Proof.
  intros Hc Hinv Hride Hid Hq Hqid Hrid Hst Hfride Hfreq Hnet2 d'. subst d'.
  subst requestId rideId.
  destruct decision.
  - destruct (Z.le_gt_cases (Requests.seats_requested q) (Rides.available_seats ride))
      as [Hle|Hgt].
    + rewrite (enough_seats_run st _ _ net d _ ride Hfreq Hfride Hle).
      rewrite exec_status. destruct (hd false net); cbn [fst snd]; [now split|].
      destruct (approval_keeps_invariant d ride q Hc Hinv Hride Hq Hrid Hst Hle)
        as [d2 [Hup [Hc2 Hinv2]]].
      rewrite Hnet2. unfold Js.exec. cbn [Pg.apply_write row join_profile].
      cbn [row join_profile] in Hup. rewrite Hup. cbn [fst snd]. now split.
    + rewrite (not_enough_seats_run st _ _ net d _ ride Hfreq Hfride Hgt).
      rewrite exec_status. destruct (hd false net); cbn [fst]; [now split|].
      now apply denial_keeps_invariant.
  - unfold handleRequestDecision. rewrite Hfreq, Hfride. cbn [Js.run].
    rewrite exec_status. destruct (hd false net).
    + simpl. now split.
    + assert (Hrun : forall t d1,
                 fst (Js.run (tl net)
                        match profiles (join_profile d q) with
                        | Some _ => Js.Return (Some t)
                        | None => Js.Return (Some (Js.ToastError Js.TypeError))
                        end d1) = d1)
        by (intros; now destruct (profiles _)).
      cbn beta iota. rewrite Hrun. now apply denial_keeps_invariant.
Qed.

Lemma handleSubmit_effect (user : option uuid)
    (guestEmail guestName origin destination : string)
    (datetime : option timestamp) (seatsNum : Z) (new_id : uuid)
    (net : list bool) (d : Pg.db) :
  let d' := fst (Js.run net (OfferRide.handleSubmit user guestEmail guestName origin
                               destination datetime seatsNum new_id) d) in
  d' = d
  \/ exists r, Pg.insert_ride r d = inr d'
               /\ Rides.available_seats r = Rides.total_seats r.
Proof.
  assert (H : forall r, Rides.available_seats r = Rides.total_seats r ->
                        let d' := fst (Js.run net (OfferRide.insert r) d) in
                        d' = d \/ exists r, Pg.insert_ride r d = inr d'
                                            /\ Rides.available_seats r
                                               = Rides.total_seats r).
  { intros r Hr. unfold OfferRide.insert. cbn [Js.run]. unfold Js.exec.
    destruct (hd false net); [now left|]. cbn [Pg.apply_write].
    destruct (Pg.insert_ride r d) as [e|d1] eqn:E; [now left|].
    right. exists r. now split. }
  unfold OfferRide.handleSubmit.
  destruct user; [|destruct (String.eqb guestEmail ""); [now left|]];
    (destruct datetime; [apply H; reflexivity | now left]).
Qed.

Lemma handleBooking_effect (selectedRide : option Rides.row) (user : option uuid)
    (guestEmail guestName : string) (seatsToBook : option Z) (new_id : uuid)
    (net : list bool) (d : Pg.db) :
  let d' := fst (Js.run net (FindRide.handleBooking selectedRide user guestEmail
                               guestName seatsToBook new_id) d) in
  d' = d
  \/ exists ride_id p n e c,
       Pg.insert_request new_id ride_id p (Some n) e c d = inr d'.
Proof.
  assert (H : forall ride_id p e c,
             let d' := fst (Js.run net (FindRide.insert ride_id p seatsToBook e c
                                          new_id) d) in
             d' = d \/ exists ride_id p n e c,
                         Pg.insert_request new_id ride_id p (Some n) e c d
                         = inr d').
  { intros ride_id p e c. unfold FindRide.insert. cbn [Js.run]. unfold Js.exec.
    destruct (hd false net); [now left|]. cbn [Pg.apply_write].
    destruct seatsToBook as [n|]; [|now left].
    destruct (Pg.insert_request _ _ _ _ _ _ d) as [x|d1] eqn:E; [now left|].
    right. exists ride_id, p, n, e, c. exact E. }
  unfold FindRide.handleBooking.
  destruct selectedRide; [|now left].
  destruct user; [apply H|].
  destruct (String.eqb guestEmail ""); [now left | apply H].
Qed.

Lemma insert_ride_keeps_invariant (r : Rides.row) (d d' : Pg.db) :
  Pg.insert_ride r d = inr d' ->
  Rides.available_seats r = Rides.total_seats r ->
  consistent d -> seats_invariant d ->
  consistent d' /\ seats_invariant d'.
Proof.
  intros Hins Hfull Hc Hinv.
  destruct (insert_ride_consistent r d d' Hins Hc) as [Hc' [c [Hrides [Hreqs Hnew]]]].
  split; [exact Hc'|].
  intros x Hx. unfold balanced, approved_seats. rewrite Hreqs.
  rewrite Hrides in Hx. apply in_app_or in Hx. destruct Hx as [Hx|[<-|[]]].
  - now apply Hinv.
  - cbn [Rides.id Rides.available_seats Rides.total_seats Rides.with_cost_per_person].
    rewrite approved_in_other_rides; [lia|].
    intros q Hq E. apply Hnew. rewrite <- E. now apply (requests_ride_id_fkey d Hc).
Qed.

Lemma insert_request_keeps_invariant (new_id ride_id : uuid) (p : option uuid)
    (n : Z) (e c : option string) (d d' : Pg.db) :
  Pg.insert_request new_id ride_id p (Some n) e c d = inr d' ->
  consistent d -> seats_invariant d ->
  consistent d' /\ seats_invariant d'.
Proof.
  intros Hins Hc Hinv.
  destruct (insert_request_consistent _ _ _ _ _ _ d d' Hins Hc) as [Hc' [Hrides Hreqs]].
  split; [exact Hc'|].
  intros x Hx. unfold balanced, approved_seats. rewrite Hreqs, approved_in_app.
  rewrite Hrides in Hx. unfold approved_in at 2. simpl.
  rewrite pending_share by reflexivity. rewrite !Z.add_0_r. now apply Hinv.
Qed.

Lemma reachable_sound (d : Pg.db) :
  reachable d -> consistent d /\ seats_invariant d.
Proof.
  induction 1 as [ps | d p _ [Hc Hinv]
                  | d user ge gn o de dt n i net _ [Hc Hinv]
                  | d sel user ge gn n i net _ [Hc Hinv]
                  | d user now st0 requestId rideId dec net _ [Hc Hinv] Hb Hnet].
  - split; [|intros ? []].
    constructor; simpl; try constructor; intros; contradiction.
  - split; [|exact Hinv].
    destruct Hc as [Hr Hq Hfk Hseats Hchk Hdrv Hpas Huniq].
    constructor; simpl; try assumption.
    + intros r u Hin Hu. rewrite map_app. apply in_or_app. left.
      now apply (Hdrv r).
    + intros q u Hin Hu. rewrite map_app. apply in_or_app. left.
      now apply (Hpas q).
  - destruct (handleSubmit_effect user ge gn o de dt n i net d) as [->|[r [Hins Hfull]]];
      [now split|].
    now apply (insert_ride_keeps_invariant r d).
  - destruct (handleBooking_effect sel user ge gn n i net d)
      as [->|[k [p [m [e [c Hins]]]]]]; [now split|].
    now apply (insert_request_keeps_invariant i k p m e c d).
  - destruct (fresh_button user now d st0 requestId rideId Hc Hb)
      as [ride [q [Hride [Hid [Hq [Hqid [Hrid [Hst [Hfr Hfq]]]]]]]]].
    now apply (decision_keeps_invariant _ _ _ dec net d ride q).
Qed.
End Preservation.

(** ** The invariant over the reachable databases *)

Section Invariant.
Import DriverDashboard Inventory Scenario.

Lemma db0_reachable : reachable db0.
Proof.
  pose proof (reach_start [dana; paul; pia]) as H0.
  pose proof (reach_handleSubmit _ (Some "d1") "" "" "Ithaca" "Boston"
                (Some 1000) 3 "r1" [] H0) as H1.
  pose proof (reach_handleBooking _ (Some ride1) (Some "p1") "" "" (Some 2) "q1"
                [] H1) as H2.
  pose proof (reach_handleBooking _ (Some ride1) (Some "p2") "" "" (Some 2) "q2"
                [] H2) as H3.
  pose proof db0_built as E. cbv zeta in E. fold nobody in H3.
  now rewrite E in H3.
Qed.







End Invariant.

(** * Further properties of the code *)

(** ** What the dashboard loads and offers *)

Section DashboardLoad.
Import DriverDashboard Inventory.

Lemma fetchData_rides_ordered
    (u : uuid) (now : timestamp) (requestsError : option Js.error)
    (d : Pg.db) (st0 : state) :
  rides (fst (fetchData (Some u) now None requestsError d st0))
  = Pg.order_by_departure
      (filter (fun r => Pg.option_uuid_eqb (Rides.driver_id r) (Some u)
                        && (now <? Rides.departure_time r))
              (Pg.rides d)).
Proof.
  unfold fetchData.
  destruct (Pg.order_by_departure _); [reflexivity|].
  now destruct requestsError.
Qed.

Lemma fetchData_rides_iff
    (u : uuid) (now : timestamp) (requestsError : option Js.error)
    (d : Pg.db) (st0 : state) (ride : Rides.row) :
  In ride (rides (fst (fetchData (Some u) now None requestsError d st0))) <->
  In ride (Pg.rides d) /\ Rides.driver_id ride = Some u
  /\ now < Rides.departure_time ride.
Proof.
  rewrite fetchData_rides_ordered, In_order_by_departure, filter_In.
  rewrite andb_true_iff, option_uuid_eqb_Some, Z.ltb_lt. tauto.
Qed.

(** X1. Whatever the dashboard held before and whether or not the requests
    query then fails, [fetchData] leaves in [rides] exactly the rows of the
    table that belong to the signed-in driver and depart after now, each
    once, earliest departure first. *)
Theorem dashboard_loads_own_upcoming_rides
    (u : uuid) (now : timestamp) (requestsError : option Js.error)
    (d : Pg.db) (st0 : state) :
  let st := fst (fetchData (Some u) now None requestsError d st0) in
  let mine := fun r => Pg.option_uuid_eqb (Rides.driver_id r) (Some u)
                       && (now <? Rides.departure_time r) in
  (forall ride, In ride (rides st) <->
                In ride (Pg.rides d) /\ Rides.driver_id ride = Some u
                /\ now < Rides.departure_time ride)
  /\ Permutation (rides st) (filter mine (Pg.rides d))
  /\ StronglySorted Pg.departs_before (rides st).
Proof.
  intros st mine. split; [|split].
  - intros ride. apply fetchData_rides_iff.
  - subst st. rewrite fetchData_rides_ordered. apply order_by_departure_perm.
  - subst st. rewrite fetchData_rides_ordered. apply order_by_departure_sorted.
Qed.

Lemma lookup_push (k k' : uuid) (req : Request) (o : list (uuid * list Request)) :
  lookup k (push k' req o)
  = if String.eqb k' k then
      Some (match lookup k o with Some v => v ++ [req] | None => [req] end)
    else lookup k o.
Proof.
  unfold lookup. induction o as [|[k0 v0] o IH]; simpl.
  - destruct (String.eqb k' k); reflexivity.
  - destruct (String.eqb k0 k') eqn:E0; simpl.
    + apply String.eqb_eq in E0. subst k0.
      destruct (String.eqb k' k); reflexivity.
    + destruct (String.eqb k0 k) eqn:E1; simpl.
      * apply String.eqb_eq in E1. subst k0.
        rewrite String.eqb_sym in E0. now rewrite E0.
      * exact IH.
Qed.

Lemma push_keys (k : uuid) (req : Request) (o : list (uuid * list Request)) :
  map fst (push k req o)
  = if Pg.has_id k (map fst o) then map fst o else map fst o ++ [k].
Proof.
  unfold Pg.has_id. induction o as [|[k0 v0] o IH]; simpl; [reflexivity|].
  rewrite (String.eqb_sym k k0).
  destruct (String.eqb k0 k); simpl; [reflexivity|].
  rewrite IH. now destruct (existsb (String.eqb k) (map fst o)).
Qed.

Lemma lookup_fold (k : uuid) (l : list Request) (o : list (uuid * list Request)) :
  lookup k (fold_left (fun grouped req =>
                         push (Requests.ride_id (row req)) req grouped) l o)
  = let mine := filter (fun r => String.eqb (Requests.ride_id (row r)) k) l in
    match lookup k o with
    | Some v => Some (v ++ mine)
    | None => match mine with [] => None | _ :: _ => Some mine end
    end.
Proof.
  revert o. induction l as [|x l IH]; intros o; simpl.
  - destruct (lookup k o); [now rewrite app_nil_r | reflexivity].
  - rewrite IH, lookup_push.
    destruct (String.eqb (Requests.ride_id (row x)) k); [|reflexivity].
    destruct (lookup k o) as [v|]; simpl; [now rewrite <- app_assoc | reflexivity].
Qed.

Lemma keys_fold (l : list Request) (o : list (uuid * list Request)) :
  NoDup (map fst o) ->
  NoDup (map fst (fold_left (fun grouped req =>
                               push (Requests.ride_id (row req)) req grouped) l o)).
Proof.
  revert o. induction l as [|x l IH]; intros o Ho; simpl; [assumption|].
  apply IH. rewrite push_keys.
  destruct (Pg.has_id _ (map fst o)) eqn:E; [assumption|].
  apply NoDup_app; [assumption | repeat constructor; intros [] |].
  intros y Hy [<-|[]]. apply has_id_In in Hy. congruence.
Qed.

Lemma lookup_group (l : list Request) (k : uuid) :
  lookup k (group l)
  = match filter (fun r => String.eqb (Requests.ride_id (row r)) k) l with
    | [] => None
    | v => Some v
    end.
Proof.
  unfold group. rewrite lookup_fold. simpl. now destruct (filter _ l).
Qed.

(** X2. Grouping and looking up again: under the id of a ride the grouped
    object holds exactly the loaded requests against that ride, in the order
    they were loaded; a ride without requests has no key; no key occurs
    twice. *)
Theorem grouped_requests_found_under_their_ride (l : list Request) (k : uuid) :
  lookup k (group l)
  = match filter (fun r => String.eqb (Requests.ride_id (row r)) k) l with
    | [] => None
    | v => Some v
    end
  /\ NoDup (map fst (group l)).
Proof.
  split; [apply lookup_group|].
  unfold group. apply keys_fold. constructor.
Qed.

Lemma buttons_iff
    (u : uuid) (now : timestamp) (d : Pg.db) (st0 : state)
    (requestId rideId : uuid) :
  let st := fst (fetchData (Some u) now None None d st0) in
  In (requestId, rideId) (decision_buttons (Some u) st) <->
  exists ride q,
    In ride (Pg.rides d) /\ Rides.id ride = rideId
    /\ Rides.driver_id ride = Some u /\ now < Rides.departure_time ride
    /\ In q (Pg.requests d) /\ Requests.id q = requestId
    /\ Requests.ride_id q = rideId /\ Requests.status q = Requests.pending.
Proof.
  intros st.
  assert (Hrides := fetchData_rides_iff u now None d st0). fold st in Hrides.
  split.
  - intros Hb.
    destruct (buttons_need_rides _ _ _ Hb) as [Hne _].
    pose proof (fetchData_loaded u now d st0 Hne) as Hreqs. fold st in Hreqs.
    destruct (decision_buttons_pending _ _ _ _ Hb)
      as [ride [requests [request [Hride [Hid [Hlook [Hin [Hrid Hst]]]]]]]].
    apply lookup_In in Hlook. rewrite Hreqs in Hlook.
    destruct (group_members _ _ _ _ Hlook Hin) as [Hmem Hk].
    apply in_map_iff in Hmem. destruct Hmem as [q [Hq Hqin]].
    apply filter_In in Hqin. destruct Hqin as [Hqin _].
    apply Hrides in Hride. destruct Hride as [Hr [Hdrv Hdep]].
    exists ride, q. subst request. simpl in *. repeat split; assumption.
  - intros [ride [q [Hr [Hid [Hdrv [Hdep [Hq [Hqid [Hrid Hst]]]]]]]]].
    assert (Hride : In ride (rides st)) by (apply Hrides; tauto).
    assert (Hne : rides st <> []) by (intros E; rewrite E in Hride; destruct Hride).
    pose proof (fetchData_loaded u now d st0 Hne) as Hreqs. fold st in Hreqs.
    unfold decision_buttons. apply in_flat_map. exists ride. split; [assumption|].
    rewrite Hreqs.
    rewrite lookup_group.
    set (l := map (join_profile d) _).
    assert (Hl : In (join_profile d q)
                    (filter (fun r => String.eqb (Requests.ride_id (row r))
                                                 (Rides.id ride)) l)).
    { apply filter_In. split.
      - subst l. apply in_map. apply filter_In. split; [assumption|].
        apply has_id_In. rewrite Hrid, <- Hid. now apply in_map.
      - simpl. rewrite Hrid, Hid. apply String.eqb_refl. }
    destruct (filter _ l) as [|x v] eqn:E; [destruct Hl|].
    apply in_map_iff. exists (join_profile d q). split.
    + simpl. now rewrite Hqid, Hid.
    + apply filter_In. split; [exact Hl|]. simpl. now rewrite Hst.
Qed.

(** X4. When the signed-in driver has no ride still to depart, [fetchData]
    empties [rides] but leaves [requestsByRide] as it was, so requests of an
    earlier load stay in the state.  They cannot be acted on: no button is
    rendered, and [handleRequestDecision] called with any ids returns without
    a toast and without a write. *)
Theorem no_upcoming_ride_no_decision
    (u : uuid) (now : timestamp) (requestsError : option Js.error)
    (d : Pg.db) (st0 : state) :
  (forall ride, In ride (Pg.rides d) -> Rides.driver_id ride = Some u ->
                Rides.departure_time ride <= now) ->
  let st := fst (fetchData (Some u) now None requestsError d st0) in
  rides st = []
  /\ requestsByRide st = requestsByRide st0
  /\ decision_buttons (Some u) st = []
  /\ forall requestId rideId decision net d',
       Js.run net (handleRequestDecision st requestId rideId decision) d'
       = (d', None).
Proof.
  intros Hpast st.
  assert (Hrides := fetchData_rides_iff u now requestsError d st0). fold st in Hrides.
  assert (Hnil : rides st = []).
  { destruct (rides st) as [|x l] eqn:E; [reflexivity|].
    destruct (proj1 (Hrides x) (or_introl eq_refl)) as [Hin [Hdrv Hdep]].
    specialize (Hpast x Hin Hdrv). lia. }
  split; [exact Hnil|]. split; [|split].
  - subst st. unfold fetchData in *.
    destruct (Pg.order_by_departure _); [reflexivity|].
    destruct requestsError; discriminate Hnil.
  - unfold decision_buttons. now rewrite Hnil.
  - intros requestId rideId decision net d'.
    unfold handleRequestDecision, found_ride. rewrite Hnil. simpl.
    now destruct (found_request st requestId).
Qed.

Lemma no_upcoming_ride_no_decision_witness :
  (forall ride, In ride (Pg.rides Scenario.db0) ->
                Rides.driver_id ride = Some "d1" ->
                Rides.departure_time ride <= 5000)
  /\ (let st := fst (fetchData (Some "d1") 5000 None None Scenario.db0
                       Scenario.loaded) in
      rides st = []
      /\ requestsByRide st = [("r1", [Scenario.loaded1; Scenario.loaded2])]
      /\ Js.run [] (handleRequestDecision st "q1" "r1" approve) Scenario.db0
         = (Scenario.db0, None)).
Proof.
  assert (H : forall ride, In ride (Pg.rides Scenario.db0) ->
                           Rides.driver_id ride = Some "d1" ->
                           Rides.departure_time ride <= 5000).
  { intros ride [<-|[]] _. vm_compute. discriminate. }
  split; [exact H|].
  pose proof (no_upcoming_ride_no_decision "d1" 5000 None Scenario.db0
                Scenario.loaded H) as [H1 [H2 [_ H4]]].
  split; [exact H1|]. split; [exact H2|]. apply H4.
Defined.
End DashboardLoad.

(** ** What a decision can and cannot do *)

Section DecisionEffects.
Import DriverDashboard Inventory.

Lemma exec_seats_cases (lost : bool) (i : uuid) (n : Z) (d : Pg.db) :
  (exists e, Js.exec lost (Pg.UpdateRideSeats i n) d = (d, Some e))
  \/ (Pg.update_ride_seats i n d
      = inr (Pg.mk (Pg.profiles d) (map (Pg.set_available_seats i n) (Pg.rides d))
               (Pg.requests d))
      /\ Js.exec lost (Pg.UpdateRideSeats i n) d
         = (Pg.mk (Pg.profiles d) (map (Pg.set_available_seats i n) (Pg.rides d))
              (Pg.requests d), None)).
Proof.
  unfold Js.exec. destruct lost; [left; eexists; reflexivity|].
  cbn [Pg.apply_write]. unfold Pg.update_ride_seats.
  destruct (Pg.first_violation _); [left; eexists; reflexivity|].
  right. now split.
Qed.

Lemma decision_effect
    (st : state) (requestId rideId : uuid) (decision : decision)
    (net : list bool) (d : Pg.db) :
  let d' := fst (Js.run net (handleRequestDecision st requestId rideId decision) d) in
  Pg.profiles d' = Pg.profiles d
  /\ (Pg.requests d' = Pg.requests d
      \/ exists s, s <> Requests.pending
                   /\ Pg.requests d'
                      = map (Pg.set_status requestId s) (Pg.requests d))
  /\ (Pg.rides d' = Pg.rides d
      \/ exists n, 0 <= n /\ decision = approve
                   /\ Pg.rides d'
                      = map (Pg.set_available_seats rideId n) (Pg.rides d)).
Proof.
  intros d'. subst d'.
  destruct (found_request st requestId) as [request|] eqn:Hreq;
    [|unfold handleRequestDecision; rewrite Hreq; simpl; tauto].
  destruct (found_ride st rideId) as [ride|] eqn:Hride;
    [|unfold handleRequestDecision; rewrite Hreq, Hride; simpl; tauto].
  assert (Hstatus : forall s, s <> Requests.pending ->
            let d1 := fst (Js.exec (hd false net)
                             (Pg.UpdateRequestStatus requestId s) d) in
            Pg.profiles d1 = Pg.profiles d
            /\ (Pg.requests d1 = Pg.requests d
                \/ exists s, s <> Requests.pending
                             /\ Pg.requests d1
                                = map (Pg.set_status requestId s) (Pg.requests d))
            /\ Pg.rides d1 = Pg.rides d).
  { intros s Hs. rewrite exec_status. destruct (hd false net); simpl; [tauto|].
    split; [reflexivity|]. split; [|reflexivity]. right. now exists s. }
  destruct decision.
  - destruct (Z.le_gt_cases (Requests.seats_requested (row request))
                            (Rides.available_seats ride)) as [Hle|Hgt].
    + rewrite (enough_seats_run st _ _ net d _ ride Hreq Hride Hle).
      destruct (Hstatus Requests.approved) as [Hp [Hq Hr]]; [discriminate|].
      rewrite exec_status in *.
      destruct (hd false net); cbn [fst snd] in *; [tauto|].
      set (d1 := Pg.mk _ _ _) in *.
      set (n := Rides.available_seats ride - Requests.seats_requested (row request)).
      destruct (exec_seats_cases (hd false (tl net)) rideId n d1)
        as [[e He]|[_ He]]; rewrite He; cbn [fst snd].
      * tauto.
      * split; [reflexivity|]. split; [exact Hq|]. right.
        exists n. split; [subst n; lia|]. now split.
    + rewrite (not_enough_seats_run st _ _ net d _ ride Hreq Hride Hgt).
      destruct (Hstatus Requests.denied) as [Hp [Hq Hr]]; [discriminate|].
      cbn [fst]. tauto.
  - unfold handleRequestDecision. rewrite Hreq, Hride. cbn [Js.run].
    destruct (Hstatus Requests.denied) as [Hp [Hq Hr]]; [discriminate|].
    destruct (Js.exec (hd false net) _ d) as [d1 [e|]]; cbn [fst] in *.
    + simpl. tauto.
    + cbn beta iota. destruct (profiles request); simpl; tauto.
Qed.

(** X5. Whatever the state it is called from, whatever it is asked and
    whichever writes are lost, [handleRequestDecision] adds and removes no
    row and leaves [profiles] alone.  All it can change is the status of the
    requests with the given id, set to approved or denied and never back to
    pending, and, for an approval only, the available seats of the rides with
    the given id, set to a number that is not negative. *)
Theorem decision_rewrites_one_status_and_one_seat_count
    (st : state) (requestId rideId : uuid) (decision : decision)
    (net : list bool) (d : Pg.db) :
  let d' := fst (Js.run net (handleRequestDecision st requestId rideId decision) d) in
  Pg.profiles d' = Pg.profiles d
  /\ (Pg.requests d' = Pg.requests d
      \/ exists s, s <> Requests.pending
                   /\ Pg.requests d'
                      = map (Pg.set_status requestId s) (Pg.requests d))
  /\ (Pg.rides d' = Pg.rides d
      \/ exists n, 0 <= n /\ decision = approve
                   /\ Pg.rides d'
                      = map (Pg.set_available_seats rideId n) (Pg.rides d)).
Proof. exact (decision_effect st requestId rideId decision net d). Qed.

Lemma exec_consistent (lost : bool) (w : Pg.write) (d : Pg.db) :
  consistent d -> consistent (fst (Js.exec lost w d)).
Proof.
  intros Hc. unfold Js.exec. destruct lost; [exact Hc|].
  destruct (Pg.apply_write w d) as [e|d'] eqn:E; [exact Hc|]. cbn [fst].
  destruct w; cbn [Pg.apply_write] in E.
  - exact (proj1 (insert_ride_consistent _ _ _ E Hc)).
  - destruct seats_requested as [n|]; [|discriminate E].
    exact (proj1 (insert_request_consistent _ _ _ _ _ _ _ _ E Hc)).
  - exact (update_request_status_consistent _ _ _ _ E Hc).
  - exact (update_ride_seats_consistent _ _ _ _ E Hc).
Qed.

Lemma run_consistent (p : Js.proc) (net : list bool) (d : Pg.db) :
  consistent d -> consistent (fst (Js.run net p d)).
Proof.
  revert net d. induction p as [t|w k IH]; intros net d Hc; [exact Hc|].
  cbn [Js.run]. pose proof (exec_consistent (hd false net) w d Hc) as H1.
  destruct (Js.exec (hd false net) w d) as [d1 e]. now apply IH.
Qed.

Lemma run2_consistent (sched : list bool) (p q : Js.proc) (d : Pg.db) :
  consistent d -> consistent (fst (fst (Js.run2 sched p q d))).
Proof.
  revert p q d. induction sched as [|b sched IH]; intros p q d Hc.
  - cbn [Js.run2]. pose proof (run_consistent p [] d Hc) as H1.
    destruct (Js.run [] p d) as [d1 t1].
    pose proof (run_consistent q [] d1 H1) as H2.
    now destruct (Js.run [] q d1) as [d2 t2].
  - destruct b; cbn [Js.run2].
    + destruct p as [t1|w k].
      * pose proof (run_consistent q [] d Hc) as H2.
        now destruct (Js.run [] q d) as [d2 t2].
      * pose proof (exec_consistent false w d Hc) as H1.
        destruct (Js.exec false w d) as [d1 e]. now apply IH.
    + destruct q as [t2|w k].
      * pose proof (run_consistent p [] d Hc) as H1.
        now destruct (Js.run [] p d) as [d1 t1].
      * pose proof (exec_consistent false w d Hc) as H1.
        destruct (Js.exec false w d) as [d1 e]. now apply IH.
Qed.

(** X6. The constraints of the schema survive every decision.  From tables
    that satisfy them (the primary keys of rides and requests; the foreign
    keys from a request to its ride and to its passenger's profile and from
    a ride to its driver's profile; at most one request for a ride and a
    registered passenger; every request for at least one seat; every ride
    with a positive total, a cost that is not negative and its available
    seats between zero and the total), a call of [handleRequestDecision]
    from any state, current or stale, with any writes lost, and two such
    calls interleaved in any order, leave tables that satisfy them still: a
    ride's available seats never go below zero or above its total. *)
Theorem decisions_keep_the_schema
    (st st' : state) (requestId rideId requestId' rideId' : uuid)
    (decision decision' : decision) (net sched : list bool) (d : Pg.db) :
  consistent d ->
  let p := handleRequestDecision st requestId rideId decision in
  let q := handleRequestDecision st' requestId' rideId' decision' in
  let bounded := fun d' => forall r, In r (Pg.rides d') ->
                                      0 <= Rides.available_seats r
                                           <= Rides.total_seats r in
  consistent (fst (Js.run net p d))
  /\ bounded (fst (Js.run net p d))
  /\ consistent (fst (fst (Js.run2 sched p q d)))
  /\ bounded (fst (fst (Js.run2 sched p q d))).
Proof.
  intros Hc p q bounded.
  assert (Hb : forall d', consistent d' -> bounded d').
  { intros d' Hc' r Hr. apply rides_checks_bounds. now apply (rides_check d' Hc'). }
  pose proof (run_consistent p net d Hc) as H1.
  pose proof (run2_consistent sched p q d Hc) as H2.
  split; [exact H1|]. split; [now apply Hb|]. split; [exact H2 | now apply Hb].
Qed.

Lemma decisions_keep_the_schema_witness :
  consistent Scenario.db0
  /\ (let d2 := fst (fst (Js.run2 [true; false] Scenario.approve1 Scenario.approve2
                            Scenario.db0)) in
      consistent d2
      /\ map Rides.available_seats (Pg.rides d2) = [1]).
Proof.
  pose proof (proj1 (reachable_sound _ db0_reachable)) as Hc.
  split; [exact Hc|]. split; [|reflexivity].
  exact (proj1 (proj2 (proj2
           (decisions_keep_the_schema Scenario.loaded Scenario.loaded "q1" "r1"
              "q2" "r1" approve approve [] [true; false] Scenario.db0 Hc)))).
Defined.
End DecisionEffects.

(** ** Requests without a profile *)

Section GuestRequests.
Import DriverDashboard Inventory.

Lemma greet_fst (o : option string) (t : Js.toast) (net : list bool) (d : Pg.db) :
  fst (Js.run net match o with
                  | Some _ => Js.Return (Some t)
                  | None => Js.Return (Some (Js.ToastError Js.TypeError))
                  end d) = d.
Proof. now destruct o. Qed.

(** X7. A decision on a request whose joined [profiles] is [null], as it is
    for every guest's request, never shows "Request approved!" or "Request
    denied": the toast text reads [request.profiles.full_name] after the
    writes.  When the resulting [TypeError] is what the error toast shows,
    the decision has nevertheless been committed: the request carries the
    new status, and for an approval the ride's seats have been rewritten.  A
    deny whose write arrives always ends that way. *)
Theorem guest_request_decided_behind_an_error_toast
    (st : state) (requestId rideId : uuid) (decision : decision)
    (net : list bool) (d : Pg.db) (request : Request) (ride : Rides.row) :
  found_request st requestId = Some request ->
  found_ride st rideId = Some ride ->
  profiles request = None ->
  let r := Js.run net (handleRequestDecision st requestId rideId decision) d in
  snd r <> Some Js.ToastRequestApproved
  /\ snd r <> Some Js.ToastRequestDenied
  /\ (snd r = Some (Js.ToastError Js.TypeError) ->
      sets_status requestId
        (match decision with
         | approve => Requests.approved
         | deny => Requests.denied
         end) d (fst r)
      /\ (decision = approve ->
          Pg.rides (fst r)
          = map (Pg.set_available_seats rideId
                   (Rides.available_seats ride
                    - Requests.seats_requested (row request)))
                (Pg.rides d)))
  /\ (decision = deny -> hd false net = false ->
      snd r = Some (Js.ToastError Js.TypeError)).
Proof.
  intros Hreq Hride Hnull r. subst r.
  destruct decision.
  - destruct (Z.le_gt_cases (Requests.seats_requested (row request))
                            (Rides.available_seats ride)) as [Hle|Hgt].
    + rewrite (enough_seats_run st _ _ net d _ ride Hreq Hride Hle).
      rewrite exec_status, Hnull.
      destruct (hd false net); cbn [fst snd].
      * repeat split; try discriminate.
      * set (d1 := Pg.mk _ _ _).
        assert (Hup : Pg.update_request_status requestId Requests.approved d
                      = inr d1) by reflexivity.
        apply update_sets_status in Hup.
        set (n := Rides.available_seats ride
                  - Requests.seats_requested (row request)).
        destruct (exec_seats_cases (hd false (tl net)) rideId n d1)
          as [[e He]|[_ He]]; rewrite He; cbn [fst snd].
        -- split; [discriminate|]. split; [discriminate|].
           split; [|discriminate].
           intros [= ->]. exfalso. unfold Js.exec in He.
           destruct (hd false (tl net)); [discriminate He|].
           destruct (Pg.apply_write _ d1); discriminate He.
        -- split; [discriminate|]. split; [discriminate|].
           split; [|discriminate]. intros _. now split.
    + rewrite (not_enough_seats_run st _ _ net d _ ride Hreq Hride Hgt).
      cbn [fst snd]. repeat split; discriminate.
  - unfold handleRequestDecision. rewrite Hreq, Hride, Hnull. cbn [Js.run].
    rewrite exec_status. destruct (hd false net); cbn [Js.run fst snd].
    + repeat split; discriminate.
    + split; [discriminate|]. split; [discriminate|]. split; [|reflexivity].
      intros _. split; [|discriminate]. now apply update_sets_status.
Qed.

Lemma guest_request_decided_behind_an_error_toast_witness :
  found_request Scenario.loaded_guest "g1"
  = Some (mkRequest Scenario.guest_request None)
  /\ found_ride Scenario.loaded_guest "r1" = Some Scenario.ride1
  /\ (let r := Js.run [] (handleRequestDecision Scenario.loaded_guest "g1" "r1"
                            approve) Scenario.db_guest in
      snd r = Some (Js.ToastError Js.TypeError)
      /\ map Requests.status (Pg.requests (fst r)) = [Requests.approved]
      /\ sets_status "g1" Requests.approved Scenario.db_guest (fst r)).
Proof.
  refine (conj eq_refl (conj eq_refl _)).
  split; [reflexivity|]. split; [reflexivity|].
  exact (proj1 (proj1 (proj2 (proj2
           (guest_request_decided_behind_an_error_toast Scenario.loaded_guest
              "g1" "r1" approve [] Scenario.db_guest
              (mkRequest Scenario.guest_request None) Scenario.ride1
              eq_refl eq_refl eq_refl))) eq_refl)).
Defined.

Lemma full_names_error (l : list Request) (e : Js.error) :
  full_names l = inl e -> e = Js.TypeError /\ exists r, In r l /\ profiles r = None.
Proof.
  induction l as [|r l IH]; simpl; [discriminate|].
  destruct (profiles r) as [name|] eqn:E.
  - destruct (full_names l) as [e'|names]; [|discriminate].
    intros [= <-]. destruct (IH eq_refl) as [He [x [Hx Hn]]].
    split; [assumption|]. exists x. split; [now right | assumption].
  - intros [= <-]. split; [reflexivity|]. exists r. split; [now left | assumption].
Qed.

Lemma full_names_throws (l : list Request) (r : Request) :
  In r l -> profiles r = None -> full_names l = inl Js.TypeError.
Proof.
  induction l as [|x l IH]; simpl; intros Hin Hn; [destruct Hin|].
  destruct Hin as [->|Hin]; [now rewrite Hn|].
  destruct (profiles x); [|reflexivity]. now rewrite (IH Hin Hn).
Qed.

(** X8. The "Passengers:" line of a ride card cannot be built, the render
    throwing a [TypeError], exactly when one of the ride's approved requests
    has no joined profile.  A request without a [passenger_id] never has
    one: once a guest's request is approved, the card of its ride no longer
    renders. *)
Theorem passengers_line_throws_on_an_approved_guest (requests : list Request) :
  (approvedPassengers requests = inl Js.TypeError <->
   exists r, In r requests
             /\ Requests.status (row r) = Requests.approved
             /\ profiles r = None)
  /\ (forall e, approvedPassengers requests = inl e -> e = Js.TypeError)
  /\ (forall (d : Pg.db) (q : Requests.row),
         Requests.passenger_id q = None -> profiles (join_profile d q) = None).
Proof.
  unfold approvedPassengers.
  set (l := filter _ requests).
  assert (Hl : forall r, In r l <->
                         In r requests
                         /\ Requests.status (row r) = Requests.approved).
  { intros r. subst l. now rewrite filter_In, status_eqb_eq. }
  split; [|split].
  - split.
    + destruct (full_names l) as [e|names] eqn:E; [|discriminate].
      intros _. destruct (full_names_error l e E) as [_ [r [Hr Hn]]].
      exists r. apply Hl in Hr. tauto.
    + intros [r [Hr [Hst Hn]]].
      assert (Hin : In r l) by (apply Hl; now split).
      now rewrite (full_names_throws l r Hin Hn).
  - intros e. destruct (full_names l) as [e'|names] eqn:E; [|discriminate].
    intros [= <-]. now destruct (full_names_error l e' E).
  - intros d q Hq. unfold join_profile. simpl. now rewrite Hq.
Qed.
End GuestRequests.

(** ** What is on screen *)

Section Render.
Import DriverDashboard Inventory.

Lemma cards_inr (st : state) (l : list Rides.row) (buttons : list (uuid * uuid)) :
  cards st l = inr buttons ->
  forall u, buttons = decision_buttons (Some u) (mk l (requestsByRide st)).
Proof.
  intros H u. unfold decision_buttons. cbn [rides requestsByRide].
  revert buttons H. induction l as [|ride l IH]; simpl; intros buttons.
  - now intros [= <-].
  - destruct (card st ride) as [e|b] eqn:Ec; [discriminate|].
    destruct (cards st l) as [e|rest]; [discriminate|].
    intros [= <-]. rewrite <- (IH rest eq_refl). f_equal.
    unfold card in Ec.
    destruct (approvedPassengers _); [discriminate Ec|].
    destruct (Rides.cost_per_person ride); [|discriminate Ec].
    now injection Ec as <-.
Qed.

Lemma render_inr (user : option uuid) (st : state) (buttons : list (uuid * uuid)) :
  render user st = inr buttons -> buttons = decision_buttons user st.
Proof.
  unfold render. destruct user as [u|]; [|now intros [= <-]].
  intros H. rewrite (cards_inr _ _ _ H u). now destruct st.
Qed.

Lemma card_throws (st : state) (ride : Rides.row) (e : Js.error) :
  card st ride = inl e <->
  e = Js.TypeError
  /\ (Rides.cost_per_person ride = None
      \/ exists r, In r match lookup (Rides.id ride) (requestsByRide st) with
                        | Some l => l
                        | None => []
                        end
                   /\ Requests.status (row r) = Requests.approved
                   /\ profiles r = None).
Proof.
  unfold card, approvedPassengers.
  set (requests := match lookup _ _ with Some l => l | None => [] end).
  set (l := filter _ requests).
  assert (Hl : forall r, In r l <->
                         In r requests
                         /\ Requests.status (row r) = Requests.approved).
  { intros r. subst l. now rewrite filter_In, status_eqb_eq. }
  destruct (full_names l) as [e'|names] eqn:E.
  - destruct (full_names_error l e' E) as [-> [r [Hr Hn]]].
    split; [intros [= <-] | now intros [-> _]].
    split; [reflexivity|]. right. exists r. apply Hl in Hr. tauto.
  - assert (Hnone : ~ exists r, In r requests
                                /\ Requests.status (row r) = Requests.approved
                                /\ profiles r = None).
    { intros [r [Hr [Hst Hn]]].
      assert (Hin : In r l) by (apply Hl; now split).
      rewrite (full_names_throws l r Hin Hn) in E. discriminate E. }
    destruct (Rides.cost_per_person ride) as [c|].
    + split; [discriminate|]. intros [_ [H|H]]; [discriminate H | contradiction].
    + split; [intros [= <-]; split; [reflexivity | now left] | now intros [-> _]].
Qed.

Lemma cards_throws (st : state) (l : list Rides.row) :
  (forall e, cards st l = inl e -> e = Js.TypeError)
  /\ (cards st l = inl Js.TypeError <->
      exists ride, In ride l /\ card st ride = inl Js.TypeError).
Proof.
  induction l as [|ride l [IHe IH]]; simpl.
  - split; [discriminate|]. split; [discriminate | intros [r [[] _]]].
  - destruct (card st ride) as [e|b] eqn:Ec.
    + apply card_throws in Ec as Hc. destruct Hc as [-> _].
      split; [now intros e [= <-]|].
      split; [|reflexivity].
      intros _. exists ride. split; [now left | exact Ec].
    + destruct (cards st l) as [e|rest].
      * rewrite (IHe e eq_refl) in *.
        split; [now intros e' [= <-]|].
        split; [|reflexivity]. intros _.
        destruct (proj1 IH eq_refl) as [r [Hr Hc]]. exists r. split; [now right | assumption].
      * split; [discriminate|]. split; [discriminate|].
        intros [r [[<-|Hr] Hc]]; [congruence|].
        assert (H : inr rest = inl Js.TypeError :> Js.error + list (uuid * uuid))
          by (apply IH; now exists r).
        discriminate H.
Qed.

(** The requests a fresh load holds under one of its rides are the rows of
    the table against that ride, each with its profile joined. *)
Lemma loaded_requests_iff (u : uuid) (now : timestamp) (d : Pg.db) (st0 : state)
    (ride : Rides.row) (r : Request) :
  let st := fst (fetchData (Some u) now None None d st0) in
  In ride (rides st) ->
  In r match lookup (Rides.id ride) (requestsByRide st) with
       | Some l => l
       | None => []
       end <->
  exists q, In q (Pg.requests d) /\ Requests.ride_id q = Rides.id ride
            /\ r = join_profile d q.
Proof.
  intros st Hride.
  assert (Hne : rides st <> []) by (intros E; rewrite E in Hride; destruct Hride).
  pose proof (fetchData_loaded u now d st0 Hne) as Hreqs. fold st in Hreqs.
  rewrite Hreqs, lookup_group.
  set (l := map (join_profile d) _).
  set (f := fun r0 : Request => String.eqb (Requests.ride_id (row r0)) (Rides.id ride)).
  assert (E : match match filter f l with [] => None | v => Some v end with
              | Some l0 => l0
              | None => []
              end = filter f l) by now destruct (filter f l).
  rewrite E. clear E. rewrite filter_In. subst l f. rewrite in_map_iff.
  split.
  - intros [[q [<- Hq]] Hk]. apply filter_In in Hq. destruct Hq as [Hq _].
    apply String.eqb_eq in Hk. exists q. now repeat split.
  - intros [q [Hq [Hk ->]]]. split.
    + exists q. split; [reflexivity|]. apply filter_In. split; [assumption|].
      apply has_id_In. rewrite Hk. now apply in_map.
    + simpl. rewrite Hk. apply String.eqb_refl.
Qed.

(** X3. What a dashboard just loaded without error puts on screen.  The
    render throws, a [TypeError] and nothing else, exactly when one of the
    signed-in driver's rides still to depart has no cost stored or has an
    approved request without a joined profile; the dashboard then shows
    nothing.  Otherwise there is an Approve/Deny pair for a request and a
    ride exactly when the ride is a row of the table owned by the driver and
    still to depart, and the request is a row of the table against that ride
    whose status is pending. *)
Theorem buttons_are_the_pending_requests_of_upcoming_rides
    (u : uuid) (now : timestamp) (d : Pg.db) (st0 : state) :
  let st := fst (fetchData (Some u) now None None d st0) in
  (render (Some u) st = inl Js.TypeError <->
   exists ride,
     In ride (Pg.rides d) /\ Rides.driver_id ride = Some u
     /\ now < Rides.departure_time ride
     /\ (Rides.cost_per_person ride = None
         \/ exists q, In q (Pg.requests d)
                      /\ Requests.ride_id q = Rides.id ride
                      /\ Requests.status q = Requests.approved
                      /\ profiles (join_profile d q) = None))
  /\ (forall e, render (Some u) st = inl e -> e = Js.TypeError)
  /\ (forall buttons,
         render (Some u) st = inr buttons ->
         forall requestId rideId,
           In (requestId, rideId) buttons <->
           exists ride q,
             In ride (Pg.rides d) /\ Rides.id ride = rideId
             /\ Rides.driver_id ride = Some u /\ now < Rides.departure_time ride
             /\ In q (Pg.requests d) /\ Requests.id q = requestId
             /\ Requests.ride_id q = rideId
             /\ Requests.status q = Requests.pending).
Proof.
  intros st.
  assert (Hrides := fetchData_rides_iff u now None d st0). fold st in Hrides.
  destruct (cards_throws st (rides st)) as [He Hthrow].
  split; [|split].
  - unfold render. rewrite Hthrow. split.
    + intros [ride [Hride Hc]]. exists ride.
      apply Hrides in Hride as Hmine. destruct Hmine as [Hin [Hdrv Hdep]].
      repeat (split; [assumption|]).
      apply card_throws in Hc. destruct Hc as [_ [Hc|[r [Hr [Hst Hn]]]]];
        [now left|]. right.
      apply (loaded_requests_iff u now d st0 ride r Hride) in Hr.
      destruct Hr as [q [Hq [Hk ->]]]. exists q. now repeat split.
    + intros [ride [Hin [Hdrv [Hdep Hc]]]].
      assert (Hride : In ride (rides st)) by (apply Hrides; tauto).
      exists ride. split; [assumption|]. apply card_throws.
      split; [reflexivity|]. destruct Hc as [Hc|[q [Hq [Hk [Hst Hn]]]]];
        [now left|]. right.
      exists (join_profile d q). split; [|now split].
      apply (loaded_requests_iff u now d st0 ride _ Hride). now exists q.
  - exact He.
  - intros buttons Hb requestId rideId. apply render_inr in Hb. subst buttons.
    apply buttons_iff.
Qed.
End Render.

(** ** Decisions repeated and decisions interleaved *)

Section Composition.
Import DriverDashboard Inventory.

Lemma set_status_twice (i : uuid) (s : Requests.request_status)
    (l : list Requests.row) :
  map (Pg.set_status i s) (map (Pg.set_status i s) l) = map (Pg.set_status i s) l.
Proof.
  rewrite map_map. apply map_ext. intros q. unfold Pg.set_status.
  destruct (String.eqb (Requests.id q) i) eqn:E; simpl; now rewrite E.
Qed.

Lemma set_available_seats_twice (i : uuid) (n : Z) (l : list Rides.row) :
  map (Pg.set_available_seats i n) (map (Pg.set_available_seats i n) l)
  = map (Pg.set_available_seats i n) l.
Proof.
  rewrite map_map. apply map_ext. intros r. unfold Pg.set_available_seats.
  destruct (String.eqb (Rides.id r) i) eqn:E; simpl; now rewrite E.
Qed.

Lemma hit_after_set (i : uuid) (n : Z) (l : list Rides.row) :
  map (Rides.with_available_seats n)
    (filter (fun r => String.eqb (Rides.id r) i)
            (map (Pg.set_available_seats i n) l))
  = map (Rides.with_available_seats n)
      (filter (fun r => String.eqb (Rides.id r) i) l).
Proof.
  assert (Hid : forall r, Rides.id (Pg.set_available_seats i n r) = Rides.id r).
  { intros r. unfold Pg.set_available_seats.
    now destruct (String.eqb (Rides.id r) i). }
  assert (Hw : forall r, Rides.with_available_seats n (Pg.set_available_seats i n r)
                         = Rides.with_available_seats n r).
  { intros r. unfold Pg.set_available_seats.
    now destruct (String.eqb (Rides.id r) i). }
  induction l as [|r l IH]; [reflexivity|].
  cbn [map filter]. rewrite Hid.
  destruct (String.eqb (Rides.id r) i); [|exact IH].
  cbn [map]. now rewrite Hw, IH.
Qed.

Lemma exec_status_twice (i : uuid) (s : Requests.request_status) (d : Pg.db) :
  Js.exec false (Pg.UpdateRequestStatus i s)
    (fst (Js.exec false (Pg.UpdateRequestStatus i s) d))
  = Js.exec false (Pg.UpdateRequestStatus i s) d.
Proof. rewrite !exec_status. simpl. now rewrite set_status_twice. Qed.

Lemma exec_seats_twice (i : uuid) (n : Z) (d : Pg.db) :
  Js.exec false (Pg.UpdateRideSeats i n)
    (fst (Js.exec false (Pg.UpdateRideSeats i n) d))
  = Js.exec false (Pg.UpdateRideSeats i n) d.
Proof.
  unfold Js.exec. cbn [Pg.apply_write]. unfold Pg.update_ride_seats.
  destruct (Pg.first_violation
              (map (Rides.with_available_seats n)
                 (filter (fun r => String.eqb (Rides.id r) i) (Pg.rides d))))
    eqn:E; cbn [fst]; [now rewrite E|].
  cbn [Pg.rides Pg.profiles Pg.requests].
  now rewrite hit_after_set, E, set_available_seats_twice.
Qed.

(** The seat write neither reads nor writes [requests]; the status write
    neither reads nor writes [rides]. *)
Lemma exec_status_after_seats (i j : uuid) (s : Requests.request_status) (n : Z)
    (d : Pg.db) :
  Js.exec false (Pg.UpdateRequestStatus i s)
    (fst (Js.exec false (Pg.UpdateRideSeats j n)
            (fst (Js.exec false (Pg.UpdateRequestStatus i s) d))))
  = (fst (Js.exec false (Pg.UpdateRideSeats j n)
            (fst (Js.exec false (Pg.UpdateRequestStatus i s) d))), None).
Proof.
  rewrite !exec_status. cbn [fst].
  unfold Js.exec. cbn [Pg.apply_write]. unfold Pg.update_ride_seats.
  cbn [Pg.rides Pg.profiles Pg.requests].
  destruct (Pg.first_violation _); cbn [fst Pg.rides Pg.profiles Pg.requests];
    now rewrite set_status_twice.
Qed.

(** X9. Clicking the same button twice on the same loaded dashboard does
    no more than clicking it once: with no write lost, running a decision
    again from the same state on the database the first run left gives that
    same database and the same toast.  The seats are written as a value, not
    as a decrement. *)
Theorem same_decision_twice_is_once
    (st : state) (requestId rideId : uuid) (decision : decision) (d : Pg.db) :
  let p := handleRequestDecision st requestId rideId decision in
  Js.run [] p (fst (Js.run [] p d)) = Js.run [] p d.
Proof.
  intros p. subst p.
  destruct (found_request st requestId) as [request|] eqn:Hreq;
    [|unfold handleRequestDecision; now rewrite Hreq].
  destruct (found_ride st rideId) as [ride|] eqn:Hride;
    [|unfold handleRequestDecision; now rewrite Hreq, Hride].
  destruct decision.
  - destruct (Z.le_gt_cases (Requests.seats_requested (row request))
                            (Rides.available_seats ride)) as [Hle|Hgt].
    + rewrite !(enough_seats_run st _ _ [] _ _ ride Hreq Hride Hle).
      cbn [hd tl].
      set (n := Rides.available_seats ride - Requests.seats_requested (row request)).
      pose proof (exec_status_after_seats requestId rideId Requests.approved n d)
        as H1.
      pose proof (exec_seats_twice rideId n
                    (fst (Js.exec false
                            (Pg.UpdateRequestStatus requestId Requests.approved) d)))
        as H2.
      assert (Hs : snd (Js.exec false
                          (Pg.UpdateRequestStatus requestId Requests.approved) d)
                   = None) by now rewrite exec_status.
      destruct (Js.exec false (Pg.UpdateRequestStatus requestId Requests.approved) d)
        as [d1 e1]. cbn [fst snd] in *. subst e1.
      destruct (Js.exec false (Pg.UpdateRideSeats rideId n) d1) as [d2 e2].
      cbn [fst snd] in *.
      assert (Hd2 : fst match e2 with
                        | Some e => (d2, Some (Js.ToastError e))
                        | None =>
                          (d2, Some match profiles request with
                                    | Some _ => Js.ToastRequestApproved
                                    | None => Js.ToastError Js.TypeError
                                    end)
                        end = d2) by now destruct e2.
      rewrite Hd2, H1. cbn [fst snd]. now rewrite H2.
    + rewrite !(not_enough_seats_run st _ _ [] _ _ ride Hreq Hride Hgt).
      cbn [hd fst]. now rewrite exec_status_twice.
  - unfold handleRequestDecision. rewrite Hreq, Hride. cbn [Js.run hd tl].
    pose proof (exec_status_twice requestId Requests.denied d) as H.
    assert (Hs : snd (Js.exec false (Pg.UpdateRequestStatus requestId
                                       Requests.denied) d) = None)
      by now rewrite exec_status.
    destruct (Js.exec false _ d) as [d1 e1]. cbn [fst snd] in *. subst e1.
    cbn beta iota. rewrite greet_fst, H. reflexivity.
Qed.
Lemma exec_seats_form (i : uuid) (n : Z) (d : Pg.db) :
  Js.exec false (Pg.UpdateRideSeats i n) d
  = match Pg.first_violation
            (map (Rides.with_available_seats n)
               (filter (fun r => String.eqb (Rides.id r) i) (Pg.rides d))) with
    | Some e => (d, Some (Js.PostgrestError e))
    | None => (Pg.mk (Pg.profiles d)
                 (map (Pg.set_available_seats i n) (Pg.rides d)) (Pg.requests d),
               None)
    end.
Proof.
  unfold Js.exec. cbn [Pg.apply_write]. unfold Pg.update_ride_seats.
  now destruct (Pg.first_violation _).
Qed.

Lemma set_status_swap (i j : uuid) (s t : Requests.request_status)
    (l : list Requests.row) :
  i <> j ->
  map (Pg.set_status j t) (map (Pg.set_status i s) l)
  = map (Pg.set_status i s) (map (Pg.set_status j t) l).
Proof.
  intros Hij. rewrite !map_map. apply map_ext. intros q. unfold Pg.set_status.
  destruct (String.eqb (Requests.id q) i) eqn:Ei;
    destruct (String.eqb (Requests.id q) j) eqn:Ej; simpl;
      rewrite ?Ei, ?Ej; try reflexivity.
  apply String.eqb_eq in Ei, Ej. congruence.
Qed.

Lemma set_available_seats_swap (i j : uuid) (n m : Z) (l : list Rides.row) :
  i <> j ->
  map (Pg.set_available_seats j m) (map (Pg.set_available_seats i n) l)
  = map (Pg.set_available_seats i n) (map (Pg.set_available_seats j m) l).
Proof.
  intros Hij. rewrite !map_map. apply map_ext. intros r.
  unfold Pg.set_available_seats.
  destruct (String.eqb (Rides.id r) i) eqn:Ei;
    destruct (String.eqb (Rides.id r) j) eqn:Ej; simpl;
      rewrite ?Ei, ?Ej; try reflexivity.
  apply String.eqb_eq in Ei, Ej. congruence.
Qed.

Lemma hit_after_other_set (i j : uuid) (n : Z) (l : list Rides.row) :
  i <> j ->
  filter (fun r => String.eqb (Rides.id r) j) (map (Pg.set_available_seats i n) l)
  = filter (fun r => String.eqb (Rides.id r) j) l.
Proof.
  intros Hij. induction l as [|r l IH]; [reflexivity|].
  cbn [map filter]. unfold Pg.set_available_seats at 1 2.
  destruct (String.eqb (Rides.id r) i) eqn:Ei.
  - cbn [Rides.id Rides.with_available_seats].
    apply String.eqb_eq in Ei.
    assert (Ej : String.eqb (Rides.id r) j = false)
      by (apply String.eqb_neq; congruence).
    now rewrite Ej.
  - destruct (String.eqb (Rides.id r) j); now rewrite IH.
Qed.

Lemma commute_status_status (i j : uuid) (s t : Requests.request_status) :
  i <> j ->
  Js.commute (Pg.UpdateRequestStatus i s) (Pg.UpdateRequestStatus j t).
Proof.
  intros Hij d. rewrite !exec_status. cbn [fst snd Pg.profiles Pg.rides Pg.requests].
  now rewrite set_status_swap.
Qed.

Lemma commute_status_seats (i j : uuid) (s : Requests.request_status) (n : Z) :
  Js.commute (Pg.UpdateRequestStatus i s) (Pg.UpdateRideSeats j n).
Proof.
  intros d. rewrite !exec_status, !exec_seats_form.
  cbn [fst snd Pg.profiles Pg.rides Pg.requests].
  destruct (Pg.first_violation _);
    cbn [fst snd Pg.profiles Pg.rides Pg.requests]; rewrite ?exec_status;
      now repeat split.
Qed.

Lemma commute_seats_status (i j : uuid) (s : Requests.request_status) (n : Z) :
  Js.commute (Pg.UpdateRideSeats j n) (Pg.UpdateRequestStatus i s).
Proof.
  intros d. destruct (commute_status_seats i j s n d) as [H1 [H2 H3]].
  now repeat split.
Qed.

Lemma commute_seats_seats (i j : uuid) (n m : Z) :
  i <> j -> Js.commute (Pg.UpdateRideSeats i n) (Pg.UpdateRideSeats j m).
Proof.
  intros Hij d. rewrite !exec_seats_form.
  destruct (Pg.first_violation
              (map (Rides.with_available_seats n)
                 (filter (fun r => String.eqb (Rides.id r) i) (Pg.rides d))))
    as [e1|] eqn:E1;
    destruct (Pg.first_violation
                (map (Rides.with_available_seats m)
                   (filter (fun r => String.eqb (Rides.id r) j) (Pg.rides d))))
      as [e2|] eqn:E2;
    cbn [fst snd]; rewrite ?exec_seats_form;
      cbn [Pg.profiles Pg.rides Pg.requests];
      rewrite ?(hit_after_other_set i j n _ Hij),
              ?(hit_after_other_set j i m _ (not_eq_sym Hij)), ?E1, ?E2;
      cbn [fst snd]; repeat split.
  now rewrite set_available_seats_swap.
Qed.

(** A write that commutes with every write of a call can be served before
    the call or after it. *)
Lemma run_after_write (p : Js.proc) (w : Pg.write) :
  (forall w', Js.issues p w' -> Js.commute w' w) ->
  forall d,
    Js.run [] p (fst (Js.exec false w d))
    = (fst (Js.exec false w (fst (Js.run [] p d))), snd (Js.run [] p d))
    /\ snd (Js.exec false w (fst (Js.run [] p d))) = snd (Js.exec false w d).
Proof.
  induction p as [t|w1 k IH]; intros Hc d.
  - now split.
  - cbn [Js.run hd tl].
    destruct (Hc w1 (Js.issues_now w1 k) d) as [C1 [C2 C3]].
    destruct (Js.exec false w1 (fst (Js.exec false w d))) as [d1' e1'] eqn:E1'.
    destruct (Js.exec false w1 d) as [d1 e1] eqn:E1.
    cbn [fst snd] in *. subst e1' d1'.
    destruct (IH e1 (fun w' H => Hc w' (Js.issues_later w1 k e1 w' H)) d1)
      as [I1 I2].
    split; [exact I1 | congruence].
Qed.

(** Calls whose writes commute pairwise give, under every schedule, what
    they give when run one after the other. *)
Lemma run2_serial (sched : list bool) (p q : Js.proc) :
  (forall w1 w2, Js.issues p w1 -> Js.issues q w2 -> Js.commute w1 w2) ->
  forall d,
    Js.run2 sched p q d
    = (fst (Js.run [] q (fst (Js.run [] p d))),
       snd (Js.run [] p d),
       snd (Js.run [] q (fst (Js.run [] p d)))).
Proof.
  revert p q. induction sched as [|b sched IH]; intros p q Hc d.
  - cbn [Js.run2]. destruct (Js.run [] p d) as [d1 t1]. cbn [fst snd].
    now destruct (Js.run [] q d1).
  - destruct b; cbn [Js.run2].
    + destruct p as [t1|w k].
      * cbn [Js.run fst snd]. now destruct (Js.run [] q d).
      * cbn [Js.run hd tl]. destruct (Js.exec false w d) as [d1 e1].
        apply IH. intros w1 w2 H1 H2. apply Hc; [|assumption].
        now apply (Js.issues_later w k e1).
    + destruct q as [t2|w k].
      * cbn [Js.run fst snd]. now destruct (Js.run [] p d).
      * destruct (run_after_write p w
                    (fun w' H => Hc w' w H (Js.issues_now w k)) d) as [A1 A2].
        destruct (Js.exec false w d) as [d1 e1] eqn:E1. cbn [fst snd] in *.
        rewrite IH by (intros w1 w2 H1 H2; apply Hc;
                       [assumption | now apply (Js.issues_later w k e1)]).
        rewrite A1. cbn [fst snd Js.run hd tl].
        destruct (Js.exec false w (fst (Js.run [] p d))) as [d2 e2].
        cbn [fst snd] in *. now subst e2.
Qed.

Lemma decision_issues (st : state) (requestId rideId : uuid) (decision : decision)
    (w : Pg.write) :
  Js.issues (handleRequestDecision st requestId rideId decision) w ->
  (exists s, w = Pg.UpdateRequestStatus requestId s)
  \/ (exists n, w = Pg.UpdateRideSeats rideId n).
Proof.
  unfold handleRequestDecision.
  destruct (found_request st requestId) as [request|]; [|intros H; inversion H].
  destruct (found_ride st rideId) as [ride|]; [|intros H; inversion H].
  assert (Hg : forall t w', ~ Js.issues
                              match profiles request with
                              | Some _ => Js.Return (Some t)
                              | None => Js.Return (Some (Js.ToastError Js.TypeError))
                              end w').
  { intros t w' H. destruct (profiles request); inversion H. }
  destruct decision.
  - destruct (Requests.seats_requested (row request) <=? Rides.available_seats ride).
    + intros H. inversion H as [|w0 k0 e w' H1]; subst; [left; now eexists|].
      destruct e; [inversion H1|].
      inversion H1 as [|w0 k0 e' w'' H2]; subst; [right; now eexists|].
      destruct e'; [inversion H2 | now apply Hg in H2].
    + intros H. inversion H as [|w0 k0 e w' H1]; subst; [left; now eexists|].
      inversion H1.
  - intros H. inversion H as [|w0 k0 e w' H1]; subst; [left; now eexists|].
    destruct e; [inversion H1 | now apply Hg in H1].
Qed.

(** X10. Two decisions about different requests on different rides do not
    interfere.  With no write lost, in whatever order the event loop serves
    the writes of the two calls, the database and the two toasts are those of
    running the first call to its end and then the second. *)
Theorem decisions_on_different_rides_serialize
    (st st' : state) (requestId rideId requestId' rideId' : uuid)
    (decision decision' : decision) (sched : list bool) (d : Pg.db) :
  requestId <> requestId' ->
  rideId <> rideId' ->
  let p := handleRequestDecision st requestId rideId decision in
  let q := handleRequestDecision st' requestId' rideId' decision' in
  Js.run2 sched p q d
  = (fst (Js.run [] q (fst (Js.run [] p d))),
     snd (Js.run [] p d),
     snd (Js.run [] q (fst (Js.run [] p d)))).
Proof.
  intros Hreq Hride p q. apply run2_serial.
  intros w1 w2 H1 H2.
  destruct (decision_issues _ _ _ _ _ H1) as [[s ->]|[n ->]];
    destruct (decision_issues _ _ _ _ _ H2) as [[t ->]|[m ->]].
  - now apply commute_status_status.
  - apply commute_status_seats.
  - apply commute_seats_status.
  - now apply commute_seats_seats.
Qed.

Lemma decisions_on_different_rides_serialize_witness :
  "q1" <> "q9" /\ "r1" <> "r2"
  /\ (let p := handleRequestDecision Scenario.loaded_two "q1" "r1" approve in
      let q := handleRequestDecision Scenario.loaded_two "q9" "r2" approve in
      let r := Js.run2 [false; true; false; true] p q Scenario.db_two in
      r = (fst (Js.run [] q (fst (Js.run [] p Scenario.db_two))),
           snd (Js.run [] p Scenario.db_two),
           snd (Js.run [] q (fst (Js.run [] p Scenario.db_two))))
      /\ map Rides.available_seats (Pg.rides (fst (fst r))) = [1; 1]
      /\ map Requests.status (Pg.requests (fst (fst r)))
         = [Requests.approved; Requests.approved]).
Proof.
  assert (Hq : "q1" <> "q9") by discriminate.
  assert (Hr : "r1" <> "r2") by discriminate.
  split; [exact Hq|]. split; [exact Hr|].
  split; [|split; reflexivity].
  exact (decisions_on_different_rides_serialize Scenario.loaded_two
           Scenario.loaded_two "q1" "r1" "q9" "r2" approve approve
           [false; true; false; true] Scenario.db_two Hq Hr).
Defined.
End Composition.

(** ** Posting and booking, edge by edge *)

Section PostingEffects.
Import OfferRide.

Lemma insert_ride_success (r : Rides.row) (d d' : Pg.db) :
  Pg.insert_ride r d = inr d' ->
  (0 < Rides.total_seats r < 2147483648)
  /\ ~ In (Rides.id r) (map Rides.id (Pg.rides d))
  /\ exists c, d' = Pg.mk (Pg.profiles d)
                      (Pg.rides d ++ [Rides.with_cost_per_person c r])
                      (Pg.requests d).
Proof.
  unfold Pg.insert_ride.
  destruct (Pg.int4 (Rides.total_seats r)) eqn:Eint; cbn [andb]; [|discriminate].
  destruct (if Pg.int4 (Rides.available_seats r)
            then match Rides.cost_per_person r with
                 | Some c => option_map Some (Pg.decimal_10_2 c)
                 | None => Some None
                 end
            else None) as [c|]; [|discriminate].
  destruct (Pg.rides_checks _) eqn:Echk; [discriminate|].
  destruct (Pg.has_id _ _) eqn:Eid; [discriminate|].
  destruct (negb _); [discriminate|].
  intros [= <-]. apply rides_checks_bounds in Echk. simpl in Echk.
  unfold Pg.int4 in Eint. apply andb_true_iff in Eint. destruct Eint as [_ Eint].
  apply Z.ltb_lt in Eint.
  split; [lia|]. split.
  - intros H. apply has_id_In in H. simpl in Eid. congruence.
  - now exists c.
Qed.


#[local] Open Scope Q_scope.

(** X12. The estimate that is stored with a posting: the duration is
    between 13 and 14 minutes for every character of the two place names
    taken together, and for a given route the cost per person does not go up
    when more seats are offered. *)
Theorem estimate_grows_with_the_names_and_shrinks_with_the_seats
    (origin destination : string) (s1 s2 : Z) (c1 c2 : Q) :
  (0 <= s1 <= s2)%Z ->
  costPerPerson origin destination s1 = Some c1 ->
  costPerPerson origin destination s2 = Some c2 ->
  let n := (length origin + length destination)%Z in
  (13 * n <= mockDurationMinutes origin destination <= 14 * n)%Z
  /\ c2 <= c1.
Proof.
  intros Hs H1 H2 n. split.
  - unfold mockDurationMinutes, Math_round, mockDistance. fold n.
    assert (Hn : (0 <= n)%Z)
      by (subst n; pose proof (length_nonneg origin);
          pose proof (length_nonneg destination); lia).
    set (q := (inject_Z (n * 12) / 55 * 60 + (1 # 2))%Q).
    assert (Hq : q == (288 * n + 11) # 22).
    { subst q. rewrite (Qmake_Qdiv (288 * n + 11) 22).
      rewrite inject_Z_plus, !inject_Z_mult. field. }
    rewrite (Qfloor_comp _ _ Hq). unfold Qfloor.
    change (Z.pos 22) with 22%Z.
    split.
    + apply Z.div_le_lower_bound; lia.
    + apply Z.lt_succ_r. apply Z.div_lt_upper_bound; lia.
  - unfold costPerPerson, js_div in H1, H2.
    destruct (Qeq_bool (inject_Z (s1 + 1)) 0); [discriminate|].
    destruct (Qeq_bool (inject_Z (s2 + 1)) 0); [discriminate|].
    injection H1 as <-. injection H2 as <-.
    pose proof (totalFuelCost_nonneg origin destination) as Hf.
    unfold Qdiv. apply Qmult_le_compat_nonneg.
    + split; [assumption | apply Qle_refl].
    + assert (P1 : 0 < inject_Z (s1 + 1)) by (unfold Qlt; simpl; lia).
      assert (P2 : 0 < inject_Z (s2 + 1)) by (unfold Qlt; simpl; lia).
      split; [now apply Qlt_le_weak, Qinv_lt_0_compat|].
      apply Qle_shift_inv_l; [assumption|].
      rewrite Qmult_comm. apply Qle_shift_div_r; [assumption|].
      rewrite Qmult_1_l. unfold Qle. simpl. lia.
Qed.

Lemma estimate_grows_with_the_names_and_shrinks_with_the_seats_witness :
  (0 <= 1 <= 3)%Z
  /\ costPerPerson "Ithaca" "Boston" 1 = Some (totalFuelCost "Ithaca" "Boston" / 2)
  /\ costPerPerson "Ithaca" "Boston" 3 = Some (totalFuelCost "Ithaca" "Boston" / 4)
  /\ (13 * 12 <= mockDurationMinutes "Ithaca" "Boston" <= 14 * 12)%Z
  /\ totalFuelCost "Ithaca" "Boston" / 4 <= totalFuelCost "Ithaca" "Boston" / 2.
Proof.
  assert (H : (0 <= 1 <= 3)%Z) by (split; intro E; discriminate E).
  split; [exact H|]. split; [reflexivity|]. split; [reflexivity|].
  exact (estimate_grows_with_the_names_and_shrinks_with_the_seats
           "Ithaca" "Boston" 1 3 _ _ H eq_refl eq_refl).
Defined.




End PostingEffects.

Section BookingEffects.
Import FindRide.

Lemma existsb_duplicate_false (ride_id : uuid) (p : option uuid)
    (l : list Requests.row) :
  existsb (fun q' => String.eqb (Requests.ride_id q') ride_id
                     && Pg.option_uuid_eqb (Requests.passenger_id q') p) l
  = false <->
  (forall u, p = Some u ->
             forall q, In q l -> Requests.ride_id q = ride_id ->
                       Requests.passenger_id q <> Some u).
Proof.
  split.
  - intros H u -> q Hq Hr Hp.
    assert (E : existsb (fun q' => String.eqb (Requests.ride_id q') ride_id
                          && Pg.option_uuid_eqb (Requests.passenger_id q') (Some u)) l
                = true); [|congruence].
    apply existsb_exists. exists q. split; [assumption|].
    rewrite Hr, Hp. simpl. now rewrite !String.eqb_refl.
  - intros H. destruct p as [u|]; [|apply guest_never_duplicate].
    destruct (existsb _ l) eqn:E; [|reflexivity].
    apply existsb_exists in E. destruct E as [q [Hq Hb]].
    apply andb_true_iff in Hb. destruct Hb as [Hr Hp].
    apply String.eqb_eq in Hr. apply option_uuid_eqb_Some in Hp.
    now destruct (H u eq_refl q Hq Hr).
Qed.

Lemma insert_request_inr (new_id ride_id : uuid) (p : option uuid) (n : Z)
    (e c : option string) (d : Pg.db) :
  (exists d', Pg.insert_request new_id ride_id p (Some n) e c d = inr d') <->
  0 < n < 2147483648
  /\ ~ In new_id (map Requests.id (Pg.requests d))
  /\ (forall u, p = Some u ->
                forall q, In q (Pg.requests d) -> Requests.ride_id q = ride_id ->
                          Requests.passenger_id q <> Some u)
  /\ In ride_id (map Rides.id (Pg.rides d))
  /\ (forall u, p = Some u -> In u (map Profiles.id (Pg.profiles d))).
Proof.
  unfold Pg.insert_request.
  rewrite <- existsb_duplicate_false, <- !has_id_In.
  assert (Hrange : Pg.int4 n = true /\ (0 <? n) = true <-> 0 < n < 2147483648).
  { unfold Pg.int4. rewrite andb_true_iff, Z.leb_le, !Z.ltb_lt. lia. }
  destruct (Pg.int4 n); cbn [negb];
    [|split; [intros [d' H]; discriminate H
             | intros [H _]; apply Hrange in H; destruct H as [H _];
               discriminate H]].
  destruct (0 <? n); cbn [negb];
    [|split; [intros [d' H]; discriminate H
             | intros [H _]; apply Hrange in H; destruct H as [_ H];
               discriminate H]].
  assert (Hn : 0 < n < 2147483648) by now apply Hrange.
  destruct (Pg.has_id new_id _); cbn [negb];
    [split; [intros [d' H]; discriminate H | intros [_ [H _]]; now destruct H]|].
  destruct (existsb _ _);
    [split; [intros [d' H]; discriminate H | intros [_ [_ [H _]]]; discriminate H]|].
  destruct (Pg.has_id ride_id _); cbn [negb];
    [|split; [intros [d' H]; discriminate H
             | intros [_ [_ [_ [H _]]]]; discriminate H]].
  destruct p as [u|]; cbn [Pg.fk_profile negb].
  - destruct (Pg.has_id u _) eqn:Eu; cbn [negb].
    + split; [|now eexists]. intros _. repeat split; try discriminate; try lia.
      intros v [= <-]. now apply has_id_In.
    + split; [intros [d' H]; discriminate H|].
      intros [_ [_ [_ [_ H]]]]. specialize (H u eq_refl).
      apply has_id_In in H. congruence.
  - split; [|now eexists]. intros _. repeat split; try discriminate; lia.
Qed.

(** X14. When [handleBooking] succeeds.  "Request sent!" is shown exactly
    when a ride is selected, a guest has given an email, the insert reaches
    the database, the seat count is a number, positive and within the
    [INTEGER] column, the new id is unused, a signed-in passenger has a
    profile and no earlier request against the ride, and the ride exists.
    The ride's available seats play no part: the [max] of the input is all
    that ties the count to them.  On success the request is appended,
    pending, and nothing else changes; otherwise nothing changes at all. *)
Theorem booking_succeeds_whatever_seats_are_left
    (selectedRide : option Rides.row) (user : option uuid)
    (guestEmail guestName : string) (seatsToBook : option Z) (new_id : uuid)
    (net : list bool) (d : Pg.db) :
  let out := Js.run net (handleBooking selectedRide user guestEmail guestName
                           seatsToBook new_id) d in
  (snd out = Some Js.ToastRequestSent <->
   exists ride n,
     selectedRide = Some ride
     /\ (user = None -> guestEmail <> "")
     /\ hd false net = false
     /\ seatsToBook = Some n
     /\ 0 < n < 2147483648
     /\ ~ In new_id (map Requests.id (Pg.requests d))
     /\ (forall u, user = Some u ->
                   forall q, In q (Pg.requests d) ->
                             Requests.ride_id q = Rides.id ride ->
                             Requests.passenger_id q <> Some u)
     /\ In (Rides.id ride) (map Rides.id (Pg.rides d))
     /\ (forall u, user = Some u -> In u (map Profiles.id (Pg.profiles d))))
  /\ (snd out <> Some Js.ToastRequestSent -> fst out = d)
  /\ (snd out = Some Js.ToastRequestSent ->
      exists ride q,
        selectedRide = Some ride
        /\ fst out = Pg.mk (Pg.profiles d) (Pg.rides d) (Pg.requests d ++ [q])
        /\ Requests.id q = new_id
        /\ Requests.ride_id q = Rides.id ride
        /\ Requests.passenger_id q = user
        /\ seatsToBook = Some (Requests.seats_requested q)
        /\ Requests.status q = Requests.pending).
Proof.
  intros out. subst out.
  assert (Hins : forall ride p e c,
             let out := Js.run net (insert (Rides.id ride) p seatsToBook e c new_id) d in
             (snd out = Some Js.ToastRequestSent <->
              hd false net = false
              /\ exists n, seatsToBook = Some n
                           /\ exists d', Pg.insert_request new_id (Rides.id ride) p
                                           (Some n) e c d = inr d')
             /\ (snd out <> Some Js.ToastRequestSent -> fst out = d)
             /\ (snd out = Some Js.ToastRequestSent ->
                 exists q,
                   fst out = Pg.mk (Pg.profiles d) (Pg.rides d) (Pg.requests d ++ [q])
                   /\ Requests.id q = new_id
                   /\ Requests.ride_id q = Rides.id ride
                   /\ Requests.passenger_id q = p
                   /\ seatsToBook = Some (Requests.seats_requested q)
                   /\ Requests.status q = Requests.pending)).
  { intros ride p e c. unfold insert. cbn [Js.run]. unfold Js.exec.
    destruct (hd false net).
    - cbn [fst snd Js.run]. split; [|split]; try (intros H; discriminate H); auto.
      split; [intros H; discriminate H | intros [H _]; discriminate H].
    - cbn [Pg.apply_write].
      destruct seatsToBook as [n|].
      2:{ cbn [Pg.insert_request fst snd Js.run].
          split; [|split]; try (intros H; discriminate H); auto.
          split; [intros H; discriminate H
                 | intros [_ [n [H _]]]; discriminate H]. }
      destruct (Pg.insert_request _ _ _ _ _ _ d) as [x|d'] eqn:E;
        cbn [fst snd Js.run].
      + split; [|split]; try (intros H; discriminate H); auto.
        split; [intros H; discriminate H|].
        intros [_ [m [[= <-] [d' H]]]]. rewrite E in H. discriminate H.
      + split; [|split].
        * split; [|reflexivity].
          intros _. split; [reflexivity|]. exists n. split; [reflexivity|].
          now exists d'.
        * intros H. now destruct H.
        * intros _. unfold Pg.insert_request in E.
          repeat match type of E with
                 | (if ?b then _ else _) = _ => destruct b; [discriminate E|]
                 | (if ?b then _ else _) = _ => destruct b; [|discriminate E]
                 end.
          injection E as <-. eexists. split; [reflexivity|]. now simpl. }
  unfold handleBooking.
  destruct selectedRide as [ride|].
  2:{ cbn [Js.run fst snd]. split; [|split]; try (intros H; discriminate H); auto.
      split; [intros H; discriminate H | intros [r [n [H _]]]; discriminate H]. }
  assert (Hgo : forall p e c,
             p = user -> (user = None -> guestEmail <> "") ->
             let out := Js.run net (insert (Rides.id ride) p seatsToBook e c new_id) d in
             (snd out = Some Js.ToastRequestSent <->
              exists ride0 n,
                Some ride = Some ride0
                /\ (user = None -> guestEmail <> "")
                /\ hd false net = false
                /\ seatsToBook = Some n
                /\ 0 < n < 2147483648
                /\ ~ In new_id (map Requests.id (Pg.requests d))
                /\ (forall u, user = Some u ->
                              forall q, In q (Pg.requests d) ->
                                        Requests.ride_id q = Rides.id ride0 ->
                                        Requests.passenger_id q <> Some u)
                /\ In (Rides.id ride0) (map Rides.id (Pg.rides d))
                /\ (forall u, user = Some u ->
                              In u (map Profiles.id (Pg.profiles d))))
             /\ (snd out <> Some Js.ToastRequestSent -> fst out = d)
             /\ (snd out = Some Js.ToastRequestSent ->
                 exists ride0 q,
                   Some ride = Some ride0
                   /\ fst out = Pg.mk (Pg.profiles d) (Pg.rides d)
                                  (Pg.requests d ++ [q])
                   /\ Requests.id q = new_id
                   /\ Requests.ride_id q = Rides.id ride0
                   /\ Requests.passenger_id q = user
                   /\ seatsToBook = Some (Requests.seats_requested q)
                   /\ Requests.status q = Requests.pending)).
  { intros p e c -> Hguest.
    destruct (Hins ride user e c) as [H1 [H2 H3]].
    split; [|split; [exact H2|]].
    - rewrite H1. split.
      + intros [Hnet [n [Hn H]]]. apply insert_request_inr in H.
        exists ride, n. tauto.
      + intros [ride0 [n [[= <-] [_ [Hnet [Hn H]]]]]].
        split; [assumption|]. exists n. split; [assumption|].
        apply insert_request_inr. tauto.
    - intros H. destruct (H3 H) as [q Hq]. exists ride, q. tauto. }
  destruct user as [user_id|].
  - apply Hgo; [reflexivity | discriminate].
  - destruct (String.eqb guestEmail "") eqn:Ee.
    + apply String.eqb_eq in Ee.
      cbn [Js.run fst snd]. split; [|split]; try (intros H; discriminate H); auto.
      split; [intros H; discriminate H|].
      intros [r [n [_ [H _]]]]. now destruct (H eq_refl).
    + apply String.eqb_neq in Ee. apply Hgo; [reflexivity | now intros _].
Qed.
End BookingEffects.

(** ** The two location filters *)

Section Filters.
Import FindRide.

Lemma In_set_add (x y : string) (s : list string) :
  In x (set_add y s) <-> x = y \/ In x s.
Proof.
  unfold set_add. destruct (existsb (String.eqb y) s) eqn:E.
  - split; [now right|]. intros [->|H]; [|assumption].
    apply existsb_exists in E. destruct E as [z [Hz Hyz]].
    apply String.eqb_eq in Hyz. now subst.
  - rewrite in_app_iff. simpl. intuition congruence.
Qed.

Lemma NoDup_set_add (y : string) (s : list string) :
  NoDup s -> NoDup (set_add y s).
Proof.
  intros H. unfold set_add. destruct (existsb (String.eqb y) s) eqn:E; [assumption|].
  apply NoDup_app; [assumption | repeat constructor; intros [] |].
  intros x Hx [<-|[]].
  assert (existsb (String.eqb y) s = true); [|congruence].
  apply existsb_exists. exists y. split; [assumption | apply String.eqb_refl].
Qed.

Lemma locations_fold (field : Rides.row -> string) (data : list Rides.row)
    (s : list string) :
  let out := fold_left (fun s r => if String.eqb (field r) "" then s
                                   else set_add (field r) s) data s in
  (NoDup s -> NoDup out)
  /\ forall x, In x out <->
               In x s \/ (x <> "" /\ exists r, In r data /\ field r = x).
Proof.
  revert s. induction data as [|r data IH]; intros s; simpl.
  - split; [auto|]. intros x. split; [now left|].
    intros [H|[_ [r [[] _]]]]. assumption.
  - destruct (String.eqb (field r) "") eqn:E.
    + apply String.eqb_eq in E. destruct (IH s) as [H1 H2].
      split; [exact H1|]. intros x. rewrite H2. split.
      * intros [H|[Hx [r0 [Hr0 Hf]]]]; [now left|].
        right. split; [assumption|]. exists r0. split; [now right | assumption].
      * intros [H|[Hx [r0 [[<-|Hr0] Hf]]]]; [now left | congruence |].
        right. split; [assumption|]. now exists r0.
    + apply String.eqb_neq in E. destruct (IH (set_add (field r) s)) as [H1 H2].
      split; [intros H; now apply H1, NoDup_set_add|].
      intros x. rewrite H2, In_set_add. split.
      * intros [[->|H]|[Hx [r0 [Hr0 Hf]]]].
        -- right. split; [assumption|]. exists r. split; [now left | reflexivity].
        -- now left.
        -- right. split; [assumption|]. exists r0. split; [now right | assumption].
      * intros [H|[Hx [r0 [[<-|Hr0] Hf]]]].
        -- left. now right.
        -- left. left. now symmetry.
        -- right. split; [assumption|]. now exists r0.
Qed.

Lemma locations_spec (field : Rides.row -> string) (data : list Rides.row) :
  hd_error (locations field data) = Some "All Locations"
  /\ NoDup (tl (locations field data))
  /\ forall x, In x (tl (locations field data)) <->
               x <> "" /\ exists r, In r data /\ field r = x.
Proof.
  unfold locations. cbn [hd_error tl].
  destruct (locations_fold field data []) as [H1 H2].
  split; [reflexivity|]. split; [apply H1; constructor|].
  intros x. rewrite H2. simpl. tauto.
Qed.

(** X15. The values offered by the "From" and "To" selects are "All
    Locations" followed by the non-empty origins (destinations) of the loaded
    rides, each once.  Whichever origin or destination is picked from them,
    with the other select left on "All Locations", at least one ride is
    shown. *)
Theorem every_offered_location_shows_a_ride (data : list Rides.row) :
  (hd_error (origins data) = Some "All Locations"
   /\ NoDup (tl (origins data))
   /\ (forall x, In x (tl (origins data)) <->
                 x <> "" /\ exists r, In r data /\ Rides.origin r = x)
   /\ (forall x, In x (tl (origins data)) ->
                 shown x "All Locations" data <> []))
  /\ (hd_error (destinations data) = Some "All Locations"
      /\ NoDup (tl (destinations data))
      /\ (forall x, In x (tl (destinations data)) <->
                    x <> "" /\ exists r, In r data /\ Rides.destination r = x)
      /\ (forall x, In x (tl (destinations data)) ->
                    shown "All Locations" x data <> [])).
Proof.
  split.
  - destruct (locations_spec Rides.origin data) as [H1 [H2 H3]].
    split; [exact H1|]. split; [exact H2|]. split; [exact H3|].
    intros x Hx. apply H3 in Hx. destruct Hx as [_ [r [Hr Ho]]].
    assert (Hin : In r (shown x "All Locations" data)).
    { unfold shown. apply filter_In. split; [assumption|].
      rewrite Ho, !String.eqb_refl. now rewrite !orb_true_r. }
    intros E. rewrite E in Hin. destruct Hin.
  - destruct (locations_spec Rides.destination data) as [H1 [H2 H3]].
    split; [exact H1|]. split; [exact H2|]. split; [exact H3|].
    intros x Hx. apply H3 in Hx. destruct Hx as [_ [r [Hr Ho]]].
    assert (Hin : In r (shown "All Locations" x data)).
    { unfold shown. apply filter_In. split; [assumption|].
      rewrite Ho, !String.eqb_refl. now rewrite !orb_true_r. }
    intros E. rewrite E in Hin. destruct Hin.
Qed.

Lemma filter_filter {A : Type} (f g : A -> bool) (l : list A) :
  filter f (filter g l) = filter (fun x => g x && f x) l.
Proof.
  induction l as [|x l IH]; simpl; [reflexivity|].
  destruct (g x); simpl; [destruct (f x); now rewrite IH | exact IH].
Qed.

(** X16. The two filters act independently: filtering by origin and
    destination at once shows what filtering by destination and then by
    origin shows, in either order; filtering again by the same values
    changes nothing; and with both selects on "All Locations", as after
    Clear, every loaded ride is shown. *)
Theorem location_filters_compose (o d : string) (rides : list Rides.row) :
  shown o d rides = shown o "All Locations" (shown "All Locations" d rides)
  /\ shown o d rides = shown "All Locations" d (shown o "All Locations" rides)
  /\ shown o d (shown o d rides) = shown o d rides
  /\ shown "All Locations" "All Locations" rides = rides.
Proof.
  unfold shown. rewrite !filter_filter.
  assert (Hall : String.eqb "All Locations" "All Locations" = true)
    by apply String.eqb_refl.
  repeat split.
  - apply filter_ext. intros r. rewrite Hall. cbn [orb andb].
    rewrite andb_true_r. apply andb_comm.
  - apply filter_ext. intros r. rewrite Hall. cbn [orb andb].
    now rewrite andb_true_r.
  - apply filter_ext. intros r. apply andb_diag.
  - rewrite Hall. cbn [orb andb].
    induction rides as [|r rides IH]; [reflexivity|]. cbn [filter].
    now rewrite IH.
Qed.
End Filters.

(** ** The alias triggers *)

Section AliasTriggers.
Import Triggers.

(** X17. [rides_sync_seats_aliases] only fills NULLs: a seat column that has
    a value keeps it.  When at least one of [available_seats],
    [seats_available] and [total_seats] has a value, all three have one
    afterwards, and a column that was NULL takes the value of another; when
    none has, none gets one.  Running the trigger on its own result changes
    nothing.  A row whose three columns all have values passes through
    unchanged, so an UPDATE of [available_seats] alone does not carry over to
    [seats_available]. *)
Theorem seats_trigger_only_fills_nulls (NEW : seats) :
  let OUT := rides_sync_seats_aliases NEW in
  kept (available_seats NEW) (available_seats OUT)
  /\ kept (seats_available NEW) (seats_available OUT)
  /\ kept (total_seats NEW) (total_seats OUT)
  /\ (available_seats OUT = None <->
      available_seats NEW = None /\ seats_available NEW = None
      /\ total_seats NEW = None)
  /\ (seats_available OUT = None <-> available_seats OUT = None)
  /\ (total_seats OUT = None <-> available_seats OUT = None)
  /\ (available_seats NEW = None \/ seats_available NEW = None ->
      seats_available OUT = available_seats OUT)
  /\ (total_seats NEW = None -> total_seats OUT = available_seats OUT)
  /\ rides_sync_seats_aliases OUT = OUT.
Proof.
  destruct NEW as [[a|] [s|] [t|]]; unfold kept; cbn;
    repeat split; try tauto; try discriminate; try congruence;
      intros; try (intuition discriminate); intuition congruence.
Qed.

(** X18. [rides_sync_location_aliases] likewise only fills NULLs: [origin]
    and [start_location] keep the values they have, a NULL one takes the
    other's value, and afterwards either both are NULL or neither is; the
    same for [destination] and [end_location].  The two pairs do not touch
    each other, and the trigger run on its own result changes nothing. *)
Theorem location_trigger_only_fills_nulls (NEW : locations) :
  let OUT := rides_sync_location_aliases NEW in
  kept (origin NEW) (origin OUT)
  /\ kept (start_location NEW) (start_location OUT)
  /\ kept (destination NEW) (destination OUT)
  /\ kept (end_location NEW) (end_location OUT)
  /\ (origin OUT = None <-> origin NEW = None /\ start_location NEW = None)
  /\ (start_location OUT = None <-> origin OUT = None)
  /\ (destination OUT = None <->
      destination NEW = None /\ end_location NEW = None)
  /\ (end_location OUT = None <-> destination OUT = None)
  /\ (origin NEW = None \/ start_location NEW = None ->
      start_location OUT = origin OUT)
  /\ (destination NEW = None \/ end_location NEW = None ->
      end_location OUT = destination OUT)
  /\ rides_sync_location_aliases OUT = OUT.
Proof.
  destruct NEW as [[o|] [d|] [s|] [e|]]; unfold kept; cbn;
    repeat split; try tauto; try discriminate; try congruence;
      intros; try (intuition discriminate); intuition congruence.
Qed.
End AliasTriggers.

(** ** Profiles *)

Section Profiles.
Import Signup.

Lemma has_profile_In (i : uuid) (ps : list profile) :
  has_profile i ps = true <-> In i (map id ps).
Proof.
  unfold has_profile. rewrite existsb_exists, in_map_iff. split.
  - intros [p [Hp E]]. apply String.eqb_eq in E. now exists p.
  - intros [p [E Hp]]. exists p. split; [assumption | now apply String.eqb_eq].
Qed.

(** X19. The replacement [handle_new_user] agrees with the original wherever
    the original did not raise.  The original raises exactly when the
    metadata names a role other than passenger or driver, or the user already
    has a profile; there the replacement falls back to passenger, or leaves
    the existing profile as it is.  In every case it leaves the earlier
    profiles untouched and adds at most one, for the new user, named "User"
    when the metadata has no name. *)
Theorem profile_trigger_fix_is_conservative
    (new_id : uuid) (role_text name_text : option string) (ps : list profile) :
  (forall ps', handle_new_user_v1 new_id role_text name_text ps = Some ps' ->
               handle_new_user new_id role_text name_text ps = ps')
  /\ (handle_new_user_v1 new_id role_text name_text ps = None <->
      (exists t, role_text = Some t /\ t <> "passenger" /\ t <> "driver")
      \/ In new_id (map id ps))
  /\ (In new_id (map id ps) ->
      handle_new_user new_id role_text name_text ps = ps)
  /\ (~ In new_id (map id ps) ->
      handle_new_user new_id role_text name_text ps
      = ps ++ [mk new_id
                  (match name_text with Some n => n | None => "User" end)
                  (match role_text with
                   | Some t => if String.eqb t "driver" then driver else passenger
                   | None => passenger
                   end)
                  None]).
Proof.
  assert (Hrole : forall t,
             (if negb (String.eqb t "passenger" || String.eqb t "driver")
              then Some passenger else cast_role t)
             = Some (if String.eqb t "driver" then driver else passenger)
             /\ (cast_role t = None <-> t <> "passenger" /\ t <> "driver")
             /\ (forall r, cast_role t = Some r ->
                           r = if String.eqb t "driver" then driver else passenger)).
  { intros t. unfold cast_role.
    destruct (String.eqb t "passenger") eqn:Ep;
      destruct (String.eqb t "driver") eqn:Ed; simpl.
    - apply String.eqb_eq in Ep, Ed. subst t. discriminate Ed.
    - apply String.eqb_eq in Ep. apply String.eqb_neq in Ed.
      split; [reflexivity|]. split; [|now intros r [= <-]].
      split; [discriminate | tauto].
    - apply String.eqb_eq in Ed. apply String.eqb_neq in Ep.
      split; [reflexivity|]. split; [|now intros r [= <-]].
      split; [discriminate | tauto].
    - apply String.eqb_neq in Ep, Ed.
      split; [reflexivity|]. split; [tauto | discriminate]. }
  assert (Hsafe : match role_text with
                  | None => Some passenger
                  | Some t =>
                    if negb (String.eqb t "passenger" || String.eqb t "driver")
                    then Some passenger
                    else cast_role t
                  end
                  = Some match role_text with
                         | Some t => if String.eqb t "driver" then driver
                                     else passenger
                         | None => passenger
                         end).
  { destruct role_text as [t|]; [|reflexivity]. now destruct (Hrole t). }
  unfold handle_new_user_v1, handle_new_user. rewrite Hsafe. clear Hsafe.
  destruct (has_profile new_id ps) eqn:Eh.
  - apply has_profile_In in Eh as Hin.
    split; [|split; [|split]].
    + intros ps'. destruct role_text as [t|];
        [destruct (cast_role t)|]; discriminate.
    + split; [now right|]. intros _.
      destruct role_text as [t|]; [destruct (cast_role t)|]; reflexivity.
    + reflexivity.
    + intros H. now destruct H.
  - assert (Hnot : ~ In new_id (map id ps)).
    { intros H. apply has_profile_In in H. congruence. }
    split; [|split; [|split]].
    + intros ps'. destruct role_text as [t|].
      * destruct (Hrole t) as [_ [_ H3]].
        destruct (cast_role t) as [r|]; [|discriminate].
        intros [= <-]. now rewrite (H3 r eq_refl).
      * now intros [= <-].
    + destruct role_text as [t|].
      * destruct (Hrole t) as [_ [H2 _]].
        destruct (cast_role t) as [r|].
        -- split; [discriminate|].
           intros [[t' [[= <-] H]]|H]; [|contradiction].
           apply H2 in H. discriminate H.
        -- split; [|reflexivity]. intros _. left. exists t.
           split; [reflexivity | now apply H2].
      * split; [discriminate|].
        intros [[t [H _]]|H]; [discriminate H | contradiction].
    + intros H. contradiction.
    + intros _. reflexivity.
Qed.

(** X20. [create_user_profile] raises exactly when the caller has a session
    for another user, or the user has no profile yet and is not a row of
    [auth.users]; a caller without a session is not stopped by the guard.
    When it does not raise, the user has a profile afterwards that carries
    the given name and role, with the given phone number or, when none is
    given, the one stored before; every other profile is as it was; ids stay
    unique; and calling it again with the same arguments changes nothing. *)
Theorem create_user_profile_upserts
    (users : list uuid) (auth_uid : option uuid) (user_id : uuid) (name : string)
    (r : user_role) (phone_number : option string) (ps : list profile) :
  (create_user_profile users auth_uid user_id name r phone_number ps = None <->
   (exists v, auth_uid = Some v /\ v <> user_id)
   \/ (~ In user_id (map id ps) /\ ~ In user_id users))
  /\ forall ps',
       create_user_profile users auth_uid user_id name r phone_number ps = Some ps' ->
       In user_id (map id ps')
       /\ (forall p, In p ps' -> id p = user_id ->
                     full_name p = name /\ role p = r
                     /\ (phone_number <> None -> phone p = phone_number)
                     /\ (phone_number = None ->
                         In user_id (map id ps) ->
                         exists p0, In p0 ps /\ id p0 = user_id
                                    /\ phone p = phone p0))
       /\ (forall p, id p <> user_id -> (In p ps' <-> In p ps))
       /\ (NoDup (map id ps) -> NoDup (map id ps'))
       /\ create_user_profile users auth_uid user_id name r phone_number ps'
          = Some ps'.
Proof.
  unfold create_user_profile.
  set (guard := match auth_uid with
                | Some u => negb (String.eqb u user_id)
                | None => false
                end).
  assert (Hguard : guard = true <-> exists v, auth_uid = Some v /\ v <> user_id).
  { subst guard. destruct auth_uid as [u|].
    - rewrite negb_true_iff, String.eqb_neq. split.
      + intros H. now exists u.
      + now intros [v [[= <-] H]].
    - split; [discriminate | now intros [v [H _]]]. }
  destruct guard.
  - split; [split; [intros _; left; now apply Hguard | reflexivity]|].
    intros ps' H. discriminate H.
  - assert (Hno : ~ exists v, auth_uid = Some v /\ v <> user_id).
    { intros H. apply Hguard in H. discriminate H. }
    set (g := fun p => if String.eqb (id p) user_id
                       then mk (id p) name r
                              match phone_number with
                              | Some n => Some n
                              | None => phone p
                              end
                       else p).
    assert (Hg : forall p, id (g p) = id p).
    { intros p. subst g. cbn. now destruct (String.eqb (id p) user_id). }
    assert (Hids : map id (map g ps) = map id ps).
    { rewrite map_map. apply map_ext. exact Hg. }
    destruct (has_profile user_id ps) eqn:Eh.
    + apply has_profile_In in Eh as Hin.
      split; [split; [discriminate | intros [H|[H _]]; contradiction]|].
      intros ps' [= <-].
      split; [now rewrite Hids|]. split; [|split; [|split]].
      * intros p Hp Hid. apply in_map_iff in Hp. destruct Hp as [p0 [Hp0 Hin0]].
        subst g. cbn in Hp0.
        destruct (String.eqb (id p0) user_id) eqn:E0.
        -- subst p. cbn. repeat split.
           ++ intros Hn. destruct phone_number; [reflexivity | now destruct Hn].
           ++ intros -> _. exists p0. apply String.eqb_eq in E0. now repeat split.
        -- subst p. apply String.eqb_neq in E0. contradiction.
      * intros p Hp. rewrite in_map_iff. split.
        -- intros [p0 [Hp0 Hin0]]. subst g. cbn in Hp0.
           destruct (String.eqb (id p0) user_id) eqn:E0; [|now subst].
           subst p. cbn in Hp. apply String.eqb_eq in E0. contradiction.
        -- intros Hin0. exists p. split; [|assumption].
           subst g. cbn. apply String.eqb_neq in Hp. now rewrite Hp.
      * now rewrite Hids.
      * assert (Hh : has_profile user_id (map g ps) = true)
          by (apply has_profile_In; now rewrite Hids).
        rewrite Hh. f_equal. rewrite map_map. apply map_ext. intros p.
        subst g. cbn.
        destruct (String.eqb (id p) user_id) eqn:E0; cbn; rewrite E0;
          [|reflexivity].
        now destruct phone_number.
    + assert (Hnot : ~ In user_id (map id ps)).
      { intros H. apply has_profile_In in H. congruence. }
      destruct (Pg.has_id user_id users) eqn:Eu.
      2:{ split; [|intros ps' H; discriminate H].
          split; [|reflexivity]. intros _. right. split; [assumption|].
          intros H. apply has_id_In in H. congruence. }
      apply has_id_In in Eu.
      split; [split; [discriminate | intros [H|[_ H]]; contradiction]|].
      intros ps' [= <-].
      split; [rewrite map_app; apply in_or_app; right; now left|].
      split; [|split; [|split]].
      * intros p Hp Hid. apply in_app_or in Hp. destruct Hp as [Hp|[<-|[]]].
        -- destruct Hnot. rewrite <- Hid. now apply in_map.
        -- cbn. repeat split. intros _ H. contradiction.
      * intros p Hp. rewrite in_app_iff. simpl. split; [|tauto].
        intros [H|[<-|[]]]; [assumption | now destruct Hp].
      * intros Hnd. rewrite map_app. simpl.
        apply NoDup_app; [assumption | repeat constructor; intros [] |].
        intros x Hx [<-|[]]. contradiction.
      * assert (Hh : has_profile user_id (ps ++ [mk user_id name r phone_number])
                     = true).
        { apply has_profile_In. rewrite map_app. apply in_or_app. right. now left. }
        rewrite Hh. f_equal. rewrite map_app. f_equal.
        -- transitivity (map (fun p : profile => p) ps); [|apply map_id].
           apply map_ext_in. intros p Hp. subst g. cbn.
           destruct (String.eqb (id p) user_id) eqn:E0; [|reflexivity].
           apply String.eqb_eq in E0. destruct Hnot. rewrite <- E0. now apply in_map.
        -- subst g. cbn. rewrite String.eqb_refl. now destruct phone_number.
Qed.
End Profiles.

(** ** Deciding, then loading again *)

Section DecideThenReload.
Import DriverDashboard Inventory.

Lemma decided_set_status (i j : uuid) (s : Requests.request_status)
    (p : list Profiles.row) (r : list Rides.row) (d : Pg.db) :
  s <> Requests.pending -> decided i d ->
  decided i (Pg.mk p r (map (Pg.set_status j s) (Pg.requests d))).
Proof.
  intros Hs [Hin Hall]. split; cbn [Pg.requests].
  - now rewrite map_id_set_status.
  - intros q' Hq' Hid. apply in_map_iff in Hq'. destruct Hq' as [q [<- Hq]].
    unfold Pg.set_status in *.
    destruct (String.eqb (Requests.id q) j); [exact Hs | now apply Hall].
Qed.

Lemma decided_same_requests (i : uuid) (d d' : Pg.db) :
  Pg.requests d' = Pg.requests d -> decided i d -> decided i d'.
Proof. unfold decided. now intros ->. Qed.

Lemma insert_request_shape (new_id ride_id : uuid) (p : option uuid) (n : Z)
    (e c : option string) (d d' : Pg.db) :
  Pg.insert_request new_id ride_id p (Some n) e c d = inr d' ->
  ~ In new_id (map Requests.id (Pg.requests d))
  /\ Pg.requests d'
     = Pg.requests d ++ [Requests.mk new_id ride_id p n Requests.pending e c].
Proof.
  unfold Pg.insert_request.
  destruct (Pg.int4 n); cbn [negb]; [|discriminate].
  destruct (0 <? n); cbn [negb]; [|discriminate].
  destruct (Pg.has_id new_id _) eqn:Eid; [discriminate|].
  destruct (existsb _ _); [discriminate|].
  destruct (Pg.has_id ride_id _); cbn [negb]; [|discriminate].
  destruct (negb _); [discriminate|].
  intros [= <-]. split; [|reflexivity].
  intros H. apply has_id_In in H. congruence.
Qed.

(** No call ever writes the status pending. *)
Lemma call_never_sets_pending (p : Js.proc) (i : uuid)
    (s : Requests.request_status) :
  call p -> Js.issues p (Pg.UpdateRequestStatus i s) -> s <> Requests.pending.
Proof.
  intros Hcall.
  destruct Hcall as [user ge gn o de dt n ni | sel user ge gn n ni | st j r dec].
  - unfold OfferRide.handleSubmit, OfferRide.insert.
    intros H.
    destruct user; [|destruct (String.eqb ge "")]; try (now inversion H);
      (destruct dt; [|now inversion H]);
      inversion H as [|w0 k0 e w' H1]; subst; destruct e; inversion H1.
  - unfold FindRide.handleBooking, FindRide.insert.
    intros H. destruct sel; [|now inversion H].
    destruct user; [|destruct (String.eqb ge ""); [now inversion H|]];
      inversion H as [|w0 k0 e w' H1]; subst; destruct e; inversion H1.
  - unfold handleRequestDecision.
    destruct (found_request st j) as [request|]; [|intros H; inversion H].
    destruct (found_ride st r) as [ride|]; [|intros H; inversion H].
    assert (Hg : forall t w', ~ Js.issues
                                match profiles request with
                                | Some _ => Js.Return (Some t)
                                | None => Js.Return (Some (Js.ToastError Js.TypeError))
                                end w').
    { intros t w' H. destruct (profiles request); inversion H. }
    destruct dec.
    + destruct (Requests.seats_requested (row request) <=? Rides.available_seats ride).
      * intros H. inversion H as [|w0 k0 e w' H1]; subst; [discriminate|].
        destruct e; [inversion H1|].
        inversion H1 as [|w0 k0 e' w'' H2]; subst.
        destruct e'; [inversion H2 | now apply Hg in H2].
      * intros H. inversion H as [|w0 k0 e w' H1]; subst; [discriminate|].
        inversion H1.
    + intros H. inversion H as [|w0 k0 e w' H1]; subst; [discriminate|].
      destruct e; [inversion H1 | now apply Hg in H1].
Qed.

Lemma step_decided (i : uuid) (d d' : Pg.db) :
  step d d' -> decided i d -> decided i d'.
Proof.
  intros Hstep Hd. destruct Hstep as [d p | d p w lost Hcall Hw].
  - now apply (decided_same_requests i d).
  - unfold Js.exec. destruct lost; [assumption|].
    destruct (Pg.apply_write w d) as [e|d1] eqn:E; [assumption|]. cbn [fst].
    destruct w as [x | ni k pid n e c | j s | j n]; cbn [Pg.apply_write] in E.
    + destruct (insert_ride_success _ _ _ E) as [_ [_ [c ->]]].
      now apply (decided_same_requests i d).
    + destruct n as [n|]; [|discriminate E].
      destruct (insert_request_shape _ _ _ _ _ _ _ _ E) as [Hnew Hreqs].
      destruct Hd as [Hin Hall]. split; rewrite Hreqs.
      * rewrite map_app. apply in_or_app. now left.
      * intros q Hq Hid. apply in_app_or in Hq. destruct Hq as [Hq|[<-|[]]];
          [now apply Hall|].
        simpl in Hid. subst ni. contradiction.
    + pose proof (call_never_sets_pending p j s Hcall Hw) as Hs.
      unfold Pg.update_request_status in E. injection E as <-.
      now apply decided_set_status.
    + apply (decided_same_requests i d); [|assumption].
      unfold Pg.update_ride_seats in E.
      destruct (Pg.first_violation _); [discriminate E|]. now injection E as <-.
Qed.

Lemma afterwards_decided (i : uuid) (d d' : Pg.db) :
  afterwards d d' -> decided i d -> decided i d'.
Proof.
  induction 1 as [|d1 d2 _ IH Hstep]; intros Hd; [assumption|].
  exact (step_decided i d1 d2 Hstep (IH Hd)).
Qed.

Lemma afterwards_trans (d d1 d2 : Pg.db) : afterwards d d1 -> afterwards d1 d2 -> afterwards d d2.
Proof.
  intros H1 H2. induction H2 as [|d3 d4 _ IH Hstep]; [assumption|].
  exact (afterwards_step d d3 d4 IH Hstep).
Qed.

(** A whole call, run to its end, is a sequence of such steps. *)
Lemma run_afterwards (p : Js.proc) (net : list bool) (d : Pg.db) :
  call p -> afterwards d (fst (Js.run net p d)).
Proof.
  intros Hcall.
  assert (H : forall p0 net0 d0,
             (forall w, Js.issues p0 w -> Js.issues p w) ->
             afterwards d0 (fst (Js.run net0 p0 d0))).
  { induction p0 as [t|w k IH]; intros net0 d0 Hsub; [apply afterwards_now|].
    cbn [Js.run].
    pose proof (step_write d0 p w (hd false net0) Hcall
                  (Hsub w (Js.issues_now w k))) as Hstep.
    destruct (Js.exec (hd false net0) w d0) as [d1 e]. cbn [fst] in Hstep.
    apply (afterwards_trans d0 d1).
    - exact (afterwards_step d0 d0 d1 (afterwards_now d0) Hstep).
    - apply IH. intros w' Hw'. apply Hsub. exact (Js.issues_later w k e w' Hw'). }
  apply H. auto.
Qed.

(** X21. A request decided from a button of a freshly loaded dashboard
    stays decided.  Whichever way the decision goes (approved, denied, or
    denied for lack of seats) and whatever the toast, provided the status
    write reaches the database: after any further sign-ups and any writes of
    postings, bookings and decisions, issued from any state, in any order,
    by calls in flight together or one after the other, lost or not, the
    request is in the table with a status other than pending, and a load of
    the dashboard that comes back without error, by that driver or anyone
    else, holds no Approve/Deny pair for it and puts none on screen. *)
Theorem decided_request_leaves_the_pending_list
    (u : uuid) (now : timestamp) (d : Pg.db) (st0 : state)
    (requestId rideId : uuid) (decision : decision) (net : list bool) :
  consistent d ->
  let st := fst (fetchData (Some u) now None None d st0) in
  In (requestId, rideId) (decision_buttons (Some u) st) ->
  hd false net = false ->
  let d' := fst (Js.run net (handleRequestDecision st requestId rideId decision) d) in
  forall d'' : Pg.db,
    afterwards d' d'' ->
    decided requestId d''
    /\ forall (user : option uuid) (now' : timestamp) (st1 : state)
              (rideId' : uuid),
         let st' := fst (fetchData user now' None None d'' st1) in
         ~ In (requestId, rideId') (decision_buttons user st')
         /\ forall buttons, render user st' = inr buttons ->
                            ~ In (requestId, rideId') buttons.
Proof.
  intros Hc st Hb Hnet d' d'' Hafter.
  destruct (fresh_button (Some u) now d st0 requestId rideId Hc Hb)
    as [ride [q [_ [_ [Hq [Hqid [_ [_ [Hfr Hfq]]]]]]]]].
  fold st in Hfr, Hfq.
  assert (Hset : exists s, s <> Requests.pending /\ sets_status requestId s d d').
  { subst d'. destruct decision.
    - destruct (Z.le_gt_cases (Requests.seats_requested (row (join_profile d q)))
                              (Rides.available_seats ride)) as [Hle|Hgt].
      + exists Requests.approved. split; [discriminate|].
        exact (enough_seats_sets_approved st requestId rideId net d _ ride
                 Hfq Hfr Hle Hnet).
      + exists Requests.denied. split; [discriminate|].
        exact (not_enough_seats_sets_denied st requestId rideId net d _ ride
                 Hfq Hfr Hgt Hnet).
    - exists Requests.denied. split; [discriminate|].
      unfold handleRequestDecision. rewrite Hfq, Hfr. cbn [Js.run].
      rewrite exec_status, Hnet. cbn beta iota. rewrite greet_fst.
      now apply update_sets_status. }
  destruct Hset as [s [Hs [Hhit [Hall _]]]].
  assert (Hd' : decided requestId d').
  { split.
    - specialize (Hhit q Hq Hqid).
      apply (in_map Requests.id) in Hhit. simpl in Hhit. now rewrite Hqid in Hhit.
    - intros q' Hq' Hid'. now rewrite (Hall q' Hq' Hid'). }
  pose proof (afterwards_decided requestId d' d'' Hafter Hd') as Hd''.
  split; [exact Hd''|].
  intros user now' st1 rideId' st'.
  assert (Hno : ~ In (requestId, rideId') (decision_buttons user st')).
  { subst st'. destruct user as [u'|]; [|intros []].
    intros Hb'. apply buttons_iff in Hb'.
    destruct Hb' as [ride' [q' [_ [_ [_ [_ [Hq' [Hid' [_ Hst']]]]]]]]].
    now apply (proj2 Hd'' q' Hq' Hid'). }
  split; [exact Hno|].
  intros buttons Hr. now rewrite (render_inr _ _ _ Hr).
Qed.

Lemma decided_request_leaves_the_pending_list_witness :
  consistent Scenario.db0
  /\ In ("q1", "r1")
        (decision_buttons (Some "d1")
           (fst (fetchData (Some "d1") 0 None None Scenario.db0 (mk [] []))))
  /\ hd false [] = false
  /\ (let st := fst (fetchData (Some "d1") 0 None None Scenario.db0 (mk [] [])) in
      let d' := fst (Js.run [] (handleRequestDecision st "q1" "r1" deny)
                       Scenario.db0) in
      let d'' := fst (Js.run [] (FindRide.handleBooking (Some Scenario.ride1) None
                                   "g@x.org" "" (Some 1) "g1") d') in
      map Requests.status (Pg.requests d'')
      = [Requests.denied; Requests.pending; Requests.pending]
      /\ decided "q1" d''
      /\ ~ In ("q1", "r1")
              (decision_buttons (Some "d1")
                 (fst (fetchData (Some "d1") 0 None None d'' Scenario.loaded)))).
Proof.
  pose proof (proj1 (reachable_sound _ db0_reachable)) as Hc.
  assert (Hb : In ("q1", "r1")
                  (decision_buttons (Some "d1")
                     (fst (fetchData (Some "d1") 0 None None Scenario.db0
                             (mk [] [])))))
    by (vm_compute; left; reflexivity).
  split; [exact Hc|]. split; [exact Hb|]. split; [reflexivity|].
  intros st d' d''.
  assert (Hl : afterwards d' d'').
  { apply run_afterwards.
    exact (call_handleBooking (Some Scenario.ride1) None "g@x.org" "" (Some 1)
             "g1"). }
  pose proof (decided_request_leaves_the_pending_list "d1" 0 Scenario.db0
                (mk [] []) "q1" "r1" deny [] Hc Hb eq_refl d'' Hl) as [Hd Hload].
  split; [vm_compute; reflexivity|]. split; [exact Hd|].
  exact (proj1 (Hload (Some "d1") 0 Scenario.loaded "r1")).
Defined.
End DecideThenReload.
